(** * Recurring-charge detection and reconciliation (treeline-subscriptions)

    A shallow embedding of [detectSubscriptions] and of the SQL it sends to
    the transaction store (SubscriptionsView.svelte, the revision with
    [merchant_key], manual tags and the merge), followed by the properties
    the specification states about them.

    Conventions of the embedding:
    - JavaScript numbers and SQL DOUBLE/DECIMAL values are exact rationals
      ([Q]); integers that the code keeps integral (day counts, rounded
      intervals, occurrence counts) are [Z].  A non-finite JavaScript number
      (the result of a division by zero) is [None] in an [option Q].
    - Calendar dates are day numbers ([Z]); DATEDIFF('day', a, b) is [b - a].
    - SQL NULL is [None].
    - Strings are [string].  The functions of the two runtimes that follow
      the Unicode tables ([toUpperCase], [toLowerCase], [trim] in
      JavaScript, [UPPER] in SQL) are kept abstract, see [Js.Unicode] and
      [Sql.Collation]; every property holds whatever they are.
    - An aggregate that SQL leaves to the engine ([FIRST] without an
      order) reads the row the evaluation chooses, see [Sql.first] and
      [Clock].
    - [new Set(...)] is a [gset string]; [.has] is membership. *)

From Stdlib Require Import ZArith QArith Qround Qabs Lia.
From Stdlib Require Import Ascii String DecimalString.
From Stdlib Require Import Reals Qreals Psatz.
From Stdlib Require Import Sorted.
From stdpp Require Import gmap strings list.

Open Scope Z_scope.

(** ** JavaScript primitives *)

Module Js.

(** [Math.round]: the nearest integer, ties towards +infinity. *)
Definition round (x : Q) : Z := Qfloor (x + (1 # 2))%Q.

(** [Math.round(x * 100) / 100], on the exact value of [x]: by the
    convention above a number is an exact rational, so a value that a
    double holds just below a tie (1.005) is rounded here from the tie
    itself. *)
Definition round_cents (x : Q) : Q := (inject_Z (round (x * 100)) / 100)%Q.

(** [a / b] on numbers; a zero divisor gives a non-finite value. *)
Definition div (a b : Q) : option Q :=
  if Qeq_bool b 0 then None else Some (a / b)%Q.

(** [String.prototype.toUpperCase], [toLowerCase] and [trim] follow the
    Unicode tables of the runtime (the sharp s becomes SS, U+00A0 is white
    space).  They are not computed here: the definitions below take them
    from the context.  The one fact about them that the properties use is
    that trimming the empty string leaves it empty. *)
Class Unicode := {
  toUpperCase : string -> string;
  toLowerCase : string -> string;
  trim : string -> string;
  trim_empty : trim EmptyString = EmptyString
}.

(** Their restrictions to ASCII, where they agree with the runtime on
    strings of ASCII characters; used in worked examples only. *)
Definition upper_ascii (c : ascii) : ascii :=
  let n := nat_of_ascii c in
  if ((97 <=? n)%nat && (n <=? 122)%nat)%bool then ascii_of_nat (n - 32) else c.

Fixpoint toUpperCase_ascii (s : string) : string :=
  match s with
  | EmptyString => EmptyString
  | String c r => String (upper_ascii c) (toUpperCase_ascii r)
  end.

Definition lower_ascii (c : ascii) : ascii :=
  let n := nat_of_ascii c in
  if ((65 <=? n)%nat && (n <=? 90)%nat)%bool then ascii_of_nat (n + 32) else c.

Fixpoint toLowerCase_ascii (s : string) : string :=
  match s with
  | EmptyString => EmptyString
  | String c r => String (lower_ascii c) (toLowerCase_ascii r)
  end.

(** ASCII white space: TAB, LF, VT, FF, CR, SP. *)
Definition is_space (c : ascii) : bool :=
  let n := nat_of_ascii c in
  ((9 <=? n)%nat && (n <=? 13)%nat)%bool || (n =? 32)%nat.

Fixpoint trimStart_ascii (s : string) : string :=
  match s with
  | EmptyString => EmptyString
  | String c r => if is_space c then trimStart_ascii r else s
  end.

Fixpoint trimEnd_ascii (s : string) : string :=
  match s with
  | EmptyString => EmptyString
  | String c r =>
      match trimEnd_ascii r with
      | EmptyString => if is_space c then EmptyString else String c EmptyString
      | r' => String c r'
      end
  end.

Definition trim_ascii (s : string) : string := trimEnd_ascii (trimStart_ascii s).

(** [s.split(' ')[0]]: everything before the first U+0020, the whole of
    [s] when it has none. *)
Fixpoint split_space_head (s : string) : string :=
  match s with
  | EmptyString => EmptyString
  | String c r =>
      if Ascii.eqb c " " then EmptyString else String c (split_space_head r)
  end.

(** Truthiness of a string: only the empty string is falsy. *)
Definition truthy (s : string) : bool :=
  match s with EmptyString => false | _ => true end.

(** [row[i] as string || dflt] on a nullable column. *)
Definition str_or (v : option string) (dflt : string) : string :=
  match v with
  | Some s => if truthy s then s else dflt
  | None => dflt
  end.

(** [x || dflt] on a number: zero is falsy. *)
Definition num_or (x : Q) (dflt : Q) : Q :=
  if Qeq_bool x 0 then dflt else x.

Definition two_digits (n : Z) : string :=
  (if n <? 10 then "0" else "") +:+ NilZero.string_of_uint (N.to_uint (Z.to_N n)).

(** [x.toFixed(2)]: sign, integer part, a dot and two decimals of [|x|]
    rounded to the nearest hundredth (ties to the larger magnitude). *)
Definition toFixed2 (x : Q) : string :=
  let n := Qfloor (Qabs x * 100 + (1 # 2))%Q in
  (if Qle_bool 0 x then "" else "-")
    +:+ NilZero.string_of_uint (N.to_uint (Z.to_N (n / 100)))
    +:+ "." +:+ two_digits (n mod 100).

End Js.

(** ** The output entity *)

Record Subscription := mkSubscription {
  merchant : string;
  merchant_key : string;
  amount : Q;
  frequency : string;
  interval_days : Z;
  occurrence_count : Z;
  annual_cost : option Q;
  ytd_cost : Q;
  last_charge : Z;
  first_charge : Z;
  days_since_last : Z;
  is_stale : bool;
  is_manual : bool
}.

(** ** Classifier: the body shared by both [rows.map] callbacks *)

(** The [if]/[else if] chain over [intervalDays]; [frequency] starts as
    "unknown" and every branch assigns it. *)
Definition frequency_of (intervalDays : Z) : string :=
  let frequency := "unknown" in
  if intervalDays <=? 8 then "weekly"
  else if intervalDays <=? 16 then "bi-weekly"
  else if intervalDays <=? 35 then "monthly"
  else if intervalDays <=? 100 then "quarterly"
  else if intervalDays <=? 200 then "semi-annual"
  else "annual".

Definition staleThreshold (intervalDays : Z) : Z := Z.max (intervalDays * 2) 90.

(** [Math.round(avg_amount * (365 / intervalDays) * 100) / 100]. *)
Definition annual_cost_of (avg_amount : Q) (intervalDays : Z) : option Q :=
  match Js.div 365 (inject_Z intervalDays) with
  | Some per_year => Some (Js.round_cents (avg_amount * per_year))
  | None => None
  end.

(** ** SQL primitives (DuckDB built-ins used by the two queries) *)

Module Sql.

Definition Qltb (a b : Q) : bool := negb (Qle_bool b a).

(** [ROUND(x, 2)], kept as a whole number of cents: nearest hundredth,
    ties away from zero. *)
Definition round2_cents (x : Q) : Z :=
  if Qle_bool 0 x then Qfloor (x * 100 + (1 # 2))%Q
  else - Qfloor (- x * 100 + (1 # 2))%Q.

(** [UPPER] follows the Unicode tables of the engine, which need not be
    those of the JavaScript runtime; it is taken from the context. *)
Class Collation := {
  upper : string -> string
}.

Definition sum (xs : list Q) : Q := foldr Qplus 0%Q xs.

Definition count {A} (xs : list A) : Z := Z.of_nat (length xs).

(** [AVG]: NULL over no rows. *)
Definition avg (xs : list Q) : option Q :=
  match xs with
  | [] => None
  | _ => Some (sum xs / inject_Z (count xs))%Q
  end.

(** [VAR_SAMP]: NULL over fewer than two rows. *)
Definition var_samp (xs : list Q) : option Q :=
  match avg xs with
  | Some m =>
      if count xs <? 2 then None
      else Some (sum ((fun x => (x - m) * (x - m))%Q <$> xs)
                 / inject_Z (count xs - 1))%Q
  | None => None
  end.

(** [STDDEV(xs) < bound], with [STDDEV] the sample standard deviation
    (the square root of [VAR_SAMP]); a NULL deviation makes the
    comparison NULL, which HAVING treats as false.  The square root is
    compared through its square, see [stddev_lt_sqrt]. *)
Definition stddev_lt (xs : list Q) (bound : Q) : bool :=
  match var_samp xs with
  | Some v => Qltb 0 bound && Qltb v (bound * bound)
  | None => false
  end.

(** [x BETWEEN lo AND hi]. *)
Definition between (x lo hi : Q) : bool := Qle_bool lo x && Qle_bool x hi.

Definition max_list (xs : list Z) : option Z :=
  match xs with
  | [] => None
  | x :: r => Some (foldr Z.max x r)
  end.

Definition min_list (xs : list Z) : option Z :=
  match xs with
  | [] => None
  | x :: r => Some (foldr Z.min x r)
  end.

(** [COALESCE(v, d)]. *)
Definition coalesce {A} (v : option A) (d : A) : A :=
  match v with Some x => x | None => d end.

(** [ORDER BY]: a stable insertion sort for the order [leb]. *)
Fixpoint insert_by {A} (leb : A -> A -> bool) (x : A) (l : list A) : list A :=
  match l with
  | [] => [x]
  | y :: l' => if leb x y then x :: y :: l' else y :: insert_by leb x l'
  end.

Definition order_by {A} (leb : A -> A -> bool) (l : list A) : list A :=
  foldr (insert_by leb) [] l.

(** [GROUP BY key] / [PARTITION BY key]: the distinct keys in order of
    first appearance, each with its rows in table order. *)
Definition group_by {A K} `{EqDecision K} (key : A -> K) (rows : list A)
  : list (K * list A) :=
  (fun k => (k, filter (fun r => key r = k) rows)) <$> remove_dups (key <$> rows).

(** [LAG(date) OVER (... ORDER BY date)] on the rows of one partition,
    already ordered: every row paired with the date of the row before. *)
Fixpoint lag {A} (date : A -> Z) (prev : option Z) (rows : list A)
  : list (A * option Z) :=
  match rows with
  | [] => []
  | r :: rest => (r, prev) :: lag date (Some (date r)) rest
  end.

(** [WHERE prev_date IS NOT NULL], with
    [DATEDIFF('day', prev_date, transaction_date)] computed. *)
Definition intervals {A} (date : A -> Z) (rows : list A) : list (A * Z) :=
  omap (fun p : A * option Z =>
          match snd p with
          | Some d => Some (fst p, date (fst p) - d)
          | None => None
          end)
       (lag date None rows).

(** [FIRST(x)] has no ORDER BY of its own: which row of the group it
    reads is left to the engine.  [pos] is the engine's choice, taken
    modulo the size of the group; NULL over no rows. *)
Definition first {A} (pos : nat) (rows : list A) : option A :=
  rows !! (pos mod length rows)%nat.

End Sql.

Section Queries.

Context {unicode : Js.Unicode} {collation : Sql.Collation}.

(** ** The transaction store *)

Record Transaction := mkTransaction {
  t_description : option string;
  t_amount : Q;
  t_date : Z;
  t_tags : list string
}.

(** What one evaluation of a query fixes besides the rows it reads:
    [CURRENT_DATE], [DATE_TRUNC('year', CURRENT_DATE)] and, for every
    group, the row that [FIRST] reads (see [Sql.first]): [first_merchant]
    for the groups of [merchant_stats], [first_tagged_merchant] for those
    of the [grouped] CTE of the tagged query. *)
Record Clock := mkClock {
  current_date : Z;
  year_start : Z;
  first_merchant : string * Z -> nat;
  first_tagged_merchant : option string -> nat
}.

(** ** The auto-detect query [SUBSCRIPTION_SQL], one definition per CTE *)

Record BaseRow := mkBaseRow {
  b_norm_amount : Z;
  b_upper_desc : string;
  b_description : string;
  b_amount : Q;
  b_date : Z
}.

Record GroupedRow := mkGroupedRow {
  g_norm_amount : Z;
  g_description : string;
  g_amount : Q;
  g_date : Z;
  g_merchant_group : string
}.

Record IntervalRow := mkIntervalRow {
  i_merchant_group : string;
  i_norm_amount : Z;
  i_merchant : string;
  i_amount : Q;
  i_date : Z;
  i_interval_days : Z
}.

(** A result row of either query, by column; the [stddev_interval] column
    of [merchant_stats] is never read by the caller and is left out. *)
Record StatRow := mkStatRow {
  r_merchant : option string;
  r_merchant_key : option string;
  r_avg_amount : Q;
  r_occurrence_count : Z;
  r_avg_interval : Q;
  r_last_charge : Z;
  r_first_charge : Z;
  r_ytd_cost : Q;
  r_days_since_last : Z
}.

(** The tolerance written in the HAVING clause of this revision, and the
    one of the revision without merchant keys. *)
Definition intervalConsistencyTolerance : Q := 1 # 2.
Definition intervalConsistencyTolerance_v1 : Q := 3 # 10.

(** [ORDER BY transaction_date]. *)
Definition by_date {A} (date : A -> Z) (x y : A) : bool := date x <=? date y.

(** A window [LAG(date) OVER (PARTITION BY key ORDER BY date)] followed by
    [WHERE prev_date IS NOT NULL].  [window_intervals] is its effect on one
    partition; [make] builds the output row from a row and its
    [DATEDIFF('day', prev_date, date)]. *)
Definition window_intervals {A B} (date : A -> Z) (make : A -> Z -> B)
    (rows : list A) : list B :=
  (fun p : A * Z => make (fst p) (snd p))
  <$> Sql.intervals date (Sql.order_by (by_date date) rows).

Definition partitioned_intervals {A B K} `{EqDecision K}
    (key : A -> K) (date : A -> Z) (make : A -> Z -> B) (rows : list A) : list B :=
  Sql.group_by key rows ≫= fun part => window_intervals date make (snd part).

(** The HAVING clause over the [interval_days] of one group. *)
Definition periodicity_filter (K : Q) (gaps : list Z) : bool :=
  let xs := inject_Z <$> gaps in
  (2 <=? Sql.count gaps)
  && match Sql.avg xs with
     | Some a => Sql.between a 5 400 && Sql.stddev_lt xs (a * K)
     | None => false
     end.

Definition base_transactions (transactions : list Transaction) : list BaseRow :=
  omap (fun t =>
          match t_description t with
          | Some d =>
              if Sql.Qltb (t_amount t) 0 && Js.truthy d
              then Some {| b_norm_amount := Sql.round2_cents (t_amount t);
                           b_upper_desc := Sql.upper d;
                           b_description := d;
                           b_amount := t_amount t;
                           b_date := t_date t |}
              else None
          | None => None
          end)
       transactions.

(** [canonical_merchants], a table keyed by [norm_amount] (DISTINCT ON),
    read through its key: the [upper_desc] of the first row, in date order,
    among the rows of that amount. *)
Definition canonical_merchants (base : list BaseRow) (norm_amount : Z)
  : option string :=
  b_upper_desc <$>
    head (Sql.order_by (by_date b_date)
            (filter (fun r => b_norm_amount r = norm_amount) base)).

Section AutoDetect.

(** DuckDB's [jaro_winkler_similarity]. *)
Variable jaro_winkler_similarity : string -> string -> Q.
Variable clock : Clock.

(** The CASE expression of [grouped_transactions]; [c] is the joined
    [canonical_desc] (LEFT JOIN, so nullable). *)
Definition merchant_group_of (upper_desc : string) (c : option string) : string :=
  match c with
  | Some canonical_desc =>
      if Sql.Qltb (7 # 10) (jaro_winkler_similarity upper_desc canonical_desc)
      then canonical_desc
      else upper_desc
  | None => upper_desc
  end.

Definition grouped_transactions (base : list BaseRow) : list GroupedRow :=
  (fun b =>
     {| g_norm_amount := b_norm_amount b;
        g_description := b_description b;
        g_amount := b_amount b;
        g_date := b_date b;
        g_merchant_group :=
          merchant_group_of (b_upper_desc b)
            (canonical_merchants base (b_norm_amount b)) |})
  <$> base.

Definition group_key (g : GroupedRow) : string * Z :=
  (g_merchant_group g, g_norm_amount g).

(** [merchant_transactions] and [merchant_intervals]. *)
Definition interval_row (g : GroupedRow) (interval_days : Z) : IntervalRow :=
  {| i_merchant_group := g_merchant_group g;
     i_norm_amount := g_norm_amount g;
     i_merchant := g_description g;
     i_amount := g_amount g;
     i_date := g_date g;
     i_interval_days := interval_days |}.

Definition merchant_intervals (grouped : list GroupedRow) : list IntervalRow :=
  partitioned_intervals group_key g_date interval_row grouped.

Definition interval_key (i : IntervalRow) : string * Z :=
  (i_merchant_group i, i_norm_amount i).

(** [ytd_spending], read through its key. *)
Definition ytd_spending (grouped : list GroupedRow) (k : string * Z) : option Q :=
  match filter (fun g => group_key g = k /\ year_start clock <= g_date g) grouped with
  | [] => None
  | rows => Some (Sql.sum ((fun g => Qabs (g_amount g)) <$> rows))
  end.

(** The SELECT list of [merchant_stats] over the rows of one group. *)
Definition stats_of_group (grouped : list GroupedRow)
    (k : string * Z) (rows : list IntervalRow) : option StatRow :=
  avg_amount ← Sql.avg ((fun i => Qabs (i_amount i)) <$> rows);
  avg_interval ← Sql.avg ((fun i => inject_Z (i_interval_days i)) <$> rows);
  last ← Sql.max_list (i_date <$> rows);
  first ← Sql.min_list (i_date <$> rows);
  Some {| r_merchant := i_merchant <$> Sql.first (first_merchant clock k) rows;
          r_merchant_key := Some (fst k);
          r_avg_amount := avg_amount;
          r_occurrence_count := Sql.count rows + 1;
          r_avg_interval := avg_interval;
          r_last_charge := last;
          r_first_charge := first;
          r_ytd_cost := Sql.coalesce (ytd_spending grouped k) 0%Q;
          r_days_since_last := current_date clock - last |}.

Definition merchant_stats (K : Q) (grouped : list GroupedRow) : list StatRow :=
  omap (fun part : (string * Z) * list IntervalRow =>
          if periodicity_filter K (i_interval_days <$> snd part)
          then stats_of_group grouped (fst part) (snd part)
          else None)
       (Sql.group_by interval_key (merchant_intervals grouped)).

(** [ORDER BY avg_amount * (365.0 / avg_interval) DESC]. *)
Definition by_annual_desc (x y : StatRow) : bool :=
  Qle_bool (r_avg_amount y * (365 / r_avg_interval y))
           (r_avg_amount x * (365 / r_avg_interval x)).

Definition SUBSCRIPTION_SQL_with (K : Q) (transactions : list Transaction)
  : list StatRow :=
  Sql.order_by by_annual_desc
    (merchant_stats K (grouped_transactions (base_transactions transactions))).

Definition SUBSCRIPTION_SQL : list Transaction -> list StatRow :=
  SUBSCRIPTION_SQL_with intervalConsistencyTolerance.

End AutoDetect.

(** ** The tagged query of the manual path, one definition per CTE *)

Record TaggedRow := mkTaggedRow {
  tg_merchant_key : option string;
  tg_merchant : option string;
  tg_amount : Q;
  tg_date : Z
}.

Record TaggedInterval := mkTaggedInterval {
  ti_merchant_key : option string;
  ti_merchant : option string;
  ti_amount : Q;
  ti_date : Z;
  ti_interval_days : Z
}.

Section ManualQuery.

Variable clock : Clock.
(** The tag spliced into the query; quotes are doubled by the caller and
    undone by the SQL parser, so the literal denotes [tag] itself. *)
Variable tag : string.

(** [WHERE amount < 0 AND list_contains(tags, tag)]. *)
Definition tagged_debit (t : Transaction) : bool :=
  Sql.Qltb (t_amount t) 0 && bool_decide (tag ∈ t_tags t).

Definition tagged_transactions (transactions : list Transaction) : list TaggedRow :=
  (fun t =>
     {| tg_merchant_key := Sql.upper <$> t_description t;
        tg_merchant := t_description t;
        tg_amount := Qabs (t_amount t);
        tg_date := t_date t |})
  <$> filter (fun t => tagged_debit t) transactions.

(** [with_intervals]: the window of [tagged_transactions], partitioned by
    [UPPER(description)], and the rows of it that have a previous date. *)
Definition tagged_interval (r : TaggedRow) (interval_days : Z) : TaggedInterval :=
  {| ti_merchant_key := tg_merchant_key r;
     ti_merchant := tg_merchant r;
     ti_amount := tg_amount r;
     ti_date := tg_date r;
     ti_interval_days := interval_days |}.

Definition with_intervals (tagged : list TaggedRow) : list TaggedInterval :=
  partitioned_intervals tg_merchant_key tg_date tagged_interval tagged.

(** The [ytd] CTE read through the join condition
    [g.merchant_key = y.merchant_key]; a NULL key joins nothing. *)
Definition ytd (transactions : list Transaction) (k : option string) : option Q :=
  match k with
  | Some key =>
      match filter (fun t => tagged_debit t /\ year_start clock <= t_date t
                             /\ Sql.upper <$> t_description t = Some key)
                   transactions with
      | [] => None
      | rows => Some (Sql.sum ((fun t => Qabs (t_amount t)) <$> rows))
      end
  | None => None
  end.

(** The [grouped] CTE and the final SELECT over the rows of one group. *)
Definition manual_row_of_group (transactions : list Transaction)
    (k : option string) (rows : list TaggedInterval) : option StatRow :=
  avg_amount ← Sql.avg (ti_amount <$> rows);
  last ← Sql.max_list (ti_date <$> rows);
  first ← Sql.min_list (ti_date <$> rows);
  Some {| r_merchant := Sql.first (first_tagged_merchant clock k) rows ≫= ti_merchant;
          r_merchant_key := k;
          r_avg_amount := avg_amount;
          r_occurrence_count := Sql.count rows + 1;
          r_avg_interval :=
            Sql.coalesce
              (Sql.avg ((fun i => inject_Z (ti_interval_days i)) <$> rows)) 30%Q;
          r_last_charge := last;
          r_first_charge := first;
          r_ytd_cost := Sql.coalesce (ytd transactions k) 0%Q;
          r_days_since_last := current_date clock - last |}.

(** [ORDER BY g.avg_amount DESC]. *)
Definition by_amount_desc (x y : StatRow) : bool :=
  Qle_bool (r_avg_amount y) (r_avg_amount x).

Definition TAGGED_SQL (transactions : list Transaction) : list StatRow :=
  Sql.order_by by_amount_desc
    (omap (fun part : option string * list TaggedInterval =>
             manual_row_of_group transactions (fst part) (snd part))
          (Sql.group_by ti_merchant_key
             (with_intervals (tagged_transactions transactions)))).

End ManualQuery.

(** ** The two [rows.map] callbacks of [detectSubscriptions] *)

Definition autoDetected_of_row (row : StatRow) : Subscription :=
  let merchant := Js.str_or (r_merchant row) "" in
  let merchant_key := Js.str_or (r_merchant_key row) (Js.toUpperCase merchant) in
  let avg_amount := r_avg_amount row in
  let avg_interval := r_avg_interval row in
  let intervalDays := Js.round avg_interval in
  let days_since_last := r_days_since_last row in
  {| merchant := merchant;
     merchant_key := merchant_key;
     amount := Js.round_cents avg_amount;
     frequency := frequency_of intervalDays;
     interval_days := intervalDays;
     occurrence_count := r_occurrence_count row;
     annual_cost := annual_cost_of avg_amount intervalDays;
     ytd_cost := Js.round_cents (r_ytd_cost row);
     last_charge := r_last_charge row;
     first_charge := r_first_charge row;
     days_since_last := days_since_last;
     is_stale := staleThreshold intervalDays <? days_since_last;
     is_manual := false |}.

Definition manualSubs_of_row (row : StatRow) : Subscription :=
  let merchant := Js.str_or (r_merchant row) "" in
  let merchant_key := Js.str_or (r_merchant_key row) (Js.toUpperCase merchant) in
  let avg_amount := r_avg_amount row in
  let avg_interval := Js.num_or (r_avg_interval row) 30 in
  let intervalDays := Js.round avg_interval in
  let days_since_last := r_days_since_last row in
  {| merchant := merchant;
     merchant_key := merchant_key;
     amount := Js.round_cents avg_amount;
     frequency := frequency_of intervalDays;
     interval_days := intervalDays;
     occurrence_count := r_occurrence_count row;
     annual_cost := annual_cost_of avg_amount intervalDays;
     ytd_cost := Js.round_cents (r_ytd_cost row);
     last_charge := r_last_charge row;
     first_charge := r_first_charge row;
     days_since_last := days_since_last;
     is_stale := staleThreshold intervalDays <? days_since_last;
     is_manual := true |}.

(** ** The merge at the end of [detectSubscriptions] *)

(** [`${s.amount.toFixed(2)}|${s.merchant.toUpperCase().split(' ')[0]}`]. *)
Definition amountFirstWord (s : Subscription) : string :=
  Js.toFixed2 (amount s) +:+ "|" +:+ Js.split_space_head (Js.toUpperCase (merchant s)).

Definition with_is_manual (s : Subscription) (b : bool) : Subscription :=
  {| merchant := merchant s;
     merchant_key := merchant_key s;
     amount := amount s;
     frequency := frequency s;
     interval_days := interval_days s;
     occurrence_count := occurrence_count s;
     annual_cost := annual_cost s;
     ytd_cost := ytd_cost s;
     last_charge := last_charge s;
     first_charge := first_charge s;
     days_since_last := days_since_last s;
     is_stale := is_stale s;
     is_manual := b |}.

(** The flag computed for a detected subscription [s] against the two
    sets built from [manualSubs]. *)
Definition isAlsoManual (manualSubs : list Subscription) (s : Subscription) : bool :=
  let manualKeys : gset string := list_to_set (merchant_key <$> manualSubs) in
  let manualAmountFirstWord : gset string :=
    list_to_set (amountFirstWord <$> manualSubs) in
  bool_decide (merchant_key s ∈ manualKeys)
  || bool_decide (amountFirstWord s ∈ manualAmountFirstWord).

Definition markedAutoDetected (autoDetected manualSubs : list Subscription)
  : list Subscription :=
  (fun s => with_is_manual s (isAlsoManual manualSubs s)) <$> autoDetected.

Definition uniqueManual (autoDetected manualSubs : list Subscription)
  : list Subscription :=
  let autoKeys : gset string := list_to_set (merchant_key <$> autoDetected) in
  let autoAmountFirstWord : gset string :=
    list_to_set (amountFirstWord <$> autoDetected) in
  filter (fun s =>
            (if bool_decide (merchant_key s ∈ autoKeys) then false
             else if bool_decide (amountFirstWord s ∈ autoAmountFirstWord) then false
             else true) = true)
         manualSubs.

Definition merge (autoDetected manualSubs : list Subscription) : list Subscription :=
  markedAutoDetected autoDetected manualSubs ++ uniqueManual autoDetected manualSubs.

End Queries.

(** ** Component state, the SDK and [detectSubscriptions] *)

(** The outcome of an awaited SDK call: a value, or a thrown error. *)
Inductive Try (A : Type) : Type :=
| Ok (a : A)
| Threw (message : string).
Arguments Ok {A} a.
Arguments Threw {A} message.

#[export] Instance Try_ret : MRet Try := fun A a => Ok a.
#[export] Instance Try_bind : MBind Try := fun A B f m =>
  match m with
  | Ok a => f a
  | Threw e => Threw e
  end.

Section Component.

Context {unicode : Js.Unicode} {collation : Sql.Collation}.

(** The store behind the SDK: the transactions and the plugin's own table
    of hidden merchants ([merchant_key], [hidden_at]). *)
Record Db := mkDb {
  transactions : list Transaction;
  sys_plugin_subscriptions : list (string * option Z)
}.

(** What the SDK does during one run: for each of the two [sdk.query]
    calls, the snapshot it is answered from or the error it throws. *)
Record Sdk := mkSdk {
  sdk_clock : Clock;
  sdk_auto_query : Try Db;
  sdk_tagged_query : Try Db
}.

(** The [$state] variables of the component that the engine or the
    visible-subset computation touch, and the toasts shown so far. *)
Record State := mkState {
  subscriptions : list Subscription;
  hiddenMerchantKeys : gset string;
  isLoading : bool;
  showHidden : bool;
  searchQuery : string;
  subscriptionTag : string;
  toasts : list string
}.

Definition set_subscriptions (st : State) (v : list Subscription) : State :=
  mkState v (hiddenMerchantKeys st) (isLoading st) (showHidden st)
          (searchQuery st) (subscriptionTag st) (toasts st).

Definition set_hiddenMerchantKeys (st : State) (v : gset string) : State :=
  mkState (subscriptions st) v (isLoading st) (showHidden st)
          (searchQuery st) (subscriptionTag st) (toasts st).

Definition set_isLoading (st : State) (v : bool) : State :=
  mkState (subscriptions st) (hiddenMerchantKeys st) v (showHidden st)
          (searchQuery st) (subscriptionTag st) (toasts st).

Definition push_toast (st : State) (title : string) : State :=
  mkState (subscriptions st) (hiddenMerchantKeys st) (isLoading st) (showHidden st)
          (searchQuery st) (subscriptionTag st) (title :: toasts st).

Section Engine.

Variable jaro_winkler_similarity : string -> string -> Q.

(** [await sdk.query(sql)]. *)
Definition sdk_query (answer : Try Db) (sql : list Transaction -> list StatRow)
  : Try (list StatRow) :=
  db ← answer; mret (sql (transactions db)).

(** The body of the [try] block up to the value assigned to
    [subscriptions] by its last statement. *)
Definition detect_try (st : State) (sdk : Sdk) : Try (list Subscription) :=
  rows ← sdk_query (sdk_auto_query sdk)
           (SUBSCRIPTION_SQL jaro_winkler_similarity (sdk_clock sdk));
  let autoDetected := autoDetected_of_row <$> rows in
  let tagToUse := Js.trim (subscriptionTag st) in
  manualSubs ←
    (if Js.truthy tagToUse then
       taggedRows ← sdk_query (sdk_tagged_query sdk)
                      (TAGGED_SQL (sdk_clock sdk) tagToUse);
       mret (manualSubs_of_row <$> taggedRows)
     else mret []);
  mret (merge autoDetected manualSubs).

(** [detectSubscriptions]: [try] / [catch] / [finally]. *)
Definition detectSubscriptions (st : State) (sdk : Sdk) : State :=
  let st := set_isLoading st true in
  let st :=
    match detect_try st sdk with
    | Ok result => set_subscriptions st result
    | Threw _ => push_toast st "Failed to detect subscriptions"
    end in
  set_isLoading st false.

End Engine.

(** ** Visibility: the caller's side *)

(** [s.includes(q)]. *)
Definition includes (s q : string) : bool :=
  match String.index 0 q s with Some _ => true | None => false end.

Definition visibleSubscriptions (st : State) : list Subscription :=
  filter (fun s =>
            (let isHidden := bool_decide (merchant_key s ∈ hiddenMerchantKeys st) in
             if negb (showHidden st) && isHidden then false
             else if Js.truthy (searchQuery st) then
                    let query := Js.toLowerCase (searchQuery st) in
                    includes (Js.toLowerCase (merchant s)) query
                  else true) = true)
         (subscriptions st).

(** [hideSubscription]: the upsert into the plugin table, then the new
    set; nothing changes but a toast when [sdk.execute] throws. *)
Definition upsert_hidden (tbl : list (string * option Z)) (key : string) (now : Z)
  : list (string * option Z) :=
  if bool_decide (key ∈ fst <$> tbl)
  then (fun p => if bool_decide (fst p = key) then (key, Some now) else p) <$> tbl
  else tbl ++ [(key, Some now)].

Definition hideSubscription (st : State) (db : Db) (executed : Try Z)
    (sub : Subscription) : State * Db :=
  match executed with
  | Ok now =>
      (push_toast
         (set_hiddenMerchantKeys st (hiddenMerchantKeys st ∪ {[merchant_key sub]}))
         "Hidden",
       mkDb (transactions db)
            (upsert_hidden (sys_plugin_subscriptions db) (merchant_key sub) now))
  | Threw _ => (push_toast st "Failed to hide", db)
  end.

Definition unhideSubscription (st : State) (db : Db) (executed : Try unit)
    (sub : Subscription) : State * Db :=
  match executed with
  | Ok _ =>
      (push_toast
         (set_hiddenMerchantKeys st (hiddenMerchantKeys st ∖ {[merchant_key sub]}))
         "Restored",
       mkDb (transactions db)
            (filter (fun p => fst p <> merchant_key sub) (sys_plugin_subscriptions db)))
  | Threw _ => (push_toast st "Failed to restore", db)
  end.

(** ** Notions used to state the properties *)

(** The two candidate lists of a run that reached the merge. *)
Section RunLists.

Variable jaro_winkler_similarity : string -> string -> Q.

Inductive run_lists (st : State) (sdk : Sdk)
  : list Subscription -> list Subscription -> Prop :=
| run_with_tag db1 db2 :
    sdk_auto_query sdk = Ok db1 ->
    Js.truthy (Js.trim (subscriptionTag st)) = true ->
    sdk_tagged_query sdk = Ok db2 ->
    run_lists st sdk
      (autoDetected_of_row
         <$> SUBSCRIPTION_SQL jaro_winkler_similarity (sdk_clock sdk) (transactions db1))
      (manualSubs_of_row
         <$> TAGGED_SQL (sdk_clock sdk) (Js.trim (subscriptionTag st)) (transactions db2))
| run_without_tag db1 :
    sdk_auto_query sdk = Ok db1 ->
    Js.truthy (Js.trim (subscriptionTag st)) = false ->
    run_lists st sdk
      (autoDetected_of_row
         <$> SUBSCRIPTION_SQL jaro_winkler_similarity (sdk_clock sdk) (transactions db1))
      [].

End RunLists.

(** Identity matching of the reconciler: rule 1 (same [merchant_key]) and
    rule 2 (same amount-and-first-word fingerprint). *)
Definition matches_key (d m : Subscription) : Prop :=
  merchant_key d = merchant_key m.

Definition matches_fingerprint (d m : Subscription) : Prop :=
  amountFirstWord d = amountFirstWord m.

Definition matches (d m : Subscription) : Prop :=
  matches_key d m \/ matches_fingerprint d m.

(** [d'] is [d] up to the [is_manual] flag. *)
Definition same_statistics (d d' : Subscription) : Prop :=
  with_is_manual d (is_manual d') = d'.

(** Mean and sample standard deviation of the day gaps of one group. *)
Definition avg_interval_days (gaps : list Z) : Q :=
  (Sql.sum (inject_Z <$> gaps) / inject_Z (Sql.count gaps))%Q.

Definition variance_interval_days (gaps : list Z) : Q :=
  (Sql.sum ((fun x => (x - avg_interval_days gaps) * (x - avg_interval_days gaps))%Q
              <$> (inject_Z <$> gaps))
   / inject_Z (Sql.count gaps - 1))%Q.

Definition stddev_interval_days (gaps : list Z) : R :=
  sqrt (Q2R (variance_interval_days gaps)).

(** The six frequency labels. *)
Definition frequency_labels : list string :=
  ["weekly"; "bi-weekly"; "monthly"; "quarterly"; "semi-annual"; "annual"].

(** Day gaps between consecutive dates of an ascending timeline. *)
Fixpoint gaps_of (dates : list Z) : list Z :=
  match dates with
  | a :: rest =>
      match rest with
      | b :: _ => (b - a) :: gaps_of rest
      | [] => []
      end
  | [] => []
  end.

(** The tagged debit transactions whose uppercased description is [k]. *)
Definition tagged_members (tag : string) (txs : list Transaction) (k : option string)
  : list Transaction :=
  filter (fun t => Sql.upper <$> t_description t = k)
         (filter (fun t => tagged_debit tag t) txs).

(** Whether a character occurs in a string. *)
Fixpoint has_char (c : ascii) (s : string) : bool :=
  match s with
  | EmptyString => false
  | String a r => Ascii.eqb a c || has_char c r
  end.

(** The charges of one merchant group of the auto-detect query, and the
    day gaps of its timeline. *)
Definition group_members (jaro_winkler_similarity : string -> string -> Q)
    (txs : list Transaction) (k : string * Z) : list GroupedRow :=
  filter (fun g => group_key g = k)
         (grouped_transactions jaro_winkler_similarity (base_transactions txs)).

Definition group_gaps (jaro_winkler_similarity : string -> string -> Q)
    (txs : list Transaction) (k : string * Z) : list Z :=
  gaps_of (Sql.order_by Z.leb (g_date <$> group_members jaro_winkler_similarity txs k)).

(** The debit transactions that have a description: the rows that
    [base_transactions] keeps. *)
Definition described_debit (t : Transaction) : bool :=
  Sql.Qltb (t_amount t) 0
  && match t_description t with Some d => Js.truthy d | None => false end.

(** What the normalizer of the specification (section 4.1: "uppercased,
    whitespace-normalized") guarantees of its output, as far as spaces
    go: none at either end and no two in a row. *)
Fixpoint no_space_run (s : string) : bool :=
  match s with
  | String a r =>
      match r with
      | String b _ => negb (Ascii.eqb a " " && Ascii.eqb b " ") && no_space_run r
      | EmptyString => negb (Ascii.eqb a " ")
      end
  | EmptyString => true
  end.

Definition whitespace_normalized (s : string) : bool :=
  match s with
  | String a _ => negb (Ascii.eqb a " ") && no_space_run s
  | EmptyString => true
  end.

End Component.
(** * The rest of the component

    What surrounds [detectSubscriptions] in the same file: the derived
    values, the visibility store, the settings, the keyboard handler, the
    recent-charges query and the quoting of SQL literals. *)

Section Rest.

Context {unicode : Js.Unicode} {collation : Sql.Collation}.

(** ** Derived values *)

(** [Array.prototype.sort] with a consistent comparator: a stable sort;
    [compareFn a b] is the sign of the number the comparator returns. *)
Definition js_sort {A} (compareFn : A -> A -> comparison) (l : list A) : list A :=
  Sql.order_by (fun x y => match compareFn x y with Gt => false | _ => true end) l.

(** The sign of [b.annual_cost - a.annual_cost].  A non-finite cost is
    +Infinity (a positive mean amount times 365 / 0); Infinity - Infinity
    is NaN, which [sort] reads as 0. *)
Definition by_annual_cost_desc (a b : Subscription) : comparison :=
  match annual_cost b, annual_cost a with
  | Some y, Some x => (y ?= x)%Q
  | None, Some _ => Gt
  | Some _, None => Lt
  | None, None => Eq
  end.

Definition sortedSubscriptions (st : State) : list Subscription :=
  js_sort by_annual_cost_desc (visibleSubscriptions st).

Definition activeSubscriptions (st : State) : list Subscription :=
  filter (fun s =>
            negb (bool_decide (merchant_key s ∈ hiddenMerchantKeys st))
            && negb (is_stale s) = true)
         (subscriptions st).

Definition staleSubscriptions (st : State) : list Subscription :=
  filter (fun s =>
            negb (bool_decide (merchant_key s ∈ hiddenMerchantKeys st))
            && is_stale s = true)
         (subscriptions st).

Definition activeCount (st : State) : nat := length (activeSubscriptions st).
Definition staleCount (st : State) : nat := length (staleSubscriptions st).
Definition hiddenCount (st : State) : nat := size (hiddenMerchantKeys st).

(** [sum + s.annual_cost]: a non-finite operand makes the sum non-finite. *)
Definition js_add (a b : option Q) : option Q :=
  match a, b with
  | Some x, Some y => Some (x + y)%Q
  | _, _ => None
  end.

Definition totalAnnualCost (st : State) : option Q :=
  foldl (fun sum s => js_add sum (annual_cost s)) (Some 0%Q) (activeSubscriptions st).

Definition totalMonthlyCost (st : State) : option Q :=
  (fun total => total / 12)%Q <$> totalAnnualCost st.

Definition totalYTDCost (st : State) : Q :=
  foldl (fun sum s => sum + ytd_cost s)%Q 0%Q
        (filter (fun s => negb (bool_decide (merchant_key s ∈ hiddenMerchantKeys st)) = true)
                (subscriptions st)).

(** ** The view around the component state *)

Record RecentTransaction := mkRecentTransaction {
  rt_date : Z;
  rt_amount : Q
}.

Record View := mkView {
  component : State;
  cursorIndex : Z;
  (** [document.activeElement === searchInputEl] *)
  searchFocused : bool;
  showSettings : bool;
  recentTransactions : list RecentTransaction;
  isLoadingTransactions : bool
}.

Definition set_component (v : View) (st : State) : View :=
  mkView st (cursorIndex v) (searchFocused v) (showSettings v)
         (recentTransactions v) (isLoadingTransactions v).

Definition set_cursorIndex (v : View) (i : Z) : View :=
  mkView (component v) i (searchFocused v) (showSettings v)
         (recentTransactions v) (isLoadingTransactions v).

Definition set_searchFocused (v : View) (b : bool) : View :=
  mkView (component v) (cursorIndex v) b (showSettings v)
         (recentTransactions v) (isLoadingTransactions v).

Definition set_showSettings (v : View) (b : bool) : View :=
  mkView (component v) (cursorIndex v) (searchFocused v) b
         (recentTransactions v) (isLoadingTransactions v).

Definition set_searchQuery (st : State) (q : string) : State :=
  mkState (subscriptions st) (hiddenMerchantKeys st) (isLoading st) (showHidden st)
          q (subscriptionTag st) (toasts st).

Definition set_subscriptionTag (st : State) (tag : string) : State :=
  mkState (subscriptions st) (hiddenMerchantKeys st) (isLoading st) (showHidden st)
          (searchQuery st) tag (toasts st).

(** [sortedSubscriptions[cursorIndex] || null]. *)
Definition selectedSubscription (v : View) : option Subscription :=
  if cursorIndex v <? 0 then None
  else sortedSubscriptions (component v) !! Z.to_nat (cursorIndex v).

(** ** Keyboard navigation *)

(** What the handler asks of its surroundings. *)
Inductive Request : Type :=
| PreventDefault
| ViewTransactionsInQuery (merchant : string)
| HideSubscription (sub : Subscription)
| UnhideSubscription (sub : Subscription)
| FocusSearch
| BlurSearch
| FocusContainer.

Definition handleKeyDown (v : View) (key : string) : View * list Request :=
  if searchFocused v then
    if bool_decide (key = "Escape")
    then (set_searchFocused (set_component v (set_searchQuery (component v) "")) false,
          [BlurSearch; FocusContainer])
    else (v, [])
  else
    let sub := selectedSubscription v in
    if bool_decide (key = "j") || bool_decide (key = "ArrowDown") then
      (set_cursorIndex v
         (Z.min (cursorIndex v + 1)
                (Z.of_nat (length (sortedSubscriptions (component v))) - 1)),
       [PreventDefault])
    else if bool_decide (key = "k") || bool_decide (key = "ArrowUp") then
      (set_cursorIndex v (Z.max (cursorIndex v - 1) 0), [PreventDefault])
    else if bool_decide (key = "Enter") then
      match sub with
      | Some s => (v, [PreventDefault; ViewTransactionsInQuery (merchant s)])
      | None => (v, [])
      end
    else if bool_decide (key = "h") then
      match sub with
      | Some s =>
          (v, [PreventDefault;
               if bool_decide (merchant_key s ∈ hiddenMerchantKeys (component v))
               then UnhideSubscription s else HideSubscription s])
      | None => (v, [])
      end
    else if bool_decide (key = "/") then
      (set_searchFocused v true, [PreventDefault; FocusSearch])
    else if bool_decide (key = "Escape") then
      (set_component v (set_searchQuery (component v) ""), [])
    else (v, []).

(** The effect that keeps the cursor in bounds when the list changes. *)
Definition clamp_cursor (v : View) : View :=
  let n := Z.of_nat (length (sortedSubscriptions (component v))) in
  if n <=? cursorIndex v then set_cursorIndex v (Z.max 0 (n - 1)) else v.

(** What becomes of a request: [hideSubscription] and [unhideSubscription]
    run against the store, with the outcome of their [sdk.execute];
    [viewTransactionsInQuery], [preventDefault] and the focus calls leave
    the component and the store as they are. *)
Definition perform (hidden : Try Z) (restored : Try unit) (p : View * Db)
    (request : Request) : View * Db :=
  match request with
  | HideSubscription sub =>
      (set_component (fst p)
         (fst (hideSubscription (component (fst p)) (snd p) hidden sub)),
       snd (hideSubscription (component (fst p)) (snd p) hidden sub))
  | UnhideSubscription sub =>
      (set_component (fst p)
         (fst (unhideSubscription (component (fst p)) (snd p) restored sub)),
       snd (unhideSubscription (component (fst p)) (snd p) restored sub))
  | _ => p
  end.

(** One key press, to the end: the handler, what it called, and then the
    effect that keeps the cursor in bounds. *)
Definition key_press (v : View) (db : Db) (hidden : Try Z) (restored : Try unit)
    (key : string) : View * Db :=
  let after := foldl (perform hidden restored) (fst (handleKeyDown v key), db)
                     (snd (handleKeyDown v key)) in
  (clamp_cursor (fst after), snd after).

(** ** The visibility store, read back *)

(** [SELECT merchant_key FROM sys_plugin_subscriptions
     WHERE hidden_at IS NOT NULL]. *)
Definition HIDDEN_SQL (db : Db) : list string :=
  fst <$> filter (fun p : string * option Z => is_Some (snd p))
                 (sys_plugin_subscriptions db).

(** [loadHiddenMerchants]: [rows.map(r => r[0]).filter(Boolean)] into a
    set; a failing query leaves the set as it is, silently. *)
Definition loadHiddenMerchants (st : State) (answer : Try Db) : State :=
  match answer with
  | Ok db =>
      set_hiddenMerchantKeys st
        (list_to_set (filter (fun k => Js.truthy k = true) (HIDDEN_SQL db)))
  | Threw _ => st
  end.

(** ** Settings *)

(** What [sdk.settings.get] resolves to. *)
Inductive SettingValue : Type :=
| Unset
| Text (s : string)
| NotText.

(** [loadSettings]: [if (saved && typeof saved === "string")]. *)
Definition loadSettings (st : State) (answer : Try SettingValue) : State :=
  match answer with
  | Ok (Text saved) => if Js.truthy saved then set_subscriptionTag st saved else st
  | _ => st
  end.

Section Settings.

Variable jaro_winkler_similarity : string -> string -> Q.

(** [saveSettings], with the stored setting threaded through. *)
Definition saveSettings (v : View) (stored : SettingValue) (set_outcome : Try unit)
    (sdk : Sdk) : View * SettingValue :=
  match set_outcome with
  | Ok _ =>
      (set_component (set_showSettings v false)
         (detectSubscriptions jaro_winkler_similarity
            (push_toast (component v) "Settings saved") sdk),
       Text (subscriptionTag (component v)))
  | Threw _ =>
      (set_component v (push_toast (component v) "Failed to save settings"), stored)
  end.

(** The component as declared, before [onMount]. *)
Definition initial : State :=
  {| subscriptions := []; hiddenMerchantKeys := ∅; isLoading := true;
     showHidden := false; searchQuery := ""; subscriptionTag := "subscriptions";
     toasts := [] |}.

(** [onMount] after [ensureTable]: settings, hidden merchants, detection. *)
Definition onMount (settings : Try SettingValue) (hidden : Try Db) (sdk : Sdk) : State :=
  detectSubscriptions jaro_winkler_similarity
    (loadHiddenMerchants (loadSettings initial settings) hidden) sdk.

End Settings.

(** ** Recent charges *)

(** [SELECT transaction_date, amount FROM transactions
     WHERE description = merchant ORDER BY transaction_date DESC LIMIT 15]. *)
Definition RECENT_SQL (merchant : string) (txs : list Transaction)
  : list RecentTransaction :=
  (fun t => {| rt_date := t_date t; rt_amount := t_amount t |})
  <$> take 15
        (Sql.order_by (fun x y => t_date y <=? t_date x)
           (filter (fun t => t_description t = Some merchant) txs)).

(** [loadRecentTransactions]: the rows, or nothing when the query throws. *)
Definition loadRecentTransactions (v : View) (merchant : string) (answer : Try Db)
  : View :=
  mkView (component v) (cursorIndex v) (searchFocused v) (showSettings v)
         match answer with
         | Ok db => RECENT_SQL merchant (transactions db)
         | Threw _ => []
         end
         false.

(** ** Quoting of SQL literals *)

(** [s.replace(/'/g, "''")]. *)
Fixpoint sql_escape (s : string) : string :=
  match s with
  | EmptyString => EmptyString
  | String c r =>
      if Ascii.eqb c "'" then String "'" (String "'" (sql_escape r))
      else String c (sql_escape r)
  end.

(** How SQL reads a string literal after its opening quote: a doubled
    quote stands for one quote, a single quote closes the literal; the
    result is the value and the text after the closing quote. *)
Fixpoint read_literal (s : string) : option (string * string) :=
  match s with
  | EmptyString => None
  | String c r =>
      if Ascii.eqb c "'" then
        match r with
        | String c' r' =>
            if Ascii.eqb c' "'"
            then (fun p : string * string => (String "'" (fst p), snd p))
                   <$> read_literal r'
            else Some (EmptyString, r)
        | EmptyString => Some (EmptyString, EmptyString)
        end
      else (fun p : string * string => (String c (fst p), snd p)) <$> read_literal r
  end.

(** ** Notions used to state the further properties *)

(** [a >= b] on costs, a non-finite cost being +Infinity. *)
Definition cost_ge (a b : option Q) : Prop :=
  match a, b with
  | None, _ => True
  | Some _, None => False
  | Some x, Some y => (y <= x)%Q
  end.

(** The set that [loadHiddenMerchants] would read from the store. *)
Definition stored_hidden (db : Db) : gset string :=
  list_to_set (filter (fun k => Js.truthy k = true) (HIDDEN_SQL db)).

(** Whether a string starts with a quote. *)
Definition starts_with_quote (s : string) : bool :=
  match s with
  | String c _ => Ascii.eqb c "'"
  | EmptyString => false
  end.

(** A row without the column that [FIRST] fills. *)
Definition without_merchant (row : StatRow) : StatRow :=
  {| r_merchant := None;
     r_merchant_key := r_merchant_key row;
     r_avg_amount := r_avg_amount row;
     r_occurrence_count := r_occurrence_count row;
     r_avg_interval := r_avg_interval row;
     r_last_charge := r_last_charge row;
     r_first_charge := r_first_charge row;
     r_ytd_cost := r_ytd_cost row;
     r_days_since_last := r_days_since_last row |}.

(** What holds of the figures of a row that the two callbacks copy or
    round: amounts are magnitudes, the dates are in order and the days
    since the last charge are counted from it. *)
Definition row_is_consistent (clock : Clock) (row : StatRow) : Prop :=
  (0 <= r_avg_amount row)%Q /\ (0 <= r_ytd_cost row)%Q
  /\ 2 <= r_occurrence_count row
  /\ r_first_charge row <= r_last_charge row
  /\ r_days_since_last row = current_date clock - r_last_charge row.

End Rest.

(** * The revision without merchant keys ([SubscriptionsView.svelte]) *)

(** Leibniz equality on [Q], for GROUP BY on a value that the rows of one
    merchant share: the [ytd_total] joined to them. *)
#[export] Instance Q_eq_dec : EqDecision Q.
Proof. solve_decision. Defined.

Module V1.

Section Revision.

Context {unicode : Js.Unicode}.

Record Subscription := mkSubscription {
  merchant : string;
  amount : Q;
  frequency : string;
  interval_days : Z;
  occurrence_count : Z;
  annual_cost : option Q;
  ytd_cost : Q;
  last_charge : Z;
  first_charge : Z;
  days_since_last : Z;
  is_stale : bool
}.

(** A row of [merchant_transactions], before the window. *)
Record MerchantRow := mkMerchantRow {
  mt_merchant : string;
  mt_amount : Q;
  mt_date : Z
}.

Record IntervalRow := mkIntervalRow {
  mi_merchant : string;
  mi_amount : Q;
  mi_date : Z;
  mi_interval_days : Z
}.

(** A row of [merchant_stats] by column, [stddev_interval] left out. *)
Record StatRow := mkStatRow {
  r_merchant : string;
  r_avg_amount : Q;
  r_occurrence_count : Z;
  r_avg_interval : Q;
  r_last_charge : Z;
  r_first_charge : Z;
  r_ytd_cost : Q;
  r_days_since_last : Z
}.

(** [WHERE amount < 0 AND description IS NOT NULL AND description != ''] *)
Definition merchant_rows (transactions : list Transaction) : list MerchantRow :=
  omap (fun t =>
          match t_description t with
          | Some d =>
              if Sql.Qltb (t_amount t) 0 && negb (String.eqb d "")
              then Some {| mt_merchant := d; mt_amount := t_amount t;
                           mt_date := t_date t |}
              else None
          | None => None
          end)
       transactions.

Definition interval_row (m : MerchantRow) (interval_days : Z) : IntervalRow :=
  {| mi_merchant := mt_merchant m;
     mi_amount := mt_amount m;
     mi_date := mt_date m;
     mi_interval_days := interval_days |}.

(** [merchant_transactions] (LAG over PARTITION BY description) and
    [merchant_intervals]. *)
Definition merchant_intervals (transactions : list Transaction) : list IntervalRow :=
  partitioned_intervals mt_merchant mt_date interval_row (merchant_rows transactions).

Section Query.

Variable clock : Clock.
Variable transactions : list Transaction.

(** [ytd_spending], grouped by description and read through it. *)
Definition ytd_spending (merchant : string) : option Q :=
  match filter (fun t => Sql.Qltb (t_amount t) 0 = true
                         /\ year_start clock <= t_date t
                         /\ t_description t = Some merchant)
               transactions with
  | [] => None
  | rows => Some (Sql.sum ((fun t => Qabs (t_amount t)) <$> rows))
  end.

(** [GROUP BY mi.merchant, ys.ytd_total], after the LEFT JOIN. *)
Definition stat_key (i : IntervalRow) : string * option Q :=
  (mi_merchant i, ytd_spending (mi_merchant i)).

Definition stats_of_group (k : string * option Q) (rows : list IntervalRow)
  : option StatRow :=
  avg_amount ← Sql.avg ((fun i => Qabs (mi_amount i)) <$> rows);
  avg_interval ← Sql.avg ((fun i => inject_Z (mi_interval_days i)) <$> rows);
  last ← Sql.max_list (mi_date <$> rows);
  first ← Sql.min_list (mi_date <$> rows);
  Some {| r_merchant := fst k;
          r_avg_amount := avg_amount;
          r_occurrence_count := Sql.count rows + 1;
          r_avg_interval := avg_interval;
          r_last_charge := last;
          r_first_charge := first;
          r_ytd_cost := Sql.coalesce (snd k) 0%Q;
          r_days_since_last := current_date clock - last |}.

Definition merchant_stats : list StatRow :=
  omap (fun part : (string * option Q) * list IntervalRow =>
          if periodicity_filter intervalConsistencyTolerance_v1
               (mi_interval_days <$> snd part)
          then stats_of_group (fst part) (snd part)
          else None)
       (Sql.group_by stat_key (merchant_intervals transactions)).

(** [ORDER BY avg_amount * (365.0 / avg_interval) DESC]. *)
Definition by_annual_desc (x y : StatRow) : bool :=
  Qle_bool (r_avg_amount y * (365 / r_avg_interval y))
           (r_avg_amount x * (365 / r_avg_interval x)).

Definition SUBSCRIPTION_SQL : list StatRow :=
  Sql.order_by by_annual_desc merchant_stats.

End Query.

(** The [rows.map] callback of [detectSubscriptions]. *)
Definition subscription_of_row (row : StatRow) : Subscription :=
  let intervalDays := Js.round (r_avg_interval row) in
  {| merchant := r_merchant row;
     amount := Js.round_cents (r_avg_amount row);
     frequency := frequency_of intervalDays;
     interval_days := intervalDays;
     occurrence_count := r_occurrence_count row;
     annual_cost := annual_cost_of (r_avg_amount row) intervalDays;
     ytd_cost := Js.round_cents (r_ytd_cost row);
     last_charge := r_last_charge row;
     first_charge := r_first_charge row;
     days_since_last := r_days_since_last row;
     is_stale := staleThreshold intervalDays <? r_days_since_last row |}.

Record State := mkState {
  subscriptions : list Subscription;
  hiddenMerchants : gset string;
  isLoading : bool;
  showHidden : bool;
  searchQuery : string;
  toasts : list string
}.

(** [detectSubscriptions]: [try] / [catch] / [finally]; [answer] is what
    [sdk.query] is answered from, or the error it throws. *)
Definition detectSubscriptions (st : State) (clock : Clock) (answer : Try Db)
  : State :=
  match answer with
  | Ok db =>
      mkState (subscription_of_row <$> SUBSCRIPTION_SQL clock (transactions db))
              (hiddenMerchants st) false (showHidden st) (searchQuery st) (toasts st)
  | Threw _ =>
      mkState (subscriptions st) (hiddenMerchants st) false (showHidden st)
              (searchQuery st) ("Failed to detect subscriptions" :: toasts st)
  end.

Definition visibleSubscriptions (st : State) : list Subscription :=
  filter (fun s =>
            (let isHidden := bool_decide (merchant s ∈ hiddenMerchants st) in
             if negb (showHidden st) && isHidden then false
             else if Js.truthy (searchQuery st) then
                    let query := Js.toLowerCase (searchQuery st) in
                    includes (Js.toLowerCase (merchant s)) query
                  else true) = true)
         (subscriptions st).

(** [hideSubscription(merchant)], on the component. *)
Definition hideSubscription (st : State) (executed : Try Z) (merchant : string)
  : State :=
  match executed with
  | Ok _ =>
      mkState (subscriptions st) (hiddenMerchants st ∪ {[merchant]}) (isLoading st)
              (showHidden st) (searchQuery st) ("Hidden" :: toasts st)
  | Threw _ =>
      mkState (subscriptions st) (hiddenMerchants st) (isLoading st)
              (showHidden st) (searchQuery st) ("Failed to hide" :: toasts st)
  end.

End Revision.

End V1.

(** * Sample data

    Stand-ins for what the definitions take from their context, used in
    the worked examples: the string functions restricted to ASCII, where
    they agree with the runtimes on strings of ASCII characters. *)
#[export] Instance ascii_unicode : Js.Unicode :=
  {| Js.toUpperCase := Js.toUpperCase_ascii;
     Js.toLowerCase := Js.toLowerCase_ascii;
     Js.trim := Js.trim_ascii;
     Js.trim_empty := eq_refl |}.

#[export] Instance ascii_collation : Sql.Collation :=
  {| Sql.upper := Js.toUpperCase_ascii |}.

(** An evaluation on day [today] of a year that began on day [jan1], in
    which [FIRST] reads, in every group, the earliest of the rows it
    aggregates. *)
Definition clock_on (today jan1 : Z) : Clock :=
  {| current_date := today; year_start := jan1;
     first_merchant := fun _ => 0%nat;
     first_tagged_merchant := fun _ => 0%nat |}.

(** A stand-in for the similarity function in examples: 1 when the first
    seven characters agree, 0 otherwise. *)
Definition prefix_similarity (a b : string) : Q :=
  if String.eqb (substring 0 7 a) (substring 0 7 b) then 1%Q else 0%Q.

Definition charge (d : string) (a : Q) (day : Z) (tags : list string) : Transaction :=
  {| t_description := Some d; t_amount := a; t_date := day; t_tags := tags |}.

(** Netflix billed under two spellings and one Spotify charge, all at
    15.99 and all tagged. *)
Definition streaming : list Transaction :=
  [ charge "Netflix.com Los Gatos CA" (- (1599 # 100)) 0 ["subscriptions"];
    charge "NETFLIX.COM NETFLIX.COM CA" (- (1599 # 100)) 30 ["subscriptions"];
    charge "Spotify USA" (- (1599 # 100)) 31 ["subscriptions"];
    charge "Netflix.com Los Gatos CA" (- (1599 # 100)) 61 ["subscriptions"];
    charge "Netflix.com Los Gatos CA" (- (1599 # 100)) 89 ["subscriptions"] ].

Definition idle : State :=
  {| subscriptions := []; hiddenMerchantKeys := ∅; isLoading := false;
     showHidden := false; searchQuery := ""; subscriptionTag := "subscriptions";
     toasts := [] |}.

Definition sdk_on (today jan1 : Z) (txs : list Transaction) : Sdk :=
  {| sdk_clock := clock_on today jan1;
     sdk_auto_query := Ok (mkDb txs []);
     sdk_tagged_query := Ok (mkDb txs []) |}.

(** The one subscription found in [streaming] on day 150. *)
Definition netflix_on_day_150 : Subscription :=
  {| merchant := "NETFLIX.COM NETFLIX.COM CA";
     merchant_key := "NETFLIX.COM LOS GATOS CA";
     amount := 1599 # 100;
     frequency := "monthly";
     interval_days := 30;
     occurrence_count := 4;
     annual_cost := Some (19455 # 100);
     ytd_cost := 3198 # 100;
     last_charge := 89;
     first_charge := 30;
     days_since_last := 61;
     is_stale := false;
     is_manual := true |}.

(** An SDK whose first query throws. *)
Definition sdk_store_down : Sdk :=
  {| sdk_clock := clock_on 150 60;
     sdk_auto_query := Threw "Catalog Error: Table with name transactions does not exist";
     sdk_tagged_query := Ok (mkDb streaming []) |}.

(** The component after one successful run over [streaming]. *)
Definition after_first_run : State :=
  {| subscriptions := [netflix_on_day_150]; hiddenMerchantKeys := ∅;
     isLoading := false; showHidden := false; searchQuery := "";
     subscriptionTag := "subscriptions"; toasts := [] |}.

(** Four tagged charges of one merchant, three of them on the same day. *)
Definition same_day_charges : list Transaction :=
  [ charge "Corner Cafe" (- (450 # 100)) 0 ["subscriptions"];
    charge "Corner Cafe" (- (450 # 100)) 0 ["subscriptions"];
    charge "Corner Cafe" (- (450 # 100)) 0 ["subscriptions"];
    charge "Corner Cafe" (- (450 # 100)) 1 ["subscriptions"] ].

Definition corner_cafe : Subscription :=
  {| merchant := "Corner Cafe";
     merchant_key := "CORNER CAFE";
     amount := 450 # 100;
     frequency := "weekly";
     interval_days := 0;
     occurrence_count := 4;
     annual_cost := None;
     ytd_cost := 1800 # 100;
     last_charge := 1;
     first_charge := 0;
     days_since_last := 9;
     is_stale := false;
     is_manual := true |}.

(** The second spelling of Netflix in [streaming], after clustering. *)
Definition netflix_variant_row : GroupedRow :=
  {| g_norm_amount := -1599;
     g_description := "NETFLIX.COM NETFLIX.COM CA";
     g_amount := - (1599 # 100);
     g_date := 30;
     g_merchant_group := "NETFLIX.COM LOS GATOS CA" |}.

(** Two tagged charges of one merchant, a year apart. *)
Definition yearly_pair : list Transaction :=
  [ charge "Domain Renewal" (- (1200 # 100)) 0 ["subscriptions"];
    charge "Domain Renewal" (- (1200 # 100)) 365 ["subscriptions"] ].

Definition domain_renewal : Subscription :=
  {| merchant := "Domain Renewal";
     merchant_key := "DOMAIN RENEWAL";
     amount := 1200 # 100;
     frequency := "annual";
     interval_days := 365;
     occurrence_count := 2;
     annual_cost := Some (1200 # 100);
     ytd_cost := 1200 # 100;
     last_charge := 365;
     first_charge := 365;
     days_since_last := 35;
     is_stale := false;
     is_manual := true |}.

(** One merchant whose price went from 15.99 to 17.99, every charge tagged. *)
Definition price_change : list Transaction :=
  [ charge "NETFLIX" (- (1599 # 100)) 0 ["subscriptions"];
    charge "NETFLIX" (- (1599 # 100)) 30 ["subscriptions"];
    charge "NETFLIX" (- (1599 # 100)) 60 ["subscriptions"];
    charge "NETFLIX" (- (1799 # 100)) 90 ["subscriptions"];
    charge "NETFLIX" (- (1799 # 100)) 120 ["subscriptions"];
    charge "NETFLIX" (- (1799 # 100)) 150 ["subscriptions"] ].

(** The example of the specification: ACME detected, ACME CORP tagged,
    both at 9.99. *)
Definition acme_detected : Subscription :=
  {| merchant := "ACME"; merchant_key := "ACME"; amount := 999 # 100;
     frequency := "monthly"; interval_days := 30; occurrence_count := 6;
     annual_cost := Some (12155 # 100); ytd_cost := 2997 # 100;
     last_charge := 150; first_charge := 30; days_since_last := 10;
     is_stale := false; is_manual := false |}.

Definition acme_tagged : Subscription :=
  {| merchant := "ACME CORP"; merchant_key := "ACME CORP"; amount := 999 # 100;
     frequency := "bi-weekly"; interval_days := 14; occurrence_count := 2;
     annual_cost := Some (26045 # 100); ytd_cost := 1998 # 100;
     last_charge := 150; first_charge := 150; days_since_last := 10;
     is_stale := false; is_manual := true |}.

(** What the manual path makes of [price_change] on day 160. *)
Definition netflix_tagged : Subscription :=
  {| merchant := "NETFLIX"; merchant_key := "NETFLIX"; amount := 1719 # 100;
     frequency := "monthly"; interval_days := 30; occurrence_count := 6;
     annual_cost := Some (20915 # 100); ytd_cost := 10194 # 100;
     last_charge := 150; first_charge := 30; days_since_last := 10;
     is_stale := false; is_manual := true |}.

(** ** Sample views *)

Definition view_of (st : State) : View :=
  {| component := st; cursorIndex := 0; searchFocused := false;
     showSettings := false; recentTransactions := []; isLoadingTransactions := false |}.

(** A store with only the transactions of [streaming]. *)
Definition streaming_db : Db := mkDb streaming [].

(** What the manual path makes of tagged charges without a description. *)
Definition untitled : Subscription :=
  {| merchant := ""; merchant_key := ""; amount := 500 # 100;
     frequency := "monthly"; interval_days := 30; occurrence_count := 2;
     annual_cost := Some (6083 # 100); ytd_cost := 1000 # 100;
     last_charge := 30; first_charge := 30; days_since_last := 5;
     is_stale := false; is_manual := true |}.

(** The settings dialog open on a component whose tag was edited. *)
Definition editing (tag : string) : View :=
  {| component := set_subscriptionTag after_first_run tag; cursorIndex := 0;
     searchFocused := false; showSettings := true; recentTransactions := [];
     isLoadingTransactions := false |}.


(** ** Sample rows *)

(** The row of the auto-detect query over [streaming] on day 150. *)
Definition streaming_row : StatRow :=
  {| r_merchant := Some "NETFLIX.COM NETFLIX.COM CA";
     r_merchant_key := Some "NETFLIX.COM LOS GATOS CA";
     r_avg_amount := 47970000 # 3000000;
     r_occurrence_count := 4;
     r_avg_interval := 89 # 3;
     r_last_charge := 89;
     r_first_charge := 30;
     r_ytd_cost := 319800 # 10000;
     r_days_since_last := 61 |}.

(** The row of the tagged query over [price_change] on day 160. *)
Definition price_change_row : StatRow :=
  {| r_merchant := Some "NETFLIX";
     r_merchant_key := Some "NETFLIX";
     r_avg_amount := 859500000000 # 50000000000;
     r_occurrence_count := 6;
     r_avg_interval := 150 # 5;
     r_last_charge := 150;
     r_first_charge := 30;
     r_ytd_cost := 101940000000000 # 1000000000000;
     r_days_since_last := 10 |}.

(** What the revision without merchant keys makes of [price_change] on
    day 160: one subscription for both prices. *)
Definition netflix_v1 : V1.Subscription :=
  {| V1.merchant := "NETFLIX"; V1.amount := 1719 # 100;
     V1.frequency := "monthly"; V1.interval_days := 30; V1.occurrence_count := 6;
     V1.annual_cost := Some (20915 # 100); V1.ytd_cost := 10194 # 100;
     V1.last_charge := 150; V1.first_charge := 30; V1.days_since_last := 10;
     V1.is_stale := false |}.

Definition idle_v1 : V1.State :=
  {| V1.subscriptions := []; V1.hiddenMerchants := ∅; V1.isLoading := true;
     V1.showHidden := false; V1.searchQuery := ""; V1.toasts := [] |}.

(** A charge billed with two spaces inside its description and one at
    the end, and a later one billed without them. *)
Definition spaced : list Transaction :=
  [ charge "Netflix  Inc " (- (1599 # 100)) 0 [];
    charge "NETFLIX INC" (- (1599 # 100)) 30 [] ].

(** An evaluation like [clock_on], in which [FIRST] reads the second of
    the rows of every group. *)
Definition clock_reading_later (today jan1 : Z) : Clock :=
  {| current_date := today; year_start := jan1;
     first_merchant := fun _ => 1%nat;
     first_tagged_merchant := fun _ => 1%nat |}.

(** [streaming] with a refund. *)
Definition streaming_with_refund : list Transaction :=
  streaming ++ [ charge "Netflix.com Los Gatos CA" (1599 # 100) 62 ["subscriptions"] ].
(** * Properties *)

(** ** Arithmetic of the primitives *)

Lemma Qltb_lt (a b : Q) : Sql.Qltb a b = true <-> (a < b)%Q.
Proof.
  unfold Sql.Qltb. rewrite negb_true_iff. split.
  - intros H. apply Qnot_le_lt. intros Hle.
    apply Qle_bool_iff in Hle. congruence.
  - intros H. destruct (Qle_bool b a) eqn:E; [|reflexivity].
    apply Qle_bool_iff in E. exfalso. exact (Qlt_not_le _ _ H E).
Qed.

Lemma Qltb_ge (a b : Q) : Sql.Qltb a b = false <-> (b <= a)%Q.
Proof.
  unfold Sql.Qltb. rewrite negb_false_iff. apply Qle_bool_iff.
Qed.

Lemma round_lower (x : Q) (n : Z) : (inject_Z n <= x)%Q -> n <= Js.round x.
Proof.
  intros H. unfold Js.round.
  rewrite <- (Qfloor_Z n). apply Qfloor_resp_le.
  lra.
Qed.

Lemma round_upper (x : Q) (n : Z) : (x <= inject_Z n)%Q -> Js.round x <= n.
Proof.
  intros H. unfold Js.round.
  assert (Hlt : (x + (1 # 2) < inject_Z (n + 1))%Q).
  { rewrite inject_Z_plus. change (inject_Z 1) with 1%Q. lra. }
  pose proof (Qfloor_le (x + (1 # 2))) as Hfl.
  assert (Hz : (inject_Z (Qfloor (x + (1 # 2))) < inject_Z (n + 1))%Q)
    by (eapply Qle_lt_trans; eassumption).
  rewrite <- Zlt_Qlt in Hz. lia.
Qed.

Lemma div_Some_nonzero (a : Q) (n : Z) : n <> 0 -> Js.div a (inject_Z n) = Some (a / inject_Z n)%Q.
Proof.
  intros Hn. unfold Js.div.
  destruct (Qeq_bool (inject_Z n) 0) eqn:E; [|reflexivity].
  apply Qeq_bool_iff in E. exfalso. apply Hn.
  unfold Qeq, inject_Z in E. simpl in E. lia.
Qed.

Lemma div_zero (a : Q) : Js.div a (inject_Z 0) = None.
Proof. reflexivity. Qed.

(** ** The classifier on one row *)

Section Classifier.

Context {unicode : Js.Unicode} {collation : Sql.Collation}.

Lemma frequency_of_cases (d : Z) :
  (d <= 8 /\ frequency_of d = "weekly")
  \/ (8 < d <= 16 /\ frequency_of d = "bi-weekly")
  \/ (16 < d <= 35 /\ frequency_of d = "monthly")
  \/ (35 < d <= 100 /\ frequency_of d = "quarterly")
  \/ (100 < d <= 200 /\ frequency_of d = "semi-annual")
  \/ (200 < d /\ frequency_of d = "annual").
Proof.
  unfold frequency_of.
  destruct (Z.leb_spec d 8); [left; split; [lia|reflexivity]|right].
  destruct (Z.leb_spec d 16); [left; split; [lia|reflexivity]|right].
  destruct (Z.leb_spec d 35); [left; split; [lia|reflexivity]|right].
  destruct (Z.leb_spec d 100); [left; split; [lia|reflexivity]|right].
  destruct (Z.leb_spec d 200); [left; split; [lia|reflexivity]|right].
  split; [lia|reflexivity].
Qed.

Lemma frequency_of_label (d : Z) : frequency_of d ∈ frequency_labels.
Proof.
  unfold frequency_labels.
  destruct (frequency_of_cases d) as [[_ ->]|[[_ ->]|[[_ ->]|[[_ ->]|[[_ ->]|[_ ->]]]]]];
    rewrite !elem_of_cons; tauto.
Qed.

Lemma unknown_not_label : "unknown" ∉ frequency_labels.
Proof.
  unfold frequency_labels. rewrite !elem_of_cons, elem_of_nil.
  intuition discriminate.
Qed.

(** What both callbacks establish, and what [with_is_manual] keeps. *)
Definition classified (s : Subscription) : Prop :=
  frequency s = frequency_of (interval_days s)
  /\ is_stale s = (staleThreshold (interval_days s) <? days_since_last s).

Lemma autoDetected_of_row_classified row : classified (autoDetected_of_row row).
Proof. split; reflexivity. Qed.

Lemma manualSubs_of_row_classified row : classified (manualSubs_of_row row).
Proof. split; reflexivity. Qed.

Lemma with_is_manual_classified s b : classified s -> classified (with_is_manual s b).
Proof. intros H. exact H. Qed.

Lemma manualSubs_of_row_is_manual row : is_manual (manualSubs_of_row row) = true.
Proof. reflexivity. Qed.

End Classifier.

(** ** ORDER BY is a stable rearrangement *)

Section OrderBy.

Context {A : Type} (leb : A -> A -> bool).

Lemma insert_by_Permutation x l : Sql.insert_by leb x l ≡ₚ x :: l.
Proof.
  induction l as [|y l IH]; simpl; [reflexivity|].
  destruct (leb x y); [reflexivity|].
  rewrite IH. apply Permutation_swap.
Qed.

Lemma order_by_Permutation l : Sql.order_by leb l ≡ₚ l.
Proof.
  induction l as [|x l IH]; simpl; [reflexivity|].
  rewrite insert_by_Permutation, IH. reflexivity.
Qed.

Lemma elem_of_order_by x l : x ∈ Sql.order_by leb l <-> x ∈ l.
Proof. rewrite order_by_Permutation. reflexivity. Qed.

Lemma length_order_by l : length (Sql.order_by leb l) = length l.
Proof. rewrite order_by_Permutation. reflexivity. Qed.

Lemma order_by_nil_inv l : Sql.order_by leb l = [] -> l = [].
Proof.
  intros H. apply Permutation_nil_r. rewrite <- H.
  symmetry. apply order_by_Permutation.
Qed.

End OrderBy.

(** The first row in date order is a row of least date. *)
Lemma head_order_by_date {A} (date : A -> Z) (l : list A) (r : A) :
  head (Sql.order_by (by_date date) l) = Some r ->
  r ∈ l /\ forall x, x ∈ l -> date r <= date x.
Proof.
  revert r. induction l as [|x l IH]; intros r; simpl; [discriminate|].
  destruct (Sql.order_by (by_date date) l) as [|y s] eqn:E; simpl.
  - intros [= <-]. apply order_by_nil_inv in E. subst l.
    split; [left|]. intros z Hz. apply list_elem_of_singleton in Hz. subst. lia.
  - destruct (IH y eq_refl) as [Hy Hmin].
    unfold by_date at 1. destruct (Z.leb_spec (date x) (date y)); simpl; intros [= <-].
    + split; [left|]. intros z Hz. apply elem_of_cons in Hz as [->|Hz]; [lia|].
      specialize (Hmin z Hz). lia.
    + split; [right; exact Hy|]. intros z Hz.
      apply elem_of_cons in Hz as [->|Hz]; [lia|]. auto.
Qed.

(** ** Shape of the merged list *)

Section MergedList.

Context {unicode : Js.Unicode} {collation : Sql.Collation}.

Lemma length_markedAutoDetected a m :
  length (markedAutoDetected a m) = length a.
Proof. unfold markedAutoDetected. apply length_fmap. Qed.

Lemma has_key_iff (k : string) (l : list Subscription) :
  k ∈ (list_to_set (merchant_key <$> l) : gset string)
  <-> exists m, m ∈ l /\ k = merchant_key m.
Proof.
  rewrite elem_of_list_to_set, list_elem_of_fmap. split; intros [m [? ?]]; eauto.
Qed.

Lemma has_fingerprint_iff (k : string) (l : list Subscription) :
  k ∈ (list_to_set (amountFirstWord <$> l) : gset string)
  <-> exists m, m ∈ l /\ k = amountFirstWord m.
Proof.
  rewrite elem_of_list_to_set, list_elem_of_fmap. split; intros [m [? ?]]; eauto.
Qed.

Lemma isAlsoManual_true manualSubs d :
  isAlsoManual manualSubs d = true <-> exists m, m ∈ manualSubs /\ matches d m.
Proof.
  unfold isAlsoManual, matches, matches_key, matches_fingerprint.
  rewrite orb_true_iff, !bool_decide_eq_true, has_key_iff, has_fingerprint_iff.
  split.
  - intros [[m [? ?]]|[m [? ?]]]; exists m; auto.
  - intros [m [? [?|?]]]; [left|right]; exists m; auto.
Qed.

Lemma markedAutoDetected_lookup a m i d :
  a !! i = Some d ->
  markedAutoDetected a m !! i = Some (with_is_manual d (isAlsoManual m d)).
Proof.
  intros H. unfold markedAutoDetected. rewrite list_lookup_fmap, H. reflexivity.
Qed.

Lemma elem_of_uniqueManual a m s :
  s ∈ uniqueManual a m <-> s ∈ m /\ forall d, d ∈ a -> ~ matches d s.
Proof.
  unfold uniqueManual. rewrite list_elem_of_filter.
  unfold matches, matches_key, matches_fingerprint.
  split.
  - intros [Hf Hs]. split; [exact Hs|]. intros d Hd Hm.
    repeat case_bool_decide; try discriminate.
    rewrite has_key_iff in *. rewrite has_fingerprint_iff in *.
    destruct Hm as [Hm|Hm]; [apply H|apply H0]; exists d; auto.
  - intros [Hs Hno]. split; [|exact Hs].
    repeat case_bool_decide; try reflexivity; exfalso.
    + apply has_key_iff in H as [d [Hd Hk]]. apply (Hno d Hd). auto.
    + apply has_fingerprint_iff in H0 as [d [Hd Hk]]. apply (Hno d Hd). auto.
Qed.

Lemma elem_of_merge a m s :
  s ∈ merge a m ->
  (exists d, d ∈ a /\ s = with_is_manual d (isAlsoManual m d)) \/ s ∈ m.
Proof.
  unfold merge. rewrite elem_of_app. intros [H|H].
  - left. unfold markedAutoDetected in H. apply list_elem_of_fmap in H as [d [-> Hd]].
    exists d. split; [exact Hd|reflexivity].
  - right. apply elem_of_uniqueManual in H. tauto.
Qed.

End MergedList.

(** ** Shape of a run *)

Section Run.

Context {unicode : Js.Unicode} {collation : Sql.Collation}.

Variable jaro_winkler_similarity : string -> string -> Q.

Lemma detect_try_Ok st sdk final :
  detect_try jaro_winkler_similarity st sdk = Ok final <->
  exists autoDetected manualSubs,
    run_lists jaro_winkler_similarity st sdk autoDetected manualSubs /\ final = merge autoDetected manualSubs.
Proof.
  unfold detect_try, sdk_query. split.
  - destruct (sdk_auto_query sdk) as [db1|e] eqn:E1; simpl; [|discriminate].
    destruct (Js.truthy (Js.trim (subscriptionTag st))) eqn:Et; simpl.
    + destruct (sdk_tagged_query sdk) as [db2|e] eqn:E2; simpl; [|discriminate].
      intros [= <-]. eexists _, _. split; [|reflexivity].
      eapply run_with_tag; eauto.
    + intros [= <-]. eexists _, _. split; [|reflexivity].
      eapply run_without_tag; eauto.
  - intros (a & m & Hrun & ->). destruct Hrun as [db1 db2 E1 Et E2|db1 E1 Et];
      rewrite E1; simpl; rewrite Et; simpl; [rewrite E2|]; reflexivity.
Qed.

Lemma detect_try_Threw st sdk :
  (exists e, detect_try jaro_winkler_similarity st sdk = Threw e) <->
  (exists e, sdk_auto_query sdk = Threw e)
  \/ (Js.truthy (Js.trim (subscriptionTag st)) = true
      /\ exists e, sdk_tagged_query sdk = Threw e).
Proof.
  unfold detect_try, sdk_query.
  destruct (sdk_auto_query sdk) as [db1|e1]; simpl.
  - destruct (Js.truthy (Js.trim (subscriptionTag st))); simpl.
    + destruct (sdk_tagged_query sdk) as [db2|e2]; simpl.
      * split; [intros [e ?]; discriminate|].
        intros [[e ?]|[_ [e ?]]]; discriminate.
      * split; [intros _; right; eauto|intros _; eauto].
    + split; [intros [e ?]; discriminate|].
      intros [[e ?]|[? _]]; discriminate.
  - split; [intros _; left; eauto|intros _; eauto].
Qed.

Lemma run_lists_manual st sdk a m s :
  run_lists jaro_winkler_similarity st sdk a m -> s ∈ m -> exists row, s = manualSubs_of_row row.
Proof.
  intros [db1 db2 _ _ _|db1 _ _] Hs.
  - apply list_elem_of_fmap in Hs as [row [-> _]]. eauto.
  - apply elem_of_nil in Hs. contradiction.
Qed.

Lemma run_lists_auto st sdk a m s :
  run_lists jaro_winkler_similarity st sdk a m -> s ∈ a -> exists row, s = autoDetected_of_row row.
Proof.
  intros [db1 db2 _ _ _|db1 _ _] Hs;
    apply list_elem_of_fmap in Hs as [row [-> _]]; eauto.
Qed.

(** Every subscription of a successful run went through the classifier. *)
Lemma run_output_classified st sdk final s :
  detect_try jaro_winkler_similarity st sdk = Ok final -> s ∈ final -> classified s.
Proof.
  intros Hrun Hs. apply detect_try_Ok in Hrun as (a & m & Hrun & ->).
  apply elem_of_merge in Hs as [[d [Hd ->]]|Hs].
  - apply with_is_manual_classified.
    destruct (run_lists_auto _ _ _ _ _ Hrun Hd) as [row ->].
    apply autoDetected_of_row_classified.
  - destruct (run_lists_manual _ _ _ _ _ Hrun Hs) as [row ->].
    apply manualSubs_of_row_classified.
Qed.

End Run.

(** ** Frequency labels and staleness *)

Section FrequencyLabels.

Context {unicode : Js.Unicode} {collation : Sql.Collation}.


(** C5: every subscription of a successful detection run has [is_stale]
    true exactly when [days_since_last > max(interval_days * 2, 90)]; with
    an interval of 30 days, 61 days since the last charge is not stale and
    91 days is. *)
Theorem stale_iff_beyond_threshold
    (jaro_winkler_similarity : string -> string -> Q)
    (st : State) (sdk : Sdk) (final : list Subscription) (s : Subscription) :
  detect_try jaro_winkler_similarity st sdk = Ok final ->
  s ∈ final ->
  (is_stale s = true <-> days_since_last s > Z.max (interval_days s * 2) 90)
  /\ (interval_days s = 30 -> days_since_last s = 61 -> is_stale s = false)
  /\ (interval_days s = 30 -> days_since_last s = 91 -> is_stale s = true).
Proof.
  intros Hrun Hs.
  destruct (run_output_classified _ _ _ _ _ Hrun Hs) as [_ Hstale].
  unfold staleThreshold in Hstale. rewrite Hstale.
  split; [|split].
  - rewrite Z.ltb_lt. lia.
  - intros -> ->. reflexivity.
  - intros -> ->. reflexivity.
Qed.

End FrequencyLabels.

Lemma stale_iff_beyond_threshold_witness :
  (is_stale netflix_on_day_150 = true
   <-> days_since_last netflix_on_day_150
       > Z.max (interval_days netflix_on_day_150 * 2) 90)
  /\ (interval_days netflix_on_day_150 = 30 ->
      days_since_last netflix_on_day_150 = 61 ->
      is_stale netflix_on_day_150 = false)
  /\ (interval_days netflix_on_day_150 = 30 ->
      days_since_last netflix_on_day_150 = 91 ->
      is_stale netflix_on_day_150 = true).
Proof.
  apply (stale_iff_beyond_threshold prefix_similarity idle
           (sdk_on 150 60 streaming) [netflix_on_day_150]).
  - vm_compute. reflexivity.
  - left.
Defined.

Section OutputLabels.

Context {unicode : Js.Unicode} {collation : Sql.Collation}.

(** C10: every subscription of a successful detection run, from either
    path, carries one of the six labels weekly, bi-weekly, monthly,
    quarterly, semi-annual, annual; the initial value "unknown" never
    reaches the output. *)
Theorem output_frequency_is_a_label
    (jaro_winkler_similarity : string -> string -> Q)
    (st : State) (sdk : Sdk) (final : list Subscription) (s : Subscription) :
  detect_try jaro_winkler_similarity st sdk = Ok final ->
  s ∈ final ->
  frequency s ∈ frequency_labels /\ frequency s <> "unknown".
Proof.
  intros Hrun Hs.
  destruct (run_output_classified _ _ _ _ _ Hrun Hs) as [Hfreq _].
  rewrite Hfreq. split; [apply frequency_of_label|].
  intros Heq. apply unknown_not_label. rewrite <- Heq. apply frequency_of_label.
Qed.

End OutputLabels.

Lemma output_frequency_is_a_label_witness :
  frequency netflix_on_day_150 ∈ frequency_labels
  /\ frequency netflix_on_day_150 <> "unknown".
Proof.
  apply (output_frequency_is_a_label prefix_similarity idle
           (sdk_on 150 60 streaming) [netflix_on_day_150]).
  - vm_compute. reflexivity.
  - left.
Defined.

(** ** Failure and the published list *)

Section Publication.

Context {unicode : Js.Unicode} {collation : Sql.Collation}.

Variable jaro_winkler_similarity : string -> string -> Q.

(** The [try] block reads the component state through the tag only. *)
Lemma detect_try_reads_tag st st' sdk :
  subscriptionTag st = subscriptionTag st' ->
  detect_try jaro_winkler_similarity st sdk
  = detect_try jaro_winkler_similarity st' sdk.
Proof. intros H. unfold detect_try. rewrite H. reflexivity. Qed.

(** It reads the store through the [transactions] table only. *)
Lemma detect_try_reads_transactions st clock db1 db2 db1' db2' :
  transactions db1 = transactions db1' ->
  transactions db2 = transactions db2' ->
  detect_try jaro_winkler_similarity st (mkSdk clock (Ok db1) (Ok db2))
  = detect_try jaro_winkler_similarity st (mkSdk clock (Ok db1') (Ok db2')).
Proof.
  intros H1 H2. unfold detect_try, sdk_query. simpl. rewrite H1, H2. reflexivity.
Qed.

Lemma detectSubscriptions_subscriptions st sdk :
  subscriptions (detectSubscriptions jaro_winkler_similarity st sdk)
  = match detect_try jaro_winkler_similarity st sdk with
    | Ok result => result
    | Threw _ => subscriptions st
    end.
Proof.
  unfold detectSubscriptions.
  rewrite (detect_try_reads_tag (set_isLoading st true) st sdk eq_refl).
  destruct (detect_try jaro_winkler_similarity st sdk); reflexivity.
Qed.

End Publication.

Section FailedRun.

Context {unicode : Js.Unicode} {collation : Sql.Collation}.

(** C8: when a query of the run throws (the auto-detect query, or the
    tagged query of the manual path), the published [subscriptions] list is
    the one from before the run; a run publishes either nothing or the
    complete merged list of its two paths. *)
Theorem failed_run_keeps_previous_list
    (jaro_winkler_similarity : string -> string -> Q) (st : State) (sdk : Sdk) :
  (exists e, sdk_auto_query sdk = Threw e)
  \/ (Js.truthy (Js.trim (subscriptionTag st)) = true
      /\ exists e, sdk_tagged_query sdk = Threw e) ->
  subscriptions (detectSubscriptions jaro_winkler_similarity st sdk) = subscriptions st
  /\ isLoading (detectSubscriptions jaro_winkler_similarity st sdk) = false
  /\ forall st0 sdk0,
      subscriptions (detectSubscriptions jaro_winkler_similarity st0 sdk0)
      = subscriptions st0
      \/ exists autoDetected manualSubs,
          run_lists jaro_winkler_similarity st0 sdk0 autoDetected manualSubs
          /\ subscriptions (detectSubscriptions jaro_winkler_similarity st0 sdk0)
             = merge autoDetected manualSubs.
Proof.
  intros Hfail. split; [|split].
  - rewrite detectSubscriptions_subscriptions.
    apply (detect_try_Threw jaro_winkler_similarity) in Hfail as [e ->]. reflexivity.
  - reflexivity.
  - intros st0 sdk0. rewrite detectSubscriptions_subscriptions.
    destruct (detect_try jaro_winkler_similarity st0 sdk0) as [result|e] eqn:E.
    + right. apply detect_try_Ok in E as (a & m & Hrun & ->). eauto.
    + left. reflexivity.
Qed.

End FailedRun.

Lemma failed_run_keeps_previous_list_witness :
  subscriptions (detectSubscriptions prefix_similarity after_first_run sdk_store_down)
  = [netflix_on_day_150].
Proof.
  refine (proj1 (failed_run_keeps_previous_list prefix_similarity
                   after_first_run sdk_store_down _)).
  left. eexists. reflexivity.
Defined.

(** ** Hidden merchants *)

Section HiddenMerchants.

Context {unicode : Js.Unicode} {collation : Sql.Collation}.

Lemma elem_of_visibleSubscriptions st s :
  s ∈ visibleSubscriptions st ->
  s ∈ subscriptions st
  /\ (showHidden st = false -> merchant_key s ∉ hiddenMerchantKeys st).
Proof.
  unfold visibleSubscriptions. rewrite list_elem_of_filter. intros [Hf Hs].
  split; [exact Hs|]. intros Hshow Hin. rewrite Hshow in Hf. simpl in Hf.
  rewrite bool_decide_eq_true_2 in Hf by exact Hin. discriminate.
Qed.

Lemma visibleSubscriptions_no_search st s :
  searchQuery st = EmptyString ->
  (s ∈ visibleSubscriptions st
   <-> s ∈ subscriptions st
       /\ (showHidden st = true \/ merchant_key s ∉ hiddenMerchantKeys st)).
Proof.
  intros Hq. unfold visibleSubscriptions. rewrite list_elem_of_filter, Hq. simpl.
  destruct (showHidden st); simpl.
  - split; [intros [_ ?]; auto|intros [? _]; auto].
  - case_bool_decide as Hh; simpl.
    + split; [intros [? _]; discriminate|intros [_ [?|?]]; [discriminate|contradiction]].
    + split; [intros [_ ?]; auto|intros [? _]; auto].
Qed.

(** C9: the list published by a run is the same whatever the set of hidden
    merchant keys (and whatever the plugin's table of hidden merchants
    holds); after hiding a subscription, a new run over the same
    transactions publishes the same full list; hidden entries are left out
    only by [visibleSubscriptions], which selects from the published list
    (without a search query: the entries that are not hidden, or all of
    them when hidden ones are shown). *)
Theorem detection_is_blind_to_hidden_merchants
    (jaro_winkler_similarity : string -> string -> Q) :
  (forall st sdk (h1 h2 : gset string),
      subscriptions
        (detectSubscriptions jaro_winkler_similarity (set_hiddenMerchantKeys st h1) sdk)
      = subscriptions
          (detectSubscriptions jaro_winkler_similarity (set_hiddenMerchantKeys st h2) sdk))
  /\ (forall st db executed sub clock,
         transactions (snd (hideSubscription st db executed sub)) = transactions db
         /\ subscriptions
              (detectSubscriptions jaro_winkler_similarity
                 (fst (hideSubscription st db executed sub))
                 (mkSdk clock (Ok (snd (hideSubscription st db executed sub)))
                              (Ok (snd (hideSubscription st db executed sub)))))
            = subscriptions
                (detectSubscriptions jaro_winkler_similarity st
                   (mkSdk clock (Ok db) (Ok db))))
  /\ (forall st s,
         s ∈ visibleSubscriptions st ->
         s ∈ subscriptions st
         /\ (showHidden st = false -> merchant_key s ∉ hiddenMerchantKeys st))
  /\ (forall st s,
         searchQuery st = EmptyString ->
         (s ∈ visibleSubscriptions st
          <-> s ∈ subscriptions st
              /\ (showHidden st = true \/ merchant_key s ∉ hiddenMerchantKeys st))).
Proof.
  split; [|split; [|split]]; [| |exact elem_of_visibleSubscriptions|
                              exact visibleSubscriptions_no_search].
  - intros st sdk h1 h2. rewrite !detectSubscriptions_subscriptions.
    rewrite (detect_try_reads_tag _ (set_hiddenMerchantKeys st h1)
               (set_hiddenMerchantKeys st h2) sdk eq_refl).
    reflexivity.
  - intros st db executed sub clock.
    assert (Hdb : transactions (snd (hideSubscription st db executed sub))
                  = transactions db)
      by (destruct executed; reflexivity).
    split; [exact Hdb|].
    rewrite !detectSubscriptions_subscriptions.
    rewrite (detect_try_reads_transactions _ _ clock _ _ db db Hdb Hdb).
    rewrite (detect_try_reads_tag _ (fst (hideSubscription st db executed sub)) st)
      by (destruct executed; reflexivity).
    destruct executed; reflexivity.
Qed.

End HiddenMerchants.

(** ** The periodicity filter *)

Lemma Qsquare_nonneg (y : Q) : (0 <= y * y)%Q.
Proof.
  destruct (Qlt_le_dec y 0).
  - assert (E : (y * y == (- y) * (- y))%Q) by ring.
    rewrite E. apply Qmult_le_0_compat; lra.
  - apply Qmult_le_0_compat; lra.
Qed.

Lemma sum_squares_nonneg (m : Q) (xs : list Q) :
  (0 <= Sql.sum ((fun x => (x - m) * (x - m)) <$> xs))%Q.
Proof.
  induction xs as [|x xs IH]; [discriminate|].
  change (0 <= (x - m) * (x - m)
               + Sql.sum ((fun x => (x - m) * (x - m)) <$> xs))%Q.
  pose proof (Qsquare_nonneg (x - m)) as Hsq.
  apply (Qplus_le_compat 0 _ 0 _ Hsq IH).
Qed.

Lemma avg_of_gaps (gaps : list Z) :
  0 < Sql.count gaps ->
  Sql.avg (inject_Z <$> gaps) = Some (avg_interval_days gaps).
Proof.
  unfold Sql.avg, avg_interval_days, Sql.count. rewrite length_fmap.
  destruct gaps; simpl; [lia|reflexivity].
Qed.

Lemma var_samp_of_gaps (gaps : list Z) :
  2 <= Sql.count gaps ->
  Sql.var_samp (inject_Z <$> gaps) = Some (variance_interval_days gaps).
Proof.
  intros H. unfold Sql.var_samp. rewrite avg_of_gaps by lia.
  unfold variance_interval_days, Sql.count in *. rewrite length_fmap.
  destruct (Z.ltb_spec (Z.of_nat (length gaps)) 2); [lia|reflexivity].
Qed.

Lemma variance_nonneg (gaps : list Z) :
  2 <= Sql.count gaps -> (0 <= variance_interval_days gaps)%Q.
Proof.
  intros H. unfold variance_interval_days.
  apply Qle_shift_div_l.
  - change 0%Q with (inject_Z 0). rewrite <- Zlt_Qlt. lia.
  - rewrite Qmult_0_l. apply sum_squares_nonneg.
Qed.

(** The count and range conditions of the filter, without the deviation. *)
Lemma periodicity_filter_range (K : Q) (gaps : list Z) :
  periodicity_filter K gaps = true ->
  2 <= Sql.count gaps
  /\ (5 <= avg_interval_days gaps)%Q /\ (avg_interval_days gaps <= 400)%Q.
Proof.
  unfold periodicity_filter. rewrite andb_true_iff, Z.leb_le.
  intros [Hc H]. rewrite avg_of_gaps in H by lia.
  apply andb_true_iff in H as [Hb _].
  unfold Sql.between in Hb. apply andb_true_iff in Hb as [H5 H400].
  apply Qle_bool_iff in H5, H400. auto.
Qed.

(** A looser tolerance accepts whatever a stricter one accepts. *)
Lemma periodicity_filter_mono (K K' : Q) (gaps : list Z) :
  (K <= K')%Q ->
  periodicity_filter K gaps = true -> periodicity_filter K' gaps = true.
Proof.
  intros HK. unfold periodicity_filter. rewrite !andb_true_iff.
  intros [Hc H]. split; [exact Hc|].
  destruct (Sql.avg (inject_Z <$> gaps)) as [a|]; [|discriminate].
  apply andb_true_iff in H as [Hb Hs]. apply andb_true_iff. split; [exact Hb|].
  unfold Sql.between in Hb. apply andb_true_iff in Hb as [H5 _].
  apply Qle_bool_iff in H5.
  unfold Sql.stddev_lt in *.
  destruct (Sql.var_samp (inject_Z <$> gaps)) as [v|]; [|discriminate].
  apply andb_true_iff in Hs as [Hpos Hv]. apply Qltb_lt in Hpos, Hv.
  assert (Hle : (a * K <= a * K')%Q) by (apply Qmult_le_l; [lra|exact HK]).
  apply andb_true_iff. split; apply Qltb_lt; [lra|].
  eapply Qlt_le_trans; [exact Hv|].
  apply Qle_trans with (a * K * (a * K'))%Q.
  - apply Qmult_le_l; [exact Hpos|exact Hle].
  - apply Qmult_le_compat_r; [exact Hle|lra].
Qed.

(** Comparing a square root with a bound through squares. *)
Lemma sqrt_lt_iff (v b : Q) :
  (0 <= v)%Q ->
  (sqrt (Q2R v) < Q2R b)%R <-> (0 < b)%Q /\ (v < b * b)%Q.
Proof.
  intros Hv.
  assert (Hv' : (0 <= Q2R v)%R).
  { rewrite <- RMicromega.Q2R_0. apply Qle_Rle. exact Hv. }
  split.
  - intros H.
    assert (Hb : (0 < Q2R b)%R).
    { eapply Rle_lt_trans; [apply sqrt_pos|exact H]. }
    split.
    + apply Rlt_Qlt. rewrite RMicromega.Q2R_0. exact Hb.
    + apply Rlt_Qlt. rewrite Q2R_mult.
      rewrite <- (sqrt_sqrt (Q2R v)) at 1 by exact Hv'.
      pose proof (sqrt_pos (Q2R v)). nra.
  - intros [Hb Hlt].
    assert (Hb' : (0 < Q2R b)%R).
    { rewrite <- RMicromega.Q2R_0. apply Qlt_Rlt. exact Hb. }
    rewrite <- (sqrt_square (Q2R b)) by lra.
    apply sqrt_lt_1_alt. split; [exact Hv'|].
    rewrite <- Q2R_mult. apply Qlt_Rlt. exact Hlt.
Qed.

(** [Sql.stddev_lt] decides the comparison with the real square root. *)
Lemma stddev_lt_sqrt (gaps : list Z) (bound : Q) :
  2 <= Sql.count gaps ->
  Sql.stddev_lt (inject_Z <$> gaps) bound = true
  <-> (stddev_interval_days gaps < Q2R bound)%R.
Proof.
  intros H. unfold Sql.stddev_lt, stddev_interval_days.
  rewrite var_samp_of_gaps by exact H.
  rewrite (sqrt_lt_iff _ _ (variance_nonneg gaps H)).
  rewrite andb_true_iff, !Qltb_lt. reflexivity.
Qed.

Lemma periodicity_filter_iff (K : Q) (gaps : list Z) :
  periodicity_filter K gaps = true <->
  2 <= Sql.count gaps
  /\ (5 <= avg_interval_days gaps)%Q /\ (avg_interval_days gaps <= 400)%Q
  /\ (stddev_interval_days gaps < Q2R (avg_interval_days gaps * K))%R.
Proof.
  unfold periodicity_filter. rewrite andb_true_iff, Z.leb_le.
  split.
  - intros [Hc H]. rewrite avg_of_gaps in H by lia.
    apply andb_true_iff in H as [Hb Hs].
    unfold Sql.between in Hb. apply andb_true_iff in Hb as [H5 H400].
    apply Qle_bool_iff in H5, H400.
    apply stddev_lt_sqrt in Hs; [|exact Hc]. auto.
  - intros (Hc & H5 & H400 & Hs). split; [exact Hc|].
    rewrite avg_of_gaps by lia. apply andb_true_iff. split.
    + unfold Sql.between. apply andb_true_iff. split; apply Qle_bool_iff; assumption.
    + apply stddev_lt_sqrt; assumption.
Qed.

(** ** Rows of the auto-detect query *)

Section AutoRows.

Context {unicode : Js.Unicode} {collation : Sql.Collation}.

Variable jaro_winkler_similarity : string -> string -> Q.
Variable clock : Clock.

Lemma elem_of_SUBSCRIPTION_SQL_with K txs row :
  row ∈ SUBSCRIPTION_SQL_with jaro_winkler_similarity clock K txs <->
  exists part,
    part ∈ Sql.group_by interval_key
             (merchant_intervals
                (grouped_transactions jaro_winkler_similarity (base_transactions txs)))
    /\ periodicity_filter K (i_interval_days <$> snd part) = true
    /\ stats_of_group clock
         (grouped_transactions jaro_winkler_similarity (base_transactions txs))
         (fst part) (snd part) = Some row.
Proof.
  unfold SUBSCRIPTION_SQL_with, merchant_stats.
  rewrite elem_of_order_by, list_elem_of_omap.
  split; intros [part [Hp H]]; exists part.
  - destruct (periodicity_filter K (i_interval_days <$> snd part)); [auto|discriminate].
  - split; [exact Hp|]. destruct H as [-> H]. exact H.
Qed.

Lemma stats_of_group_Some grouped k rows row :
  stats_of_group clock grouped k rows = Some row ->
  r_occurrence_count row = Sql.count (i_interval_days <$> rows) + 1
  /\ r_avg_interval row = avg_interval_days (i_interval_days <$> rows)
  /\ r_merchant_key row = Some (fst k).
Proof.
  unfold stats_of_group. intros H.
  destruct (Sql.avg ((fun i => Qabs (i_amount i)) <$> rows)) as [a|]; [|discriminate].
  simpl in H.
  destruct (Sql.avg ((fun i => inject_Z (i_interval_days i)) <$> rows))
    as [v|] eqn:Ev; [|discriminate].
  simpl in H.
  destruct (Sql.max_list (i_date <$> rows)) as [mx|]; [|discriminate].
  destruct (Sql.min_list (i_date <$> rows)) as [mn|]; [|discriminate].
  simpl in H. injection H as <-. simpl.
  unfold Sql.count. rewrite length_fmap. split; [reflexivity|]. split; [|reflexivity].
  change (fun i => inject_Z (i_interval_days i)) with (inject_Z ∘ i_interval_days) in Ev.
  rewrite list_fmap_compose in Ev.
  rewrite avg_of_gaps in Ev.
  - congruence.
  - unfold Sql.count. rewrite length_fmap. destruct rows; [discriminate|simpl; lia].
Qed.

(** Every row of the query passed the range gate. *)
Lemma SUBSCRIPTION_SQL_with_range K txs row :
  row ∈ SUBSCRIPTION_SQL_with jaro_winkler_similarity clock K txs ->
  (5 <= r_avg_interval row)%Q /\ (r_avg_interval row <= 400)%Q
  /\ 3 <= r_occurrence_count row.
Proof.
  intros H. apply elem_of_SUBSCRIPTION_SQL_with in H as (part & _ & Hf & Hs).
  apply stats_of_group_Some in Hs as (Hc & Ha & _).
  apply periodicity_filter_range in Hf as (H2 & H5 & H400).
  rewrite Hc, Ha. repeat split; [assumption|assumption|lia].
Qed.

End AutoRows.

(** ** The divisor of the annual cost *)

Section AnnualCost.

Context {unicode : Js.Unicode} {collation : Sql.Collation}.

Lemma run_lists_auto_row jw st sdk a m d :
  run_lists jw st sdk a m -> d ∈ a ->
  exists db row,
    sdk_auto_query sdk = Ok db
    /\ row ∈ SUBSCRIPTION_SQL jw (sdk_clock sdk) (transactions db)
    /\ d = autoDetected_of_row row.
Proof.
  intros [db1 db2 E1 _ _|db1 E1 _] Hd;
    apply list_elem_of_fmap in Hd as [row [-> Hrow]]; eauto.
Qed.

Lemma annual_cost_of_nonzero (avg_amount : Q) (n : Z) :
  n <> 0 -> exists c, annual_cost_of avg_amount n = Some c.
Proof.
  intros Hn. unfold annual_cost_of. rewrite div_Some_nonzero by exact Hn. eauto.
Qed.

(** C7, as the code has it: every subscription that the auto-detect path
    contributes to the list of a run has [interval_days] between 5 and 400,
    because its row passed the range gate of the periodicity filter; the
    divisor of its annual cost is not zero and the cost is a finite number.
    (The manual path has no range gate.) *)
Theorem auto_detected_interval_is_nonzero
    (jaro_winkler_similarity : string -> string -> Q)
    (st : State) (sdk : Sdk) (autoDetected manualSubs : list Subscription)
    (d : Subscription) :
  run_lists jaro_winkler_similarity st sdk autoDetected manualSubs ->
  d ∈ autoDetected ->
  with_is_manual d (isAlsoManual manualSubs d) ∈ merge autoDetected manualSubs
  /\ 5 <= interval_days (with_is_manual d (isAlsoManual manualSubs d)) <= 400
  /\ interval_days (with_is_manual d (isAlsoManual manualSubs d)) <> 0
  /\ exists c, annual_cost (with_is_manual d (isAlsoManual manualSubs d)) = Some c.
Proof.
  intros Hrun Hd. split.
  - unfold merge, markedAutoDetected. apply elem_of_app. left.
    apply list_elem_of_fmap. eauto.
  - destruct (run_lists_auto_row _ _ _ _ _ _ Hrun Hd) as (db & row & _ & Hrow & ->).
    apply SUBSCRIPTION_SQL_with_range in Hrow as (H5 & H400 & _).
    simpl.
    pose proof (round_lower (r_avg_interval row) 5 H5).
    pose proof (round_upper (r_avg_interval row) 400 H400).
    split; [lia|]. split; [lia|].
    apply annual_cost_of_nonzero. lia.
Qed.

End AnnualCost.

Lemma auto_detected_interval_is_nonzero_witness :
  5 <= interval_days netflix_on_day_150 <= 400
  /\ interval_days netflix_on_day_150 <> 0
  /\ exists c, annual_cost netflix_on_day_150 = Some c.
Proof.
  refine (proj2 (auto_detected_interval_is_nonzero prefix_similarity idle
                   (sdk_on 150 60 streaming)
                   (autoDetected_of_row
                      <$> SUBSCRIPTION_SQL prefix_similarity
                            (sdk_clock (sdk_on 150 60 streaming)) streaming)
                   (manualSubs_of_row
                      <$> TAGGED_SQL (sdk_clock (sdk_on 150 60 streaming))
                            (Js.trim (subscriptionTag idle)) streaming)
                   (with_is_manual netflix_on_day_150 false) _ _)).
  - apply (run_with_tag prefix_similarity idle (sdk_on 150 60 streaming)
             (mkDb streaming []) (mkDb streaming [])); reflexivity.
  - vm_compute. left.
Defined.

(** C7, as stated, fails on the manual path: four tagged charges, three of
    them on one day, have a mean gap of 1/3 day, which [Math.round] takes
    to 0; the run publishes a subscription whose annual cost divides by
    zero. *)
Lemma manual_path_divides_by_zero :
  detect_try prefix_similarity idle (sdk_on 10 0 same_day_charges) = Ok [corner_cafe]
  /\ interval_days corner_cafe = 0
  /\ annual_cost corner_cafe = None
  /\ Js.div 365 (inject_Z (interval_days corner_cafe)) = None
  /\ ~ (forall jaro_winkler_similarity st sdk final s,
           detect_try jaro_winkler_similarity st sdk = Ok final ->
           s ∈ final ->
           interval_days s <> 0 /\ annual_cost s <> None).
Proof.
  assert (Hrun : detect_try prefix_similarity idle (sdk_on 10 0 same_day_charges)
                 = Ok [corner_cafe])
    by (vm_compute; reflexivity).
  split; [exact Hrun|]. repeat split; try reflexivity.
  intros H.
  destruct (H prefix_similarity idle (sdk_on 10 0 same_day_charges)
              [corner_cafe] corner_cafe Hrun) as [Hnz _]; [left|].
  apply Hnz. reflexivity.
Qed.

(** ** Clustering *)

Section BaseRows.

Context {unicode : Js.Unicode} {collation : Sql.Collation}.

Lemma elem_of_base_transactions txs b :
  b ∈ base_transactions txs <->
  exists t d,
    t ∈ txs /\ t_description t = Some d
    /\ (t_amount t < 0)%Q /\ d <> EmptyString
    /\ b = {| b_norm_amount := Sql.round2_cents (t_amount t);
              b_upper_desc := Sql.upper d;
              b_description := d;
              b_amount := t_amount t;
              b_date := t_date t |}.
Proof.
  unfold base_transactions. rewrite list_elem_of_omap. split.
  - intros (t & Ht & H). destruct (t_description t) as [d|] eqn:Ed; [|discriminate].
    destruct (Sql.Qltb (t_amount t) 0 && Js.truthy d) eqn:Ec; [|discriminate].
    apply andb_true_iff in Ec as [Ha Hd]. apply Qltb_lt in Ha.
    injection H as <-. exists t, d. repeat split; auto.
    intros ->. discriminate.
  - intros (t & d & Ht & Ed & Ha & Hd & ->). exists t. split; [exact Ht|].
    rewrite Ed. apply Qltb_lt in Ha. rewrite Ha.
    destruct d; [contradiction|reflexivity].
Qed.

Lemma base_upper_desc txs b :
  b ∈ base_transactions txs -> b_upper_desc b = Sql.upper (b_description b).
Proof.
  intros H. apply elem_of_base_transactions in H as (t & d & _ & _ & _ & _ & ->).
  reflexivity.
Qed.

(** The canonical description of an amount that occurs: the description of
    a transaction of least date at that amount. *)
Lemma canonical_merchants_earliest base b :
  b ∈ base ->
  exists first,
    first ∈ base
    /\ b_norm_amount first = b_norm_amount b
    /\ (forall b', b' ∈ base -> b_norm_amount b' = b_norm_amount b ->
                   b_date first <= b_date b')
    /\ canonical_merchants base (b_norm_amount b) = Some (b_upper_desc first).
Proof.
  intros Hb. unfold canonical_merchants.
  set (same := filter (fun r => b_norm_amount r = b_norm_amount b) base).
  assert (Hin : b ∈ same) by (apply list_elem_of_filter; auto).
  destruct (Sql.order_by (by_date b_date) same) as [|first s] eqn:E.
  - apply order_by_nil_inv in E. rewrite E in Hin. apply elem_of_nil in Hin. contradiction.
  - assert (Hh : head (Sql.order_by (by_date b_date) same) = Some first)
      by (rewrite E; reflexivity).
    apply head_order_by_date in Hh as [Hf Hmin].
    apply list_elem_of_filter in Hf as [Hamt Hf].
    exists first. repeat split; auto.
    intros b' Hb' Hamt'. apply Hmin. apply list_elem_of_filter. auto.
Qed.

End BaseRows.

Section Clustering.

Variable jaro_winkler_similarity : string -> string -> Q.

Lemma merchant_group_of_similar u c :
  (7 # 10 < jaro_winkler_similarity u c)%Q ->
  merchant_group_of jaro_winkler_similarity u (Some c) = c.
Proof.
  intros H. unfold merchant_group_of. apply Qltb_lt in H. rewrite H. reflexivity.
Qed.

Lemma merchant_group_of_dissimilar u c :
  ~ (7 # 10 < jaro_winkler_similarity u c)%Q ->
  merchant_group_of jaro_winkler_similarity u (Some c) = u.
Proof.
  intros H. unfold merchant_group_of.
  destruct (Sql.Qltb (7 # 10) (jaro_winkler_similarity u c)) eqn:E; [|reflexivity].
  apply Qltb_lt in E. contradiction.
Qed.

Lemma elem_of_grouped_transactions base g :
  g ∈ grouped_transactions jaro_winkler_similarity base ->
  exists b,
    b ∈ base
    /\ g_norm_amount g = b_norm_amount b
    /\ g_description g = b_description b
    /\ g_date g = b_date b
    /\ g_merchant_group g
       = merchant_group_of jaro_winkler_similarity (b_upper_desc b)
           (canonical_merchants base (b_norm_amount b)).
Proof.
  unfold grouped_transactions. intros H.
  apply list_elem_of_fmap in H as [b [-> Hb]]. exists b. auto.
Qed.

End Clustering.

Section Canonical.

Context {unicode : Js.Unicode} {collation : Sql.Collation}.

Lemma length_base_transactions (txs : list Transaction) :
  length (base_transactions txs)
  = length (filter (fun t => described_debit t = true) txs).
Proof.
  unfold base_transactions, described_debit.
  induction txs as [|t txs IH]; [reflexivity|].
  rewrite filter_cons. csimpl.
  destruct (t_description t) as [d|].
  - destruct (Sql.Qltb (t_amount t) 0 && Js.truthy d) eqn:E.
    + rewrite decide_True by reflexivity. simpl. rewrite IH. reflexivity.
    + rewrite decide_False by discriminate. exact IH.
  - rewrite andb_false_r. rewrite decide_False by discriminate. exact IH.
Qed.

Lemma described_debit_iff (t : Transaction) :
  described_debit t = true
  <-> exists d, t_description t = Some d /\ d <> EmptyString /\ (t_amount t < 0)%Q.
Proof.
  unfold described_debit. rewrite andb_true_iff, Qltb_lt. split.
  - intros [Ha Hd]. destruct (t_description t) as [d|]; [|discriminate].
    exists d. split; [reflexivity|]. split; [|exact Ha]. intros ->. discriminate.
  - intros (d & -> & Hd & Ha). split; [exact Ha|]. destruct d; [contradiction|reflexivity].
Qed.

(** C3, as the code has it: every debit transaction with a description is
    clustered, once: the clusterer has one row for each, with its
    description, amount and date, and no other row.  For the amount of
    any of them there is a canonical description, the uppercased
    description of a transaction of least date at that amount; the
    transaction is put in the canonical group when its similarity to the
    canonical description exceeds 0.7 and in the group named by its own
    uppercased description otherwise (so it is in the canonical group
    exactly when the similarity exceeds 0.7, for a description other than
    the canonical one and, when the canonical description is similar to
    itself, for every description; the earliest transaction is in the
    canonical group either way); two transactions that both fail the
    comparison and differ in description are in different groups, whatever
    their similarity to each other.  Descriptions are uppercased and
    nothing else. *)
Theorem clustering_against_canonical
    (jaro_winkler_similarity : string -> string -> Q) (txs : list Transaction) :
  length (grouped_transactions jaro_winkler_similarity (base_transactions txs))
  = length (filter (fun t => described_debit t = true) txs)
  /\ (forall t d,
         t ∈ txs -> t_description t = Some d -> d <> EmptyString ->
         (t_amount t < 0)%Q ->
         exists g,
           g ∈ grouped_transactions jaro_winkler_similarity (base_transactions txs)
           /\ g_description g = d
           /\ g_amount g = t_amount t
           /\ g_date g = t_date t
           /\ g_norm_amount g = Sql.round2_cents (t_amount t))
  /\ (forall g,
         g ∈ grouped_transactions jaro_winkler_similarity (base_transactions txs) ->
         (exists t,
             t ∈ txs
             /\ described_debit t = true
             /\ t_description t = Some (g_description g)
             /\ t_amount t = g_amount g
             /\ t_date t = g_date g
             /\ g_norm_amount g = Sql.round2_cents (t_amount t))
         /\ exists first canonical,
           first ∈ base_transactions txs
           /\ b_norm_amount first = g_norm_amount g
           /\ (forall b, b ∈ base_transactions txs ->
                         b_norm_amount b = g_norm_amount g -> b_date first <= b_date b)
           /\ canonical = Sql.upper (b_description first)
           /\ canonical_merchants (base_transactions txs) (g_norm_amount g) = Some canonical
           /\ ((7 # 10 < jaro_winkler_similarity (Sql.upper (g_description g)) canonical)%Q ->
               g_merchant_group g = canonical)
           /\ (~ (7 # 10 < jaro_winkler_similarity (Sql.upper (g_description g)) canonical)%Q ->
               g_merchant_group g = Sql.upper (g_description g))
           /\ (Sql.upper (g_description g) <> canonical
               \/ (7 # 10 < jaro_winkler_similarity canonical canonical)%Q ->
               (g_merchant_group g = canonical
                <-> (7 # 10 < jaro_winkler_similarity (Sql.upper (g_description g)) canonical)%Q))
           /\ merchant_group_of jaro_winkler_similarity canonical (Some canonical) = canonical
           /\ (forall g',
                  g' ∈ grouped_transactions jaro_winkler_similarity (base_transactions txs) ->
                  g_norm_amount g' = g_norm_amount g ->
                  ~ (7 # 10 < jaro_winkler_similarity (Sql.upper (g_description g)) canonical)%Q ->
                  ~ (7 # 10 < jaro_winkler_similarity (Sql.upper (g_description g')) canonical)%Q ->
                  Sql.upper (g_description g) <> Sql.upper (g_description g') ->
                  g_merchant_group g <> g_merchant_group g')).
Proof.
  split; [|split].
  - unfold grouped_transactions. rewrite length_fmap. apply length_base_transactions.
  - intros t d Ht Ed Hd Ha.
    exists {| g_norm_amount := Sql.round2_cents (t_amount t);
              g_description := d;
              g_amount := t_amount t;
              g_date := t_date t;
              g_merchant_group :=
                merchant_group_of jaro_winkler_similarity (Sql.upper d)
                  (canonical_merchants (base_transactions txs)
                     (Sql.round2_cents (t_amount t))) |}.
    split; [|repeat split; reflexivity].
    unfold grouped_transactions. apply list_elem_of_fmap.
    exists {| b_norm_amount := Sql.round2_cents (t_amount t);
              b_upper_desc := Sql.upper d;
              b_description := d;
              b_amount := t_amount t;
              b_date := t_date t |}.
    split; [reflexivity|].
    apply elem_of_base_transactions. exists t, d. repeat split; auto.
  - intros g Hg. split.
    + unfold grouped_transactions in Hg.
      apply list_elem_of_fmap in Hg as [b [-> Hb]].
      apply elem_of_base_transactions in Hb as (t & d & Ht & Ed & Ha & Hd & ->).
      exists t. simpl. repeat split; auto.
      apply described_debit_iff. eauto.
    + revert Hg.
      {
      intros Hg.
      apply elem_of_grouped_transactions in Hg as (b & Hb & Hn & Hd & _ & Hgrp).
      destruct (canonical_merchants_earliest _ _ Hb) as (first & Hf & Hfa & Hmin & Hc).
      pose proof (base_upper_desc _ _ Hb) as Hu.
      pose proof (base_upper_desc _ _ Hf) as Hfu.
      rewrite <- Hn in Hfa, Hmin, Hc. rewrite Hfu in Hc.
      rewrite <- Hn, Hc, Hu, <- Hd in Hgrp.
      exists first, (Sql.upper (b_description first)).
      split; [exact Hf|]. split; [exact Hfa|]. split; [exact Hmin|].
      split; [reflexivity|]. split; [exact Hc|].
      split; [intros Hs; rewrite Hgrp; apply merchant_group_of_similar; exact Hs|].
      split; [intros Hs; rewrite Hgrp; apply merchant_group_of_dissimilar; exact Hs|].
      split; [|split].
      - intros Hne. split.
        + intros Heq.
          destruct (Qlt_le_dec (7 # 10)
                      (jaro_winkler_similarity (Sql.upper (g_description g))
                         (Sql.upper (b_description first)))) as [Hs|Hs]; [exact Hs|].
          assert (Hown : g_merchant_group g = Sql.upper (g_description g)).
          { rewrite Hgrp. apply merchant_group_of_dissimilar. apply Qle_not_lt. exact Hs. }
          destruct Hne as [Hne|Hrefl].
          * exfalso. apply Hne. rewrite <- Hown. exact Heq.
          * rewrite <- Hown, Heq. exact Hrefl.
        + intros Hs. rewrite Hgrp. apply merchant_group_of_similar. exact Hs.
      - unfold merchant_group_of.
        destruct (Sql.Qltb (7 # 10)
                    (jaro_winkler_similarity (Sql.upper (b_description first))
                       (Sql.upper (b_description first)))); reflexivity.
      - intros g' Hg' Hn' Hs Hs' Hne.
        apply elem_of_grouped_transactions in Hg' as (b' & Hb' & Hn2 & Hd' & _ & Hgrp').
        pose proof (base_upper_desc _ _ Hb') as Hu'.
        rewrite <- Hn2, Hn', Hc, Hu', <- Hd' in Hgrp'.
        rewrite Hgrp, Hgrp'.
        rewrite (merchant_group_of_dissimilar _ _ _ Hs).
        rewrite (merchant_group_of_dissimilar _ _ _ Hs').
        exact Hne.
      }
Qed.

End Canonical.

Lemma clustering_against_canonical_witness :
  exists first canonical,
    first ∈ base_transactions streaming
    /\ b_norm_amount first = -1599
    /\ (forall b, b ∈ base_transactions streaming ->
                  b_norm_amount b = -1599 -> b_date first <= b_date b)
    /\ canonical = Sql.upper (b_description first)
    /\ canonical_merchants (base_transactions streaming) (-1599) = Some canonical
    /\ ((7 # 10 < prefix_similarity "NETFLIX.COM NETFLIX.COM CA" canonical)%Q ->
        "NETFLIX.COM LOS GATOS CA" = canonical)
    /\ (~ (7 # 10 < prefix_similarity "NETFLIX.COM NETFLIX.COM CA" canonical)%Q ->
        "NETFLIX.COM LOS GATOS CA" = "NETFLIX.COM NETFLIX.COM CA")
    /\ ("NETFLIX.COM NETFLIX.COM CA" <> canonical
        \/ (7 # 10 < prefix_similarity canonical canonical)%Q ->
        ("NETFLIX.COM LOS GATOS CA" = canonical
         <-> (7 # 10 < prefix_similarity "NETFLIX.COM NETFLIX.COM CA" canonical)%Q))
    /\ merchant_group_of prefix_similarity canonical (Some canonical) = canonical
    /\ (forall g',
           g' ∈ grouped_transactions prefix_similarity (base_transactions streaming) ->
           g_norm_amount g' = -1599 ->
           ~ (7 # 10 < prefix_similarity "NETFLIX.COM NETFLIX.COM CA" canonical)%Q ->
           ~ (7 # 10 < prefix_similarity (Sql.upper (g_description g')) canonical)%Q ->
           "NETFLIX.COM NETFLIX.COM CA" <> Sql.upper (g_description g') ->
           "NETFLIX.COM LOS GATOS CA" <> g_merchant_group g').
Proof.
  refine (proj2 (proj2 (proj2 (clustering_against_canonical prefix_similarity streaming))
                   netflix_variant_row _)).
  vm_compute. right. left.
Defined.

(** C3, as stated, fails where it says "normalized": a description is
    uppercased and nothing else is done to it.  A charge billed as
    "Netflix  Inc " (two spaces inside, one at the end) gives its amount
    the canonical description "NETFLIX  INC ", white space as billed,
    which is what later descriptions are compared with and what names the
    group that a later charge billed as "NETFLIX INC" joins. *)
Lemma canonical_description_keeps_white_space :
  canonical_merchants (base_transactions spaced) (-1599) = Some "NETFLIX  INC "
  /\ whitespace_normalized "NETFLIX  INC " = false
  /\ g_merchant_group
       <$> grouped_transactions prefix_similarity (base_transactions spaced)
     = ["NETFLIX  INC "; "NETFLIX  INC "]
  /\ ~ (forall txs norm_amount canonical,
           canonical_merchants (base_transactions txs) norm_amount = Some canonical ->
           whitespace_normalized canonical = true).
Proof.
  assert (Hc : canonical_merchants (base_transactions spaced) (-1599)
               = Some "NETFLIX  INC ") by (vm_compute; reflexivity).
  split; [exact Hc|]. split; [reflexivity|]. split; [vm_compute; reflexivity|].
  intros H. specialize (H spaced (-1599) "NETFLIX  INC " Hc). discriminate H.
Qed.

(** The clustering example of the specification: both spellings of Netflix
    fall into one group, the Spotify charge at the same amount into its
    own. *)
Example clustering_of_streaming :
  g_merchant_group
    <$> grouped_transactions prefix_similarity (base_transactions streaming)
  = [ "NETFLIX.COM LOS GATOS CA"; "NETFLIX.COM LOS GATOS CA"; "SPOTIFY USA";
      "NETFLIX.COM LOS GATOS CA"; "NETFLIX.COM LOS GATOS CA" ].
Proof. vm_compute. reflexivity. Qed.

(** The periodicity example of the specification: charges on days 0, 30,
    61 and 89 pass the filter and are monthly. *)
Example periodicity_of_monthly_charges :
  Sql.intervals (fun d : Z => d) [0; 30; 61; 89] = [(30, 30); (61, 31); (89, 28)]
  /\ periodicity_filter intervalConsistencyTolerance [30; 31; 28] = true
  /\ frequency_of (Js.round (avg_interval_days [30; 31; 28])) = "monthly".
Proof. vm_compute. repeat split; reflexivity. Qed.

(** ** Grouping, partitions and gaps *)

Section Filter.

Context {T : Type}.

Lemma filter_all (P : T -> Prop) `{forall x, Decision (P x)} (l : list T) :
  (forall x, x ∈ l -> P x) -> filter P l = l.
Proof.
  induction l as [|x l IH]; intros Hall; [reflexivity|].
  rewrite filter_cons_True by (apply Hall; left).
  f_equal. apply IH. intros y Hy. apply Hall. right. exact Hy.
Qed.

Lemma filter_none (P : T -> Prop) `{forall x, Decision (P x)} (l : list T) :
  (forall x, x ∈ l -> ~ P x) -> filter P l = [].
Proof.
  induction l as [|x l IH]; intros Hall; [reflexivity|].
  rewrite filter_cons_False by (apply Hall; left).
  apply IH. intros y Hy. apply Hall. right. exact Hy.
Qed.

End Filter.

Section Grouping.

Context {A B K : Type} `{EqDecision K}.

Lemma filter_fmap (f : A -> B) (P : B -> Prop) `{forall y, Decision (P y)}
    (l : list A) :
  filter P (f <$> l) = f <$> filter (fun x => P (f x)) l.
Proof.
  induction l as [|x l IH]; [reflexivity|].
  rewrite fmap_cons. destruct (decide (P (f x))) as [Hp|Hp].
  - rewrite !filter_cons_True by exact Hp. rewrite fmap_cons, IH. reflexivity.
  - rewrite !filter_cons_False by exact Hp. exact IH.
Qed.

Lemma elem_of_group_by (key : A -> K) (rows : list A) (k : K) (l : list A) :
  (k, l) ∈ Sql.group_by key rows <->
  k ∈ key <$> rows /\ l = filter (fun r => key r = k) rows.
Proof.
  unfold Sql.group_by. rewrite list_elem_of_fmap. split.
  - intros [k' [[= -> ->] Hk]]. rewrite elem_of_remove_dups in Hk. auto.
  - intros [Hk ->]. exists k. split; [reflexivity|].
    apply elem_of_remove_dups. exact Hk.
Qed.

(** Rows produced partition by partition, each keeping the key of its
    partition: filtering on a key gives back what its partition produced. *)
Lemma filter_bind_keys (keys : list K) (G : K -> list B) (key' : B -> K) (k : K) :
  NoDup keys ->
  (forall k0 b, b ∈ G k0 -> key' b = k0) ->
  filter (fun b => key' b = k) (keys ≫= G)
  = if decide (k ∈ keys) then G k else [].
Proof.
  intros Hnd Hkey. induction Hnd as [|k0 ks Hnotin Hnd IH].
  - reflexivity.
  - rewrite bind_cons, filter_app, IH.
    destruct (decide (k = k0)) as [->|Hne].
    + destruct (decide (k0 ∈ k0 :: ks)) as [_|Hc]; [|exfalso; apply Hc; left].
      destruct (decide (k0 ∈ ks)); [contradiction|].
      rewrite app_nil_r. apply filter_all. intros b Hb. eapply Hkey; eauto.
    + rewrite filter_none.
      * simpl. destruct (decide (k ∈ ks)) as [Hin|Hin];
          destruct (decide (k ∈ k0 :: ks)) as [Hin'|Hin']; try reflexivity.
        -- exfalso. apply Hin'. right. exact Hin.
        -- exfalso. apply elem_of_cons in Hin' as [?|?]; contradiction.
      * intros b Hb Hc. apply Hne. rewrite <- Hc. eapply Hkey; eauto.
Qed.

End Grouping.

Section Intervals.

Context {A : Type} (date : A -> Z).

Lemma intervals_lag_Some (p : Z) (rows : list A) :
  omap (fun q : A * option Z =>
          match snd q with
          | Some d => Some (fst q, date (fst q) - d)
          | None => None
          end)
       (Sql.lag date (Some p) rows)
  = (fix go (prev : Z) (l : list A) :=
       match l with
       | [] => []
       | r :: rest => (r, date r - prev) :: go (date r) rest
       end) p rows.
Proof.
  revert p. induction rows as [|r rest IH]; intros p; [reflexivity|].
  simpl. f_equal. apply IH.
Qed.

Lemma intervals_fst (rows : list A) :
  fst <$> Sql.intervals date rows = tail rows.
Proof.
  unfold Sql.intervals. destruct rows as [|r rest]; [reflexivity|].
  simpl. rewrite intervals_lag_Some.
  generalize (date r). induction rest as [|x rest IH]; intros p; [reflexivity|].
  simpl. f_equal. apply IH.
Qed.

Lemma intervals_snd (rows : list A) :
  snd <$> Sql.intervals date rows = gaps_of (date <$> rows).
Proof.
  unfold Sql.intervals. destruct rows as [|r rest]; [reflexivity|].
  simpl Sql.lag. simpl omap. rewrite intervals_lag_Some.
  rewrite fmap_cons. generalize (date r).
  induction rest as [|x rest IH]; intros p; [reflexivity|].
  simpl. f_equal. apply IH.
Qed.

Lemma length_intervals (rows : list A) :
  length (Sql.intervals date rows) = (length rows - 1)%nat.
Proof.
  rewrite <- (length_fmap fst), intervals_fst.
  destruct rows; simpl; lia.
Qed.

Lemma insert_by_date_fmap (r : A) (l : list A) :
  date <$> Sql.insert_by (by_date date) r l
  = Sql.insert_by Z.leb (date r) (date <$> l).
Proof.
  induction l as [|y l IH]; [reflexivity|].
  simpl. unfold by_date at 1. destruct (date r <=? date y); [reflexivity|].
  rewrite fmap_cons, IH. reflexivity.
Qed.

Lemma order_by_date_fmap (rows : list A) :
  date <$> Sql.order_by (by_date date) rows = Sql.order_by Z.leb (date <$> rows).
Proof.
  induction rows as [|r rows IH]; [reflexivity|].
  change (date <$> Sql.insert_by (by_date date) r (Sql.order_by (by_date date) rows)
          = Sql.insert_by Z.leb (date r) (Sql.order_by Z.leb (date <$> rows))).
  rewrite insert_by_date_fmap, IH. reflexivity.
Qed.

End Intervals.

(** ** Windows over partitions *)

Section Windows.

Context {A B K : Type} `{EqDecision K}.
Variables (key : A -> K) (date : A -> Z) (make : A -> Z -> B).
Variables (key' : B -> K) (gap : B -> Z).
Hypothesis key_make : forall a z, key' (make a z) = key a.
Hypothesis gap_make : forall a z, gap (make a z) = z.

Lemma window_intervals_key (k : K) (rows : list A) (b : B) :
  (forall r, r ∈ rows -> key r = k) ->
  b ∈ window_intervals date make rows -> key' b = k.
Proof.
  intros Hk Hb. unfold window_intervals in Hb.
  apply list_elem_of_fmap in Hb as [p [-> Hp]]. rewrite key_make.
  apply Hk. apply (elem_of_order_by (by_date date)).
  assert (Hin : fst p ∈ fst <$> Sql.intervals date (Sql.order_by (by_date date) rows))
    by (apply list_elem_of_fmap; eauto).
  rewrite intervals_fst in Hin.
  destruct (Sql.order_by (by_date date) rows); [exact Hin|right; exact Hin].
Qed.

Lemma length_window_intervals (rows : list A) :
  length (window_intervals date make rows) = (length rows - 1)%nat.
Proof.
  unfold window_intervals. rewrite length_fmap, length_intervals, length_order_by.
  reflexivity.
Qed.

Lemma window_intervals_gaps (rows : list A) :
  gap <$> window_intervals date make rows
  = gaps_of (Sql.order_by Z.leb (date <$> rows)).
Proof.
  unfold window_intervals. rewrite <- list_fmap_compose.
  rewrite <- order_by_date_fmap, <- intervals_snd.
  apply list_fmap_ext. intros i p _. simpl. apply gap_make.
Qed.

(** The rows of one key in the output of the window are those made from
    the partition of that key. *)
Lemma partitioned_intervals_by_key (rows : list A) (k : K) :
  filter (fun b => key' b = k) (partitioned_intervals key date make rows)
  = if decide (k ∈ key <$> rows)
    then window_intervals date make (filter (fun r => key r = k) rows)
    else [].
Proof.
  unfold partitioned_intervals, Sql.group_by. rewrite list_fmap_bind.
  transitivity
    (if decide (k ∈ remove_dups (key <$> rows))
     then window_intervals date make (filter (fun r => key r = k) rows)
     else []).
  - apply (filter_bind_keys (remove_dups (key <$> rows))
             (fun k0 => window_intervals date make
                          (filter (fun r => key r = k0) rows))
             key' k).
    + apply NoDup_remove_dups.
    + intros k0 b Hb. eapply window_intervals_key; [|exact Hb].
      intros r Hr. apply list_elem_of_filter in Hr as [Hr _]. exact Hr.
  - destruct (decide (k ∈ remove_dups (key <$> rows))) as [H|H];
      destruct (decide (k ∈ key <$> rows)) as [H'|H']; try reflexivity;
      rewrite elem_of_remove_dups in H; contradiction.
Qed.

(** Grouping the output of the window by the same key: one group per
    partition of at least two rows, holding the rows made from it. *)
Lemma elem_of_regrouped (rows : list A) (k : K) (R : list B) :
  (k, R) ∈ Sql.group_by key' (partitioned_intervals key date make rows)
  <-> (2 <= length (filter (fun r => key r = k) rows))%nat
      /\ R = window_intervals date make (filter (fun r => key r = k) rows).
Proof.
  rewrite elem_of_group_by, partitioned_intervals_by_key.
  pose proof (length_window_intervals (filter (fun r => key r = k) rows)) as Hlen.
  split.
  - intros [Hk ->].
    apply list_elem_of_fmap in Hk as [b [Hkb Hb]].
    assert (Hin : b ∈ filter (fun b => key' b = k)
                       (partitioned_intervals key date make rows))
      by (apply list_elem_of_filter; auto).
    rewrite partitioned_intervals_by_key in Hin.
    destruct (decide (k ∈ key <$> rows)); [|apply elem_of_nil in Hin; contradiction].
    split; [|reflexivity].
    destruct (window_intervals date make (filter (fun r => key r = k) rows));
      [apply elem_of_nil in Hin; contradiction|].
    simpl in Hlen. lia.
  - intros [Hge ->].
    assert (Hk : k ∈ key <$> rows).
    { destruct (filter (fun r => key r = k) rows) as [|r l] eqn:E;
        [simpl in Hge; lia|].
      assert (Hr : r ∈ filter (fun r => key r = k) rows) by (rewrite E; left).
      apply list_elem_of_filter in Hr as [Hkr Hr].
      apply list_elem_of_fmap. exists r. auto. }
    rewrite decide_True by exact Hk. split; [|reflexivity].
    destruct (window_intervals date make (filter (fun r => key r = k) rows))
      as [|b l] eqn:E; [simpl in Hlen; lia|].
    apply list_elem_of_fmap. exists b. split.
    + symmetry. eapply window_intervals_key; [|rewrite E; left].
      intros r Hr. apply list_elem_of_filter in Hr as [Hr _]. exact Hr.
    + assert (Hb : b ∈ filter (fun b => key' b = k)
                        (partitioned_intervals key date make rows)).
      { rewrite partitioned_intervals_by_key, decide_True by exact Hk.
        rewrite E. left. }
      apply list_elem_of_filter in Hb as [_ Hb]. exact Hb.
Qed.

End Windows.

(** ** Groups of the auto-detect query *)

Lemma length_gaps_of (dates : list Z) :
  length (gaps_of dates) = (length dates - 1)%nat.
Proof.
  induction dates as [|a rest IH]; [reflexivity|].
  destruct rest as [|b rest]; [reflexivity|].
  change (S (length (gaps_of (b :: rest))) = (length (a :: b :: rest) - 1)%nat).
  rewrite IH. simpl. lia.
Qed.

Section AutoGroups.

Context {unicode : Js.Unicode} {collation : Sql.Collation}.

Variable jaro_winkler_similarity : string -> string -> Q.
Variable clock : Clock.
Variable txs : list Transaction.

Lemma elem_of_auto_groups (k : string * Z) (rows : list IntervalRow) :
  (k, rows) ∈ Sql.group_by interval_key
                (merchant_intervals
                   (grouped_transactions jaro_winkler_similarity (base_transactions txs)))
  <-> (2 <= length (group_members jaro_winkler_similarity txs k))%nat
      /\ rows = window_intervals g_date interval_row
                  (group_members jaro_winkler_similarity txs k).
Proof.
  unfold merchant_intervals.
  apply (elem_of_regrouped group_key g_date interval_row interval_key
           (fun _ _ => eq_refl)).
Qed.

Lemma auto_group_gaps (k : string * Z) :
  i_interval_days
    <$> window_intervals g_date interval_row
          (group_members jaro_winkler_similarity txs k)
  = group_gaps jaro_winkler_similarity txs k.
Proof.
  apply (window_intervals_gaps g_date interval_row i_interval_days
           (fun _ _ => eq_refl)).
Qed.

Lemma count_group_gaps (k : string * Z) :
  Sql.count (group_gaps jaro_winkler_similarity txs k)
  = Z.of_nat (length (group_members jaro_winkler_similarity txs k) - 1).
Proof.
  unfold Sql.count, group_gaps.
  rewrite length_gaps_of, length_order_by, length_fmap. reflexivity.
Qed.

(** A row of the query is the statistics of a group of charges whose gaps
    pass the filter, and every such group gives a row. *)
Lemma SUBSCRIPTION_SQL_with_groups K row :
  row ∈ SUBSCRIPTION_SQL_with jaro_winkler_similarity clock K txs <->
  exists k,
    periodicity_filter K (group_gaps jaro_winkler_similarity txs k) = true
    /\ stats_of_group clock
         (grouped_transactions jaro_winkler_similarity (base_transactions txs)) k
         (window_intervals g_date interval_row
            (group_members jaro_winkler_similarity txs k)) = Some row.
Proof.
  rewrite elem_of_SUBSCRIPTION_SQL_with. split.
  - intros ([k rows] & Hp & Hf & Hs). simpl in Hf, Hs.
    apply elem_of_auto_groups in Hp as [_ ->].
    rewrite auto_group_gaps in Hf. eauto.
  - intros (k & Hf & Hs).
    exists (k, window_intervals g_date interval_row
                 (group_members jaro_winkler_similarity txs k)).
    simpl. rewrite auto_group_gaps. split; [|auto].
    apply elem_of_auto_groups. split; [|reflexivity].
    apply periodicity_filter_range in Hf as [Hc _].
    rewrite count_group_gaps in Hc. lia.
Qed.

Lemma SUBSCRIPTION_SQL_with_row K row :
  row ∈ SUBSCRIPTION_SQL_with jaro_winkler_similarity clock K txs ->
  exists k,
    r_merchant_key row = Some (fst k)
    /\ periodicity_filter K (group_gaps jaro_winkler_similarity txs k) = true
    /\ r_occurrence_count row
       = Z.of_nat (length (group_members jaro_winkler_similarity txs k))
    /\ 3 <= r_occurrence_count row
    /\ r_avg_interval row
       = avg_interval_days (group_gaps jaro_winkler_similarity txs k).
Proof.
  intros H. apply SUBSCRIPTION_SQL_with_groups in H as (k & Hf & Hs).
  apply stats_of_group_Some in Hs as (Hc & Ha & Hk).
  rewrite auto_group_gaps in Hc, Ha.
  pose proof (periodicity_filter_range _ _ Hf) as [H2 _].
  rewrite count_group_gaps in Hc, H2.
  exists k. repeat split; auto; lia.
Qed.

End AutoGroups.

Section PeriodicityGate.

Context {unicode : Js.Unicode} {collation : Sql.Collation}.

(** C2: a group passes the HAVING clause of the auto-detect query exactly
    when it has at least 2 gaps (3 charges), its mean gap lies in [5, 400]
    and the sample standard deviation of its gaps is below the mean times
    the tolerance; the rows of the query are the statistics of the groups
    of charges whose gaps pass, with occurrence_count the number of
    charges; the tolerance written in the query is 0.5; a group of at most
    2 charges never passes; whatever passes at the tolerance 0.3 of the
    revision without merchant keys passes at 0.5. *)
Theorem periodicity_gate
    (jaro_winkler_similarity : string -> string -> Q) (clock : Clock) :
  (forall (K : Q) (gaps : list Z),
      periodicity_filter K gaps = true <->
      2 <= Sql.count gaps
      /\ (5 <= avg_interval_days gaps)%Q /\ (avg_interval_days gaps <= 400)%Q
      /\ (stddev_interval_days gaps < Q2R (avg_interval_days gaps * K))%R)
  /\ (forall K txs row,
         row ∈ SUBSCRIPTION_SQL_with jaro_winkler_similarity clock K txs <->
         exists k,
           periodicity_filter K (group_gaps jaro_winkler_similarity txs k) = true
           /\ stats_of_group clock
                (grouped_transactions jaro_winkler_similarity (base_transactions txs)) k
                (window_intervals g_date interval_row
                   (group_members jaro_winkler_similarity txs k)) = Some row)
  /\ (forall K txs row,
         row ∈ SUBSCRIPTION_SQL_with jaro_winkler_similarity clock K txs ->
         exists k,
           r_merchant_key row = Some (fst k)
           /\ periodicity_filter K (group_gaps jaro_winkler_similarity txs k) = true
           /\ r_occurrence_count row
              = Z.of_nat (length (group_members jaro_winkler_similarity txs k))
           /\ 3 <= r_occurrence_count row
           /\ r_avg_interval row
              = avg_interval_days (group_gaps jaro_winkler_similarity txs k))
  /\ (SUBSCRIPTION_SQL jaro_winkler_similarity clock
      = SUBSCRIPTION_SQL_with jaro_winkler_similarity clock (1 # 2))
  /\ (forall (K : Q) txs k,
         (length (group_members jaro_winkler_similarity txs k) <= 2)%nat ->
         periodicity_filter K (group_gaps jaro_winkler_similarity txs k) = false)
  /\ (forall gaps : list Z,
         periodicity_filter intervalConsistencyTolerance_v1 gaps = true ->
         periodicity_filter intervalConsistencyTolerance gaps = true).
Proof.
  split; [exact periodicity_filter_iff|].
  split; [intros K txs row; apply SUBSCRIPTION_SQL_with_groups|].
  split; [intros K txs row; apply SUBSCRIPTION_SQL_with_row|].
  split; [reflexivity|].
  split.
  - intros K txs k Hle. unfold periodicity_filter.
    rewrite count_group_gaps.
    destruct (Z.leb_spec 2
                (Z.of_nat (length (group_members jaro_winkler_similarity txs k) - 1)));
      [lia|reflexivity].
  - intros gaps. apply periodicity_filter_mono. discriminate.
Qed.

End PeriodicityGate.

(** ** Rows of the tagged query *)

Section ManualRows.

Context {unicode : Js.Unicode} {collation : Sql.Collation}.

Variable clock : Clock.
Variable tag : string.
Variable txs : list Transaction.

Lemma tagged_partition (k : option string) :
  filter (fun r => tg_merchant_key r = k) (tagged_transactions tag txs)
  = (fun t =>
       {| tg_merchant_key := Sql.upper <$> t_description t;
          tg_merchant := t_description t;
          tg_amount := Qabs (t_amount t);
          tg_date := t_date t |})
    <$> tagged_members tag txs k.
Proof.
  unfold tagged_transactions, tagged_members. rewrite filter_fmap. reflexivity.
Qed.

Lemma tagged_partition_dates (k : option string) :
  tg_date <$> filter (fun r => tg_merchant_key r = k) (tagged_transactions tag txs)
  = t_date <$> tagged_members tag txs k.
Proof. rewrite tagged_partition, <- list_fmap_compose. reflexivity. Qed.

Lemma tagged_partition_length (k : option string) :
  length (filter (fun r => tg_merchant_key r = k) (tagged_transactions tag txs))
  = length (tagged_members tag txs k).
Proof. rewrite tagged_partition, length_fmap. reflexivity. Qed.

(** The groups of the [grouped] CTE: one per key with at least two
    tagged debit transactions, holding the interval rows of that key. *)
Lemma elem_of_tagged_groups (k : option string) (rows : list TaggedInterval) :
  (k, rows) ∈ Sql.group_by ti_merchant_key
                (with_intervals (tagged_transactions tag txs))
  <-> (2 <= length (tagged_members tag txs k))%nat
      /\ rows = window_intervals tg_date tagged_interval
                  (filter (fun r => tg_merchant_key r = k)
                          (tagged_transactions tag txs)).
Proof.
  unfold with_intervals.
  rewrite (elem_of_regrouped tg_merchant_key tg_date tagged_interval ti_merchant_key
             (fun _ _ => eq_refl)).
  rewrite tagged_partition_length. reflexivity.
Qed.

End ManualRows.

Section ManualGroups.

Context {unicode : Js.Unicode} {collation : Sql.Collation}.

Variable clock : Clock.
Variable tag : string.
Variable txs : list Transaction.

Lemma elem_of_TAGGED_SQL row :
  row ∈ TAGGED_SQL clock tag txs <->
  exists k rows,
    (k, rows) ∈ Sql.group_by ti_merchant_key
                  (with_intervals (tagged_transactions tag txs))
    /\ manual_row_of_group clock tag txs k rows = Some row.
Proof.
  unfold TAGGED_SQL. rewrite elem_of_order_by, list_elem_of_omap. split.
  - intros [[k rows] [Hp H]]. exists k, rows. auto.
  - intros (k & rows & Hp & H). exists (k, rows). auto.
Qed.

Lemma manual_row_of_group_Some k rows row :
  manual_row_of_group clock tag txs k rows = Some row ->
  r_merchant_key row = k
  /\ r_occurrence_count row = Sql.count rows + 1
  /\ r_avg_interval row = avg_interval_days (ti_interval_days <$> rows).
Proof.
  unfold manual_row_of_group. intros H.
  destruct (Sql.avg (ti_amount <$> rows)) as [a|] eqn:Ea; [|discriminate].
  simpl in H.
  destruct (Sql.max_list (ti_date <$> rows)) as [mx|]; [|discriminate].
  destruct (Sql.min_list (ti_date <$> rows)) as [mn|]; [|discriminate].
  simpl in H. injection H as <-. simpl.
  split; [reflexivity|]. split; [reflexivity|].
  change (fun i => inject_Z (ti_interval_days i)) with (inject_Z ∘ ti_interval_days).
  rewrite list_fmap_compose, avg_of_gaps; [reflexivity|].
  unfold Sql.count. rewrite length_fmap. destruct rows; [discriminate|simpl; lia].
Qed.

Lemma manual_row_of_group_total k rows :
  rows <> [] -> exists row, manual_row_of_group clock tag txs k rows = Some row.
Proof.
  intros Hne. destruct rows as [|r rows]; [contradiction|].
  unfold manual_row_of_group. simpl. eauto.
Qed.

(** The row of a key with at least two tagged debit transactions. *)
Lemma TAGGED_SQL_row_of_key k row :
  row ∈ TAGGED_SQL clock tag txs -> r_merchant_key row = k ->
  (2 <= length (tagged_members tag txs k))%nat
  /\ r_occurrence_count row = Z.of_nat (length (tagged_members tag txs k))
  /\ r_avg_interval row
     = avg_interval_days
         (gaps_of (Sql.order_by Z.leb (t_date <$> tagged_members tag txs k))).
Proof.
  intros Hrow Hk. apply elem_of_TAGGED_SQL in Hrow as (k' & rows & Hp & Hrow).
  apply manual_row_of_group_Some in Hrow as (Hk' & Hc & Ha).
  rewrite Hk in Hk'. subst k'.
  apply elem_of_tagged_groups in Hp as [Hge ->].
  split; [exact Hge|]. split.
  - rewrite Hc. unfold Sql.count.
    rewrite length_window_intervals, tagged_partition_length. lia.
  - rewrite Ha.
    rewrite (window_intervals_gaps tg_date tagged_interval ti_interval_days
               (fun _ _ => eq_refl)).
    rewrite tagged_partition_dates. reflexivity.
Qed.

Lemma TAGGED_SQL_has_key k :
  (2 <= length (tagged_members tag txs k))%nat ->
  exists row, row ∈ TAGGED_SQL clock tag txs /\ r_merchant_key row = k.
Proof.
  intros Hge.
  set (rows := window_intervals tg_date tagged_interval
                 (filter (fun r => tg_merchant_key r = k)
                         (tagged_transactions tag txs))).
  assert (Hp : (k, rows) ∈ Sql.group_by ti_merchant_key
                             (with_intervals (tagged_transactions tag txs)))
    by (apply elem_of_tagged_groups; auto).
  assert (Hne : rows <> []).
  { intros E. pose proof (length_window_intervals tg_date tagged_interval
                            (filter (fun r => tg_merchant_key r = k)
                                    (tagged_transactions tag txs))) as Hlen.
    fold rows in Hlen. rewrite E, tagged_partition_length in Hlen.
    simpl in Hlen. lia. }
  destruct (manual_row_of_group_total k rows Hne) as [row Hrow].
  exists row. split.
  - apply elem_of_TAGGED_SQL. eauto.
  - apply manual_row_of_group_Some in Hrow. tauto.
Qed.

End ManualGroups.

Section TaggedPath.

Context {unicode : Js.Unicode} {collation : Sql.Collation}.

Lemma manual_interval_default row :
  ((r_avg_interval row == 0)%Q -> interval_days (manualSubs_of_row row) = 30)
  /\ (~ (r_avg_interval row == 0)%Q ->
      interval_days (manualSubs_of_row row) = Js.round (r_avg_interval row)).
Proof.
  simpl. unfold Js.num_or. split; intros H.
  - apply Qeq_bool_iff in H. rewrite H. reflexivity.
  - destruct (Qeq_bool (r_avg_interval row) 0) eqn:E; [|reflexivity].
    apply Qeq_bool_iff in E. contradiction.
Qed.

(** C4, as the code has it: with a non-empty tag, every uppercased
    description shared by at least 2 tagged debit transactions gives a row
    of the tagged query, with no gate on occurrences, interval range or
    deviation (and only those descriptions give rows); the row counts the
    transactions of the group and its [avg_interval] is the mean of the
    gaps between their dates in ascending order, also when there is only
    one gap; the callback replaces a zero mean by 30 and marks the
    subscription [is_manual = true]; when the trimmed tag is empty the
    manual list of the run is empty. *)
Theorem manual_path_takes_every_tagged_group
    (jaro_winkler_similarity : string -> string -> Q)
    (clock : Clock) (tag : string) (txs : list Transaction) (k : option string) :
  (2 <= length (tagged_members tag txs k))%nat ->
  (exists row,
      row ∈ TAGGED_SQL clock tag txs
      /\ r_merchant_key row = k
      /\ r_occurrence_count row = Z.of_nat (length (tagged_members tag txs k))
      /\ r_avg_interval row
         = avg_interval_days
             (gaps_of (Sql.order_by Z.leb (t_date <$> tagged_members tag txs k)))
      /\ is_manual (manualSubs_of_row row) = true
      /\ ((r_avg_interval row == 0)%Q -> interval_days (manualSubs_of_row row) = 30)
      /\ (~ (r_avg_interval row == 0)%Q ->
          interval_days (manualSubs_of_row row) = Js.round (r_avg_interval row)))
  /\ (forall row,
         row ∈ TAGGED_SQL clock tag txs ->
         (2 <= length (tagged_members tag txs (r_merchant_key row)))%nat)
  /\ (forall st sdk autoDetected manualSubs,
         run_lists jaro_winkler_similarity st sdk autoDetected manualSubs ->
         (forall s, s ∈ manualSubs -> is_manual s = true)
         /\ (Js.truthy (Js.trim (subscriptionTag st)) = false -> manualSubs = [])
         /\ (Js.truthy (Js.trim (subscriptionTag st)) = true ->
             exists db,
               sdk_tagged_query sdk = Ok db
               /\ manualSubs
                  = manualSubs_of_row
                      <$> TAGGED_SQL (sdk_clock sdk) (Js.trim (subscriptionTag st))
                            (transactions db))).
Proof.
  intros Hge. split; [|split].
  - destruct (TAGGED_SQL_has_key clock tag txs k Hge) as (row & Hrow & Hk).
    destruct (TAGGED_SQL_row_of_key clock tag txs k row Hrow Hk) as (_ & Hc & Ha).
    destruct (manual_interval_default row) as [H0 Hn0].
    exists row. repeat split; auto.
  - intros row Hrow.
    destruct (TAGGED_SQL_row_of_key clock tag txs _ row Hrow eq_refl) as (H & _).
    exact H.
  - intros st sdk a m Hrun. split; [|split].
    + intros s Hs. destruct (run_lists_manual _ _ _ _ _ _ Hrun Hs) as [row ->].
      reflexivity.
    + intros Hempty. destruct Hrun as [db1 db2 _ Ht _|db1 _ _]; [congruence|reflexivity].
    + intros Htag. destruct Hrun as [db1 db2 _ _ E2|db1 _ Ht]; [eauto|congruence].
Qed.

End TaggedPath.

Lemma manual_path_takes_every_tagged_group_witness :
  exists row,
    row ∈ TAGGED_SQL (clock_on 150 60) "subscriptions" streaming
    /\ r_merchant_key row = Some "NETFLIX.COM LOS GATOS CA"
    /\ r_occurrence_count row = 3
    /\ r_avg_interval row = avg_interval_days [61; 28].
Proof.
  destruct (manual_path_takes_every_tagged_group prefix_similarity
              (clock_on 150 60) "subscriptions" streaming
              (Some "NETFLIX.COM LOS GATOS CA")) as [(row & H1 & H2 & H3 & H4 & _) _].
  - vm_compute. lia.
  - exists row. repeat split; assumption.
Defined.

(** C4, as stated, fails on a group with exactly one gap: two tagged
    charges a year apart give an average interval of 365 days (an annual
    subscription), not the default of 30. *)
Lemma single_gap_is_not_defaulted :
  detect_try prefix_similarity idle (sdk_on 400 365 yearly_pair) = Ok [domain_renewal]
  /\ occurrence_count domain_renewal = 2
  /\ interval_days domain_renewal = 365
  /\ ~ (forall clock tag txs row,
           row ∈ TAGGED_SQL clock tag txs ->
           r_occurrence_count row = 2 -> (r_avg_interval row == 30)%Q).
Proof.
  split; [vm_compute; reflexivity|].
  split; [reflexivity|]. split; [reflexivity|].
  intros H.
  specialize (H (clock_on 400 365) "subscriptions" yearly_pair
                {| r_merchant := Some "Domain Renewal";
                   r_merchant_key := Some "DOMAIN RENEWAL";
                   r_avg_amount := 1200 # 100;
                   r_occurrence_count := 2;
                   r_avg_interval := 365;
                   r_last_charge := 365;
                   r_first_charge := 365;
                   r_ytd_cost := 1200 # 100;
                   r_days_since_last := 35 |}).
  assert (Hq : (365 == 30)%Q); [|discriminate Hq].
  apply H; [vm_compute; left|reflexivity].
Qed.

(** ** The fingerprint is a pair *)

(** The first word is what precedes the first space: a TAB does not end
    it, and a leading space makes it empty. *)
Example split_space_head_examples :
  Js.split_space_head "ACME CORP" = "ACME"
  /\ Js.split_space_head (String (ascii_of_nat 9) "ACME") = String (ascii_of_nat 9) "ACME"
  /\ Js.split_space_head ("ACME" +:+ String (ascii_of_nat 9) "CORP")
     = "ACME" +:+ String (ascii_of_nat 9) "CORP"
  /\ Js.split_space_head " ACME" = ""
  /\ amountFirstWord acme_detected = "9.99|ACME"
  /\ amountFirstWord acme_tagged = "9.99|ACME".
Proof. vm_compute. repeat split; reflexivity. Qed.

Section Fingerprint.

Context {unicode : Js.Unicode} {collation : Sql.Collation}.

Lemma has_char_app (c : ascii) (a b : string) :
  has_char c (a +:+ b) = has_char c a || has_char c b.
Proof.
  induction a as [|x a IH]; [reflexivity|].
  change (Ascii.eqb x c || has_char c (a +:+ b)
          = Ascii.eqb x c || has_char c a || has_char c b).
  rewrite IH, orb_assoc. reflexivity.
Qed.

Lemma string_of_uint_no_bar (u : Decimal.uint) :
  has_char "|" (NilEmpty.string_of_uint u) = false.
Proof. induction u; simpl; auto. Qed.

Lemma nilzero_string_of_uint_no_bar (u : Decimal.uint) :
  has_char "|" (NilZero.string_of_uint u) = false.
Proof.
  destruct u; try apply string_of_uint_no_bar. reflexivity.
Qed.

Lemma toFixed2_no_bar (x : Q) : has_char "|" (Js.toFixed2 x) = false.
Proof.
  unfold Js.toFixed2, Js.two_digits.
  rewrite !has_char_app, !nilzero_string_of_uint_no_bar.
  destruct (Qle_bool 0 x);
    destruct (Qfloor (Qabs x * 100 + (1 # 2)) mod 100 <? 10); reflexivity.
Qed.

Lemma append_bar_inj (s1 s2 w1 w2 : string) :
  has_char "|" s1 = false -> has_char "|" s2 = false ->
  s1 +:+ "|" +:+ w1 = s2 +:+ "|" +:+ w2 -> s1 = s2 /\ w1 = w2.
Proof.
  revert s2. induction s1 as [|a s1 IH]; intros [|b s2] H1 H2 Heq.
  - change (String "|" w1 = String "|" w2) in Heq. injection Heq as ->. auto.
  - exfalso. change (String "|" w1 = String b (s2 +:+ "|" +:+ w2)) in Heq.
    injection Heq as <- _. simpl in H2. discriminate.
  - exfalso. change (String a (s1 +:+ "|" +:+ w1) = String "|" w2) in Heq.
    injection Heq as -> _. simpl in H1. discriminate.
  - change (String a (s1 +:+ "|" +:+ w1) = String b (s2 +:+ "|" +:+ w2)) in Heq.
    injection Heq as -> Heq. simpl in H1, H2.
    apply orb_false_iff in H1 as [_ H1]. apply orb_false_iff in H2 as [_ H2].
    destruct (IH s2 H1 H2 Heq) as [-> ->]. auto.
Qed.

Lemma matches_fingerprint_pair (d m : Subscription) :
  matches_fingerprint d m <->
  Js.toFixed2 (amount d) = Js.toFixed2 (amount m)
  /\ Js.split_space_head (Js.toUpperCase (merchant d))
     = Js.split_space_head (Js.toUpperCase (merchant m)).
Proof.
  unfold matches_fingerprint, amountFirstWord. split.
  - apply append_bar_inj; apply toFixed2_no_bar.
  - intros [-> ->]. reflexivity.
Qed.

(** C1, as the code has it: the merged list is the detected list, entry
    by entry and in order, each entry unchanged but for [is_manual], which
    is true exactly when some manual subscription has the same
    [merchant_key] or the same fingerprint (the amount printed with two
    decimals paired with the text before the first space of the uppercased
    merchant name), followed by the manual subscriptions that match no
    detected one by either rule, unmodified, in order and with
    [is_manual = true]; a manual subscription that matches a detected one
    is not appended. *)
Theorem merge_marks_and_appends_unmatched (autoDetected manualSubs : list Subscription) :
  (forall m, m ∈ manualSubs -> is_manual m = true) ->
  merge autoDetected manualSubs
  = markedAutoDetected autoDetected manualSubs ++ uniqueManual autoDetected manualSubs
  /\ length (markedAutoDetected autoDetected manualSubs) = length autoDetected
  /\ (forall i d,
         autoDetected !! i = Some d ->
         exists d',
           merge autoDetected manualSubs !! i = Some d'
           /\ same_statistics d d'
           /\ (is_manual d' = true <-> exists m, m ∈ manualSubs /\ matches d m))
  /\ (forall m,
         m ∈ uniqueManual autoDetected manualSubs
         <-> m ∈ manualSubs /\ forall d, d ∈ autoDetected -> ~ matches d m)
  /\ uniqueManual autoDetected manualSubs `sublist_of` manualSubs
  /\ (forall m, m ∈ uniqueManual autoDetected manualSubs -> is_manual m = true)
  /\ (forall d m,
         matches_fingerprint d m <->
         Js.toFixed2 (amount d) = Js.toFixed2 (amount m)
         /\ Js.split_space_head (Js.toUpperCase (merchant d))
            = Js.split_space_head (Js.toUpperCase (merchant m))).
Proof.
  intros Hman. split; [reflexivity|].
  split; [apply length_markedAutoDetected|].
  split.
  - intros i d Hd. exists (with_is_manual d (isAlsoManual manualSubs d)).
    split; [|split].
    + unfold merge. apply lookup_app_l_Some. apply markedAutoDetected_lookup. exact Hd.
    + reflexivity.
    + apply isAlsoManual_true.
  - split; [apply elem_of_uniqueManual|].
    split; [apply sublist_filter|].
    split; [|apply matches_fingerprint_pair].
    intros m Hm. apply Hman. apply elem_of_uniqueManual in Hm. tauto.
Qed.

End Fingerprint.

Lemma merge_marks_and_appends_unmatched_witness :
  merge [acme_detected] [acme_tagged] = [with_is_manual acme_detected true].
Proof.
  destruct (merge_marks_and_appends_unmatched [acme_detected] [acme_tagged])
    as (Hshape & _).
  - intros m Hm. apply list_elem_of_singleton in Hm. subst m. reflexivity.
  - rewrite Hshape. vm_compute. reflexivity.
Defined.

(** C1, as stated, fails where the detected list holds one merchant
    twice: after a price change the auto-detect query returns one group per
    amount under the same [merchant_key]; the tagged group matches both by
    rule 1, and the merged list holds the merchant twice. *)
Lemma matched_merchant_can_appear_twice :
  (merchant_key <$> (manualSubs_of_row
                       <$> TAGGED_SQL (clock_on 160 0) "subscriptions" price_change))
  = ["NETFLIX"]
  /\ (exists final,
         detect_try prefix_similarity idle (sdk_on 160 0 price_change) = Ok final
         /\ merchant_key <$> final = ["NETFLIX"; "NETFLIX"]
         /\ is_manual <$> final = [true; true]
         /\ amount <$> final = [1799 # 100; 1599 # 100])
  /\ ~ (forall st sdk autoDetected manualSubs m,
           run_lists prefix_similarity st sdk autoDetected manualSubs ->
           m ∈ manualSubs ->
           (exists d, d ∈ autoDetected /\ matches d m) ->
           length (filter (fun s => merchant_key s = merchant_key m)
                          (merge autoDetected manualSubs)) = 1%nat).
Proof.
  split; [vm_compute; reflexivity|]. split.
  - eexists. split; [vm_compute; reflexivity|]. repeat split; reflexivity.
  - intros H.
    pose proof (H idle (sdk_on 160 0 price_change) _ _ netflix_tagged
                  (run_with_tag prefix_similarity idle (sdk_on 160 0 price_change)
                     (mkDb price_change []) (mkDb price_change [])
                     eq_refl eq_refl eq_refl)) as Hlen.
    assert (Hm : netflix_tagged
                 ∈ manualSubs_of_row
                     <$> TAGGED_SQL (clock_on 160 0) "subscriptions" price_change)
      by (vm_compute; left).
    assert (Hd : exists d,
               d ∈ autoDetected_of_row
                     <$> SUBSCRIPTION_SQL prefix_similarity (clock_on 160 0) price_change
               /\ matches d netflix_tagged).
    { eexists. split; [vm_compute; left|]. left. reflexivity. }
    specialize (Hlen Hm Hd). vm_compute in Hlen. discriminate Hlen.
Qed.

(** * Further properties of the component *)

(** ** Sorting *)

Section Sorting.

Context {A : Type} (leb : A -> A -> bool).
Hypothesis leb_total : forall x y, leb x y = true \/ leb y x = true.
Hypothesis leb_trans : forall x y z, leb x y = true -> leb y z = true -> leb x z = true.

Lemma insert_by_sorted (x : A) (l : list A) :
  StronglySorted (fun a b => leb a b = true) l ->
  StronglySorted (fun a b => leb a b = true) (Sql.insert_by leb x l).
Proof.
  induction 1 as [|y l Hs IH Hall]; simpl.
  - constructor; [constructor|constructor].
  - destruct (leb x y) eqn:E.
    + constructor; [constructor; assumption|].
      constructor; [exact E|].
      eapply Forall_impl; [exact Hall|]. intros z Hz. eapply leb_trans; eauto.
    + constructor; [exact IH|].
      rewrite (insert_by_Permutation leb x l).
      constructor; [|exact Hall].
      destruct (leb_total x y) as [H|H]; [congruence|exact H].
Qed.

Lemma order_by_sorted (l : list A) :
  StronglySorted (fun a b => leb a b = true) (Sql.order_by leb l).
Proof.
  induction l as [|x l IH]; [constructor|].
  apply insert_by_sorted. exact IH.
Qed.

End Sorting.

Section SortedTable.

Context {unicode : Js.Unicode} {collation : Sql.Collation}.

Lemma StronglySorted_lookup {A} (R : A -> A -> Prop) (l : list A) (i j : nat) (a b : A) :
  StronglySorted R l -> (i < j)%nat -> l !! i = Some a -> l !! j = Some b -> R a b.
Proof.
  intros Hs. revert i j. induction Hs as [|x l Hs IH Hall]; intros i j Hij Hi Hj.
  - discriminate.
  - destruct j as [|j]; [lia|]. destruct i as [|i].
    + injection Hi as <-. simpl in Hj.
      rewrite Forall_forall in Hall. apply Hall. eapply list_elem_of_lookup_2. exact Hj.
    + simpl in Hi, Hj. apply (IH i j); [lia|assumption|assumption].
Qed.

Lemma cost_leb_total (x y : Subscription) :
  match by_annual_cost_desc x y with Gt => false | _ => true end = true
  \/ match by_annual_cost_desc y x with Gt => false | _ => true end = true.
Proof.
  unfold by_annual_cost_desc.
  destruct (annual_cost x) as [a|], (annual_cost y) as [b|]; auto.
  destruct (Qcompare_spec b a) as [H|H|H]; auto.
  destruct (Qcompare_spec a b) as [H'|H'|H']; auto.
  exfalso. exact (Qlt_irrefl _ (Qlt_trans _ _ _ H H')).
Qed.

Lemma cost_leb_ge (x y : Subscription) :
  match by_annual_cost_desc x y with Gt => false | _ => true end = true
  <-> cost_ge (annual_cost x) (annual_cost y).
Proof.
  unfold by_annual_cost_desc, cost_ge.
  destruct (annual_cost x) as [a|], (annual_cost y) as [b|]; try tauto.
  - destruct (Qcompare_spec b a) as [H|H|H]; split; intros H'; try reflexivity.
    + rewrite H. apply Qle_refl.
    + apply Qlt_le_weak. exact H.
    + discriminate.
    + exfalso. exact (Qlt_not_le _ _ H H').
  - split; [discriminate|contradiction].
Qed.

Lemma cost_ge_trans (a b c : option Q) : cost_ge a b -> cost_ge b c -> cost_ge a c.
Proof.
  unfold cost_ge. destruct a, b, c; try tauto. intros. eapply Qle_trans; eauto.
Qed.

(** X1: the table shows exactly the visible subscriptions, each as often
    as it is visible, in descending order of annual cost (a non-finite
    cost first); the selected row is a visible subscription. *)
Theorem sortedSubscriptions_descending (st : State) :
  sortedSubscriptions st ≡ₚ visibleSubscriptions st
  /\ (forall i j a b,
         (i < j)%nat ->
         sortedSubscriptions st !! i = Some a ->
         sortedSubscriptions st !! j = Some b ->
         cost_ge (annual_cost a) (annual_cost b))
  /\ (forall v s, component v = st -> selectedSubscription v = Some s ->
                  s ∈ visibleSubscriptions st).
Proof.
  split; [apply order_by_Permutation|]. split.
  - intros i j a b Hij Hi Hj. apply cost_leb_ge.
    refine (StronglySorted_lookup
              (fun x y => match by_annual_cost_desc x y with Gt => false | _ => true end
                          = true)
              _ i j a b _ Hij Hi Hj).
    apply (order_by_sorted
             (fun x y => match by_annual_cost_desc x y with Gt => false | _ => true end)).
    + apply cost_leb_total.
    + intros x y z. rewrite !cost_leb_ge. apply cost_ge_trans.
  - intros v s <- Hs. unfold selectedSubscription in Hs.
    destruct (cursorIndex v <? 0); [discriminate|].
    apply list_elem_of_lookup_2 in Hs.
    apply (elem_of_order_by _ s (visibleSubscriptions (component v))) in Hs. exact Hs.
Qed.

End SortedTable.

(** ** Counters and totals *)

Lemma active_stale_Permutation (hidden : gset string) (l : list Subscription) :
  filter (fun s => negb (bool_decide (merchant_key s ∈ hidden)) && negb (is_stale s) = true) l
  ++ filter (fun s => negb (bool_decide (merchant_key s ∈ hidden)) && is_stale s = true) l
  ≡ₚ filter (fun s => merchant_key s ∉ hidden) l.
Proof.
  induction l as [|s l IH]; [reflexivity|].
  rewrite !filter_cons.
  destruct (decide (merchant_key s ∈ hidden)) as [Hh|Hh].
  - rewrite (bool_decide_eq_true_2 _ Hh). simpl.
    destruct (decide (false = true)) as [?|_]; [discriminate|].
    destruct (decide (merchant_key s ∉ hidden)) as [?|_]; [contradiction|]. exact IH.
  - rewrite (bool_decide_eq_false_2 _ Hh). simpl.
    destruct (decide (merchant_key s ∉ hidden)) as [_|?]; [|contradiction].
    destruct (is_stale s); simpl.
    + destruct (decide (false = true)) as [?|_]; [discriminate|].
      destruct (decide (true = true)) as [_|?]; [|contradiction].
      rewrite <- Permutation_middle. constructor. exact IH.
    + destruct (decide (true = true)) as [_|?]; [|contradiction].
      destruct (decide (false = true)) as [?|_]; [discriminate|].
      simpl. constructor. exact IH.
Qed.

Lemma filter_complement_length {A} (P : A -> Prop) `{forall x, Decision (P x)}
    (l : list A) :
  (length (filter P l) + length (filter (fun x => ~ P x) l) = length l)%nat.
Proof.
  rewrite <- length_app, (filter_app_complement P l). reflexivity.
Qed.

(** X2: the active and the inactive subscriptions together are exactly
    the subscriptions that are not hidden; none is in both; the two counts
    and the number of hidden entries add up to the length of the list. *)
Theorem active_and_stale_partition (st : State) :
  activeSubscriptions st ++ staleSubscriptions st
  ≡ₚ filter (fun s => merchant_key s ∉ hiddenMerchantKeys st) (subscriptions st)
  /\ (forall s, s ∈ activeSubscriptions st -> s ∉ staleSubscriptions st)
  /\ (activeCount st + staleCount st
      + length (filter (fun s => merchant_key s ∈ hiddenMerchantKeys st) (subscriptions st))
      = length (subscriptions st))%nat.
Proof.
  split; [apply active_stale_Permutation|]. split.
  - unfold activeSubscriptions, staleSubscriptions. intros s Ha Hs.
    apply list_elem_of_filter in Ha as [Ha _]. apply list_elem_of_filter in Hs as [Hs _].
    apply andb_true_iff in Ha as [_ Ha]. apply andb_true_iff in Hs as [_ Hs].
    rewrite Hs in Ha. discriminate.
  - unfold activeCount, staleCount. rewrite <- length_app.
    rewrite (active_stale_Permutation (hiddenMerchantKeys st) (subscriptions st)).
    pose proof (filter_complement_length
                  (fun s => merchant_key s ∈ hiddenMerchantKeys st) (subscriptions st)).
    lia.
Qed.

Lemma foldl_js_add_None (acc : option Q) (l : list Subscription) :
  foldl (fun sum s => js_add sum (annual_cost s)) acc l = None
  <-> acc = None \/ exists s, s ∈ l /\ annual_cost s = None.
Proof.
  revert acc. induction l as [|x l IH]; intros acc; simpl.
  - split; [auto|]. intros [H|[s [Hs _]]]; [exact H|]. apply elem_of_nil in Hs. contradiction.
  - rewrite IH. split.
    + intros [H|[s [Hs Hn]]].
      * destruct acc as [a|]; [|auto]. destruct (annual_cost x) eqn:E; [discriminate|].
        right. exists x. split; [left|exact E].
      * right. exists s. split; [right; exact Hs|exact Hn].
    + intros [->|[s [Hs Hn]]]; [left; reflexivity|].
      apply elem_of_cons in Hs as [->|Hs].
      * left. rewrite Hn. destruct acc; reflexivity.
      * right. eauto.
Qed.

Lemma foldl_ytd_acc (acc : Q) (l : list Subscription) :
  (foldl (fun sum s => sum + ytd_cost s) acc l
   == acc + foldl (fun sum s => sum + ytd_cost s) 0 l)%Q.
Proof.
  revert acc. induction l as [|x l IH]; intros acc; simpl.
  - ring.
  - rewrite (IH (acc + ytd_cost x)%Q), (IH (0 + ytd_cost x)%Q). ring.
Qed.

Lemma foldl_ytd_split (hidden : gset string) (l : list Subscription) :
  (foldl (fun sum s => sum + ytd_cost s) 0
         (filter (fun s => negb (bool_decide (merchant_key s ∈ hidden)) = true) l)
   + foldl (fun sum s => sum + ytd_cost s) 0
           (filter (fun s => merchant_key s ∈ hidden) l)
   == foldl (fun sum s => sum + ytd_cost s) 0 l)%Q.
Proof.
  induction l as [|x l IH]; [reflexivity|].
  rewrite !filter_cons. simpl foldl at 3.
  rewrite (foldl_ytd_acc (0 + ytd_cost x)%Q l), <- IH.
  destruct (decide (merchant_key x ∈ hidden)) as [Hh|Hh].
  - rewrite (bool_decide_eq_true_2 _ Hh). simpl.
    destruct (decide (false = true)) as [?|_]; [discriminate|].
    simpl. rewrite (foldl_ytd_acc (0 + ytd_cost x)%Q). ring.
  - rewrite (bool_decide_eq_false_2 _ Hh). simpl.
    destruct (decide (true = true)) as [_|?]; [|contradiction].
    simpl. rewrite (foldl_ytd_acc (0 + ytd_cost x)%Q). ring.
Qed.

(** X3: the estimated annual total is non-finite exactly when some
    active subscription (not hidden, not stale) has a non-finite annual
    cost, and then so is the monthly total; the year-to-date total and the
    year-to-date cost of the hidden entries add up to that of the whole
    list. *)
Theorem totals_over_visible (st : State) :
  (totalAnnualCost st = None
   <-> exists s, s ∈ activeSubscriptions st /\ annual_cost s = None)
  /\ (totalMonthlyCost st = None <-> totalAnnualCost st = None)
  /\ (totalYTDCost st
      + foldl (fun sum s => sum + ytd_cost s) 0
              (filter (fun s => merchant_key s ∈ hiddenMerchantKeys st) (subscriptions st))
      == foldl (fun sum s => sum + ytd_cost s) 0 (subscriptions st))%Q.
Proof.
  split; [|split].
  - unfold totalAnnualCost. rewrite foldl_js_add_None. split.
    + intros [H|H]; [discriminate|exact H].
    + auto.
  - unfold totalMonthlyCost. destruct (totalAnnualCost st); simpl; split; congruence.
  - apply foldl_ytd_split.
Qed.

(** ** The cursor *)

Section Cursor.

Context {unicode : Js.Unicode} {collation : Sql.Collation}.

Lemma filter_length_mono {A} (P Q : A -> Prop)
    `{forall x, Decision (P x)} `{forall x, Decision (Q x)} (l : list A) :
  (forall x, P x -> Q x) -> (length (filter P l) <= length (filter Q l))%nat.
Proof.
  intros HPQ. induction l as [|x l IH]; [reflexivity|].
  rewrite !filter_cons.
  destruct (decide (P x)) as [Hp|Hp].
  - destruct (decide (Q x)) as [_|Hq]; [simpl; lia|]. exfalso. auto.
  - destruct (decide (Q x)); simpl; lia.
Qed.

Lemma length_sortedSubscriptions (st : State) :
  length (sortedSubscriptions st) = length (visibleSubscriptions st).
Proof. apply length_order_by. Qed.

(** Clearing the query never shortens the list. *)
Lemma clear_query_length (st : State) :
  (length (sortedSubscriptions st)
   <= length (sortedSubscriptions (set_searchQuery st "")))%nat.
Proof.
  rewrite !length_sortedSubscriptions. unfold visibleSubscriptions. simpl.
  apply filter_length_mono. intros s.
  destruct (negb (showHidden st)
            && bool_decide (merchant_key s ∈ hiddenMerchantKeys st)); auto.
Qed.

Lemma handleKeyDown_cursor (v : View) (key : string) :
  0 <= cursorIndex v < Z.of_nat (length (sortedSubscriptions (component v))) ->
  0 <= cursorIndex (fst (handleKeyDown v key))
    < Z.of_nat (length (sortedSubscriptions (component (fst (handleKeyDown v key))))).
Proof.
  intros Hr. pose proof (clear_query_length (component v)) as Hq.
  unfold handleKeyDown.
  destruct (searchFocused v).
  { destruct (bool_decide (key = "Escape")); simpl; lia. }
  destruct (bool_decide (key = "j") || bool_decide (key = "ArrowDown")); [simpl; lia|].
  destruct (bool_decide (key = "k") || bool_decide (key = "ArrowUp")); [simpl; lia|].
  destruct (bool_decide (key = "Enter"));
    [destruct (selectedSubscription v); simpl; lia|].
  destruct (bool_decide (key = "h"));
    [destruct (selectedSubscription v); simpl; lia|].
  destruct (bool_decide (key = "/")); [simpl; lia|].
  destruct (bool_decide (key = "Escape")); simpl; lia.
Qed.

Lemma clamp_cursor_component (v : View) : component (clamp_cursor v) = component v.
Proof.
  unfold clamp_cursor.
  destruct (Z.of_nat (length (sortedSubscriptions (component v))) <=? cursorIndex v);
    reflexivity.
Qed.

Lemma clamp_cursor_spec (v : View) :
  0 <= cursorIndex v ->
  0 <= cursorIndex (clamp_cursor v)
  /\ (sortedSubscriptions (component v) <> [] ->
      cursorIndex (clamp_cursor v)
      < Z.of_nat (length (sortedSubscriptions (component v))))
  /\ (sortedSubscriptions (component v) = [] -> cursorIndex (clamp_cursor v) = 0).
Proof.
  intros H0. unfold clamp_cursor.
  set (n := Z.of_nat (length (sortedSubscriptions (component v)))).
  assert (Hnil : sortedSubscriptions (component v) = [] <-> n = 0).
  { unfold n. destruct (sortedSubscriptions (component v)); simpl; split;
      try discriminate; try reflexivity; lia. }
  assert (Hn : 0 <= n) by (unfold n; lia).
  destruct (Z.leb_spec n (cursorIndex v)) as [Hle|Hlt].
  - change (cursorIndex (set_cursorIndex v (Z.max 0 (n - 1)))) with (Z.max 0 (n - 1)).
    split; [lia|]. split.
    + intros Hne. assert (n <> 0) by (rewrite <- Hnil; exact Hne). lia.
    + intros E. apply Hnil in E. lia.
  - split; [exact H0|]. split; [intros _; exact Hlt|].
    intros E. apply Hnil in E. lia.
Qed.

Lemma perform_cursor hidden restored (p : View * Db) (request : Request) :
  cursorIndex (fst (perform hidden restored p request)) = cursorIndex (fst p).
Proof. destruct request; reflexivity. Qed.

Lemma foldl_perform_cursor hidden restored (requests : list Request) (p : View * Db) :
  cursorIndex (fst (foldl (perform hidden restored) p requests)) = cursorIndex (fst p).
Proof.
  revert p. induction requests as [|r requests IH]; intros p; [reflexivity|].
  simpl. rewrite IH. apply perform_cursor.
Qed.

(** Only the h key changes the component after the handler has run. *)
Lemma key_press_component (v : View) (db : Db) hidden restored (key : string) :
  key <> "h" ->
  component (fst (key_press v db hidden restored key))
  = component (fst (handleKeyDown v key)).
Proof.
  intros Hh. unfold key_press. simpl. rewrite clamp_cursor_component.
  unfold handleKeyDown.
  destruct (searchFocused v).
  { destruct (bool_decide (key = "Escape")); reflexivity. }
  destruct (bool_decide (key = "j") || bool_decide (key = "ArrowDown")); [reflexivity|].
  destruct (bool_decide (key = "k") || bool_decide (key = "ArrowUp")); [reflexivity|].
  destruct (bool_decide (key = "Enter"));
    [destruct (selectedSubscription v); reflexivity|].
  case_bool_decide; [contradiction|].
  destruct (bool_decide (key = "/")); [reflexivity|].
  destruct (bool_decide (key = "Escape")); reflexivity.
Qed.

(** X5: with a non-empty table and the cursor on one of its rows, a key
    press (the handler, the hiding or restoring it calls, and the bounds
    effect) leaves the cursor at 0 or above; when the table is not empty
    afterwards the cursor is on one of its rows and that row is selected;
    when it is empty the cursor is at 0 and nothing is selected.  Only
    the h key can empty the table (by hiding every row that is left): j
    and k stop at the last and first row, and Escape, which clears the
    search, can only lengthen the table. *)
Theorem cursor_stays_on_a_row
    (v : View) (db : Db) (hidden : Try Z) (restored : Try unit) (key : string) :
  0 <= cursorIndex v < Z.of_nat (length (sortedSubscriptions (component v))) ->
  0 <= cursorIndex (fst (key_press v db hidden restored key))
  /\ (sortedSubscriptions (component (fst (key_press v db hidden restored key))) <> [] ->
      cursorIndex (fst (key_press v db hidden restored key))
      < Z.of_nat (length (sortedSubscriptions
                            (component (fst (key_press v db hidden restored key)))))
      /\ exists s, selectedSubscription (fst (key_press v db hidden restored key)) = Some s)
  /\ (sortedSubscriptions (component (fst (key_press v db hidden restored key))) = [] ->
      cursorIndex (fst (key_press v db hidden restored key)) = 0
      /\ selectedSubscription (fst (key_press v db hidden restored key)) = None)
  /\ (key <> "h" ->
      sortedSubscriptions (component (fst (key_press v db hidden restored key))) <> []).
Proof.
  intros Hr. pose proof (handleKeyDown_cursor v key Hr) as Hk.
  assert (Hother : key <> "h" ->
            sortedSubscriptions (component (fst (key_press v db hidden restored key)))
            <> []).
  { intros Hh. rewrite (key_press_component v db hidden restored key Hh).
    intros E. rewrite E in Hk. simpl in Hk. lia. }
  unfold key_press in *. simpl in *.
  set (w := fst (foldl (perform hidden restored) (fst (handleKeyDown v key), db)
                       (snd (handleKeyDown v key)))) in *.
  assert (H0 : 0 <= cursorIndex w).
  { unfold w. rewrite foldl_perform_cursor. simpl. lia. }
  destruct (clamp_cursor_spec w H0) as (Hc0 & Hne & He).
  rewrite clamp_cursor_component in *.
  split; [exact Hc0|]. split; [|split; [|exact Hother]].
  - intros Hn. split; [exact (Hne Hn)|].
    unfold selectedSubscription. rewrite clamp_cursor_component.
    destruct (Z.ltb_spec (cursorIndex (clamp_cursor w)) 0); [lia|].
    apply lookup_lt_is_Some_2. specialize (Hne Hn). lia.
  - intros E. split; [exact (He E)|].
    unfold selectedSubscription. rewrite clamp_cursor_component, E.
    destruct (cursorIndex (clamp_cursor w) <? 0); reflexivity.
Qed.

End Cursor.

Lemma cursor_stays_on_a_row_witness :
  0 <= cursorIndex
         (fst (key_press (view_of after_first_run) streaming_db (Ok 151) (Ok tt) "h"))
  /\ (sortedSubscriptions
        (component
           (fst (key_press (view_of after_first_run) streaming_db (Ok 151) (Ok tt) "h")))
      <> [] ->
      cursorIndex
        (fst (key_press (view_of after_first_run) streaming_db (Ok 151) (Ok tt) "h"))
      < Z.of_nat
          (length
             (sortedSubscriptions
                (component
                   (fst (key_press (view_of after_first_run) streaming_db (Ok 151) (Ok tt)
                           "h")))))
      /\ exists s,
          selectedSubscription
            (fst (key_press (view_of after_first_run) streaming_db (Ok 151) (Ok tt) "h"))
          = Some s)
  /\ (sortedSubscriptions
        (component
           (fst (key_press (view_of after_first_run) streaming_db (Ok 151) (Ok tt) "h")))
      = [] ->
      cursorIndex
        (fst (key_press (view_of after_first_run) streaming_db (Ok 151) (Ok tt) "h"))
      = 0
      /\ selectedSubscription
           (fst (key_press (view_of after_first_run) streaming_db (Ok 151) (Ok tt) "h"))
         = None)
  /\ ("h" <> "h" ->
      sortedSubscriptions
        (component
           (fst (key_press (view_of after_first_run) streaming_db (Ok 151) (Ok tt) "h")))
      <> []).
Proof.
  apply (cursor_stays_on_a_row (view_of after_first_run) streaming_db (Ok 151) (Ok tt) "h").
  vm_compute. split; [discriminate|reflexivity].
Defined.

(** The h key on the only row of the table hides it: the table is empty
    afterwards, the cursor stays at 0 and nothing is selected; the j key
    on the same table leaves the row selected. *)
Example h_on_the_only_row :
  sortedSubscriptions (component (view_of after_first_run)) = [netflix_on_day_150]
  /\ sortedSubscriptions
       (component
          (fst (key_press (view_of after_first_run) streaming_db (Ok 151) (Ok tt) "h")))
     = []
  /\ cursorIndex
       (fst (key_press (view_of after_first_run) streaming_db (Ok 151) (Ok tt) "h"))
     = 0
  /\ selectedSubscription
       (fst (key_press (view_of after_first_run) streaming_db (Ok 151) (Ok tt) "h"))
     = None
  /\ selectedSubscription
       (fst (key_press (view_of after_first_run) streaming_db (Ok 151) (Ok tt) "j"))
     = Some netflix_on_day_150.
Proof. vm_compute. repeat split; reflexivity. Qed.

Section EmptyTable.

Context {unicode : Js.Unicode} {collation : Sql.Collation}.

(** X6: with an empty table, the down key takes the cursor to -1, outside
    the table; the bounds effect leaves it there and nothing is selected;
    the up key then brings it back to 0. *)
Theorem down_key_on_empty_table (v : View) :
  searchFocused v = false ->
  sortedSubscriptions (component v) = [] ->
  0 <= cursorIndex v ->
  cursorIndex (clamp_cursor (fst (handleKeyDown v "j"))) = -1
  /\ selectedSubscription (clamp_cursor (fst (handleKeyDown v "j"))) = None
  /\ cursorIndex
       (clamp_cursor (fst (handleKeyDown (clamp_cursor (fst (handleKeyDown v "j"))) "k")))
     = 0.
Proof.
  intros Hf He Hc.
  assert (H1 : clamp_cursor (fst (handleKeyDown v "j")) = set_cursorIndex v (-1)).
  { unfold clamp_cursor, handleKeyDown. rewrite Hf. simpl. rewrite He. simpl.
    change (Z.of_nat 0 - 1) with (-1).
    assert (Hm : Z.min (cursorIndex v + 1) (-1) = -1) by lia.
    rewrite Hm. reflexivity. }
  rewrite H1. split; [reflexivity|]. split; [reflexivity|].
  unfold handleKeyDown. simpl. rewrite Hf. simpl.
  unfold clamp_cursor. simpl. rewrite He. reflexivity.
Qed.

End EmptyTable.

Lemma down_key_on_empty_table_witness :
  cursorIndex (clamp_cursor (fst (handleKeyDown (view_of idle) "j"))) = -1.
Proof.
  refine (proj1 (down_key_on_empty_table (view_of idle) _ _ _)).
  - reflexivity.
  - vm_compute. reflexivity.
  - vm_compute. discriminate.
Defined.

(** ** The visibility store *)

Lemma elem_of_stored_hidden (db : Db) (k : string) :
  k ∈ stored_hidden db
  <-> k <> EmptyString /\ exists t, (k, Some t) ∈ sys_plugin_subscriptions db.
Proof.
  unfold stored_hidden, HIDDEN_SQL.
  rewrite elem_of_list_to_set, list_elem_of_filter, list_elem_of_fmap. split.
  - intros [Ht [[k' o] [-> Hp]]]. apply list_elem_of_filter in Hp as [[t Ho] Hp].
    simpl in *. subst o. split; [intros ->; discriminate|eauto].
  - intros [Hne [t Hp]]. split; [destruct k; [contradiction|reflexivity]|].
    exists (k, Some t). split; [reflexivity|].
    apply list_elem_of_filter. split; [simpl; eauto|exact Hp].
Qed.

Lemma elem_of_upsert_hidden tbl key now (k : string) (o : option Z) :
  (k, o) ∈ upsert_hidden tbl key now
  <-> (k <> key /\ (k, o) ∈ tbl) \/ (k = key /\ o = Some now).
Proof.
  unfold upsert_hidden. case_bool_decide as Hk.
  - rewrite list_elem_of_fmap. split.
    + intros [[k' o'] [Heq Hp]]. simpl in Heq. case_bool_decide as Hd.
      * injection Heq as -> ->. auto.
      * injection Heq as -> ->. auto.
    + intros [[Hne Hp]|[-> ->]].
      * exists (k, o). simpl. rewrite bool_decide_eq_false_2 by exact Hne. auto.
      * apply list_elem_of_fmap in Hk as [[k' o'] [-> Hp]]. exists (k', o').
        simpl. rewrite bool_decide_eq_true_2 by reflexivity. auto.
  - rewrite elem_of_app, list_elem_of_singleton. split.
    + intros [Hp|Heq]; [|injection Heq as -> ->; auto]. left. split; [|exact Hp].
      intros ->. apply Hk. apply list_elem_of_fmap. exists (key, o). auto.
    + intros [[_ Hp]|[-> ->]]; auto.
Qed.

Lemma stored_hidden_after_hide db key now :
  key <> EmptyString ->
  stored_hidden (mkDb (transactions db)
                      (upsert_hidden (sys_plugin_subscriptions db) key now))
  = stored_hidden db ∪ {[key]}.
Proof.
  intros Hne. apply set_eq. intros k.
  rewrite elem_of_union, elem_of_singleton, !elem_of_stored_hidden. simpl. split.
  - intros [Hk [t Hp]]. apply elem_of_upsert_hidden in Hp as [[Hd Hp]|[-> _]]; eauto.
  - intros [[Hk [t Hp]]| ->].
    + split; [exact Hk|]. destruct (decide (k = key)) as [->|Hd].
      * exists now. apply elem_of_upsert_hidden. auto.
      * exists t. apply elem_of_upsert_hidden. auto.
    + split; [exact Hne|]. exists now. apply elem_of_upsert_hidden. auto.
Qed.

Lemma stored_hidden_after_unhide db key :
  stored_hidden (mkDb (transactions db)
                      (filter (fun p => fst p <> key) (sys_plugin_subscriptions db)))
  = stored_hidden db ∖ {[key]}.
Proof.
  apply set_eq. intros k.
  rewrite elem_of_difference, elem_of_singleton, !elem_of_stored_hidden. simpl. split.
  - intros [Hk [t Hp]]. apply list_elem_of_filter in Hp as [Hd Hp]. simpl in Hd. eauto.
  - intros [[Hk [t Hp]] Hd]. split; [exact Hk|]. exists t.
    apply list_elem_of_filter. auto.
Qed.

(** X7: hiding and restoring keep the component's set of hidden keys
    equal to what the store holds, whether the statement succeeds or
    throws, for a subscription whose key is not empty: reloading the
    hidden merchants afterwards changes nothing. *)
Theorem hidden_set_matches_store
    (st : State) (db : Db) (hide_outcome : Try Z) (unhide_outcome : Try unit)
    (sub : Subscription) :
  merchant_key sub <> EmptyString ->
  hiddenMerchantKeys st = stored_hidden db ->
  hiddenMerchantKeys (fst (hideSubscription st db hide_outcome sub))
  = stored_hidden (snd (hideSubscription st db hide_outcome sub))
  /\ loadHiddenMerchants (fst (hideSubscription st db hide_outcome sub))
       (Ok (snd (hideSubscription st db hide_outcome sub)))
     = fst (hideSubscription st db hide_outcome sub)
  /\ hiddenMerchantKeys (fst (unhideSubscription st db unhide_outcome sub))
     = stored_hidden (snd (unhideSubscription st db unhide_outcome sub))
  /\ loadHiddenMerchants (fst (unhideSubscription st db unhide_outcome sub))
       (Ok (snd (unhideSubscription st db unhide_outcome sub)))
     = fst (unhideSubscription st db unhide_outcome sub).
Proof.
  intros Hne Hsync.
  assert (Hh : hiddenMerchantKeys (fst (hideSubscription st db hide_outcome sub))
               = stored_hidden (snd (hideSubscription st db hide_outcome sub))).
  { destruct hide_outcome as [now|e]; simpl; [|exact Hsync].
    rewrite stored_hidden_after_hide by exact Hne. rewrite Hsync. reflexivity. }
  assert (Hu : hiddenMerchantKeys (fst (unhideSubscription st db unhide_outcome sub))
               = stored_hidden (snd (unhideSubscription st db unhide_outcome sub))).
  { destruct unhide_outcome as [u|e]; simpl; [|exact Hsync].
    rewrite stored_hidden_after_unhide. rewrite Hsync. reflexivity. }
  split; [exact Hh|]. split; [|split; [exact Hu|]].
  - unfold loadHiddenMerchants. fold (stored_hidden (snd (hideSubscription st db hide_outcome sub))).
    rewrite <- Hh. destruct (fst (hideSubscription st db hide_outcome sub)). reflexivity.
  - unfold loadHiddenMerchants.
    fold (stored_hidden (snd (unhideSubscription st db unhide_outcome sub))).
    rewrite <- Hu. destruct (fst (unhideSubscription st db unhide_outcome sub)). reflexivity.
Qed.

(** X8: a subscription whose key is the empty string (tagged charges
    without a description) is hidden in the component after
    [hideSubscription], but the reload drops empty keys: after
    [loadHiddenMerchants] on the same store it is no longer hidden. *)
Theorem empty_key_is_not_reloaded (st : State) (db : Db) (now : Z) (sub : Subscription) :
  merchant_key sub = EmptyString ->
  merchant_key sub ∈ hiddenMerchantKeys (fst (hideSubscription st db (Ok now) sub))
  /\ (merchant_key sub, Some now)
       ∈ sys_plugin_subscriptions (snd (hideSubscription st db (Ok now) sub))
  /\ merchant_key sub
       ∉ hiddenMerchantKeys
           (loadHiddenMerchants (fst (hideSubscription st db (Ok now) sub))
              (Ok (snd (hideSubscription st db (Ok now) sub)))).
Proof.
  intros He. simpl. split; [|split].
  - apply elem_of_union. right. apply elem_of_singleton. reflexivity.
  - apply elem_of_upsert_hidden. auto.
  - fold (stored_hidden
            (mkDb (transactions db)
                  (upsert_hidden (sys_plugin_subscriptions db) (merchant_key sub) now))).
    rewrite elem_of_stored_hidden. intros [Hne _]. contradiction.
Qed.

Lemma hidden_set_matches_store_witness :
  hiddenMerchantKeys
    (fst (hideSubscription after_first_run streaming_db (Ok 151) netflix_on_day_150))
  = stored_hidden
      (snd (hideSubscription after_first_run streaming_db (Ok 151) netflix_on_day_150)).
Proof.
  refine (proj1 (hidden_set_matches_store after_first_run streaming_db (Ok 151) (Ok tt)
                   netflix_on_day_150 _ _)).
  - discriminate.
  - reflexivity.
Defined.

Lemma empty_key_is_not_reloaded_witness :
  merchant_key untitled
    ∉ hiddenMerchantKeys
        (loadHiddenMerchants
           (fst (hideSubscription after_first_run streaming_db (Ok 151) untitled))
           (Ok (snd (hideSubscription after_first_run streaming_db (Ok 151) untitled)))).
Proof.
  refine (proj2 (proj2 (empty_key_is_not_reloaded after_first_run streaming_db 151
                          untitled _))).
  reflexivity.
Defined.

Lemma filter_key_absent (tbl : list (string * option Z)) (key : string) :
  key ∉ fst <$> tbl -> filter (fun p => fst p <> key) tbl = tbl.
Proof.
  intros Hk. apply filter_all. intros p Hp Heq. apply Hk.
  apply list_elem_of_fmap. exists p. auto.
Qed.

(** X9: hiding a subscription and restoring it at once brings back the
    set of hidden keys, when the key was not hidden before, and the table
    of the store, when the key had no row in it; a statement that throws
    changes neither the set, nor the store, nor the published list. *)
Theorem hide_then_unhide_restores
    (st : State) (db : Db) (now : Z) (sub : Subscription) :
  merchant_key sub ∉ hiddenMerchantKeys st ->
  merchant_key sub ∉ fst <$> sys_plugin_subscriptions db ->
  hiddenMerchantKeys
    (fst (unhideSubscription (fst (hideSubscription st db (Ok now) sub))
            (snd (hideSubscription st db (Ok now) sub)) (Ok tt) sub))
  = hiddenMerchantKeys st
  /\ snd (unhideSubscription (fst (hideSubscription st db (Ok now) sub))
            (snd (hideSubscription st db (Ok now) sub)) (Ok tt) sub)
     = db
  /\ (forall e,
         hiddenMerchantKeys (fst (hideSubscription st db (Threw e) sub))
         = hiddenMerchantKeys st
         /\ subscriptions (fst (hideSubscription st db (Threw e) sub)) = subscriptions st
         /\ snd (hideSubscription st db (Threw e) sub) = db
         /\ hiddenMerchantKeys (fst (unhideSubscription st db (Threw e) sub))
            = hiddenMerchantKeys st
         /\ snd (unhideSubscription st db (Threw e) sub) = db).
Proof.
  intros Hset Htbl. simpl. split; [|split].
  - apply set_eq. intros k.
    rewrite elem_of_difference, elem_of_union, elem_of_singleton. split.
    + intros [[H|H] Hne]; [exact H|contradiction].
    + intros H. split; [auto|]. intros ->. contradiction.
  - destruct db as [txs tbl]. simpl in *. f_equal.
    unfold upsert_hidden. rewrite bool_decide_eq_false_2 by exact Htbl.
    rewrite filter_app, filter_key_absent by exact Htbl.
    rewrite filter_cons_False by (simpl; tauto). apply app_nil_r.
  - intros e. repeat split; reflexivity.
Qed.

Lemma hide_then_unhide_restores_witness :
  snd (unhideSubscription
         (fst (hideSubscription after_first_run streaming_db (Ok 151) netflix_on_day_150))
         (snd (hideSubscription after_first_run streaming_db (Ok 151) netflix_on_day_150))
         (Ok tt) netflix_on_day_150)
  = streaming_db.
Proof.
  refine (proj1 (proj2 (hide_then_unhide_restores after_first_run streaming_db 151
                          netflix_on_day_150 _ _))).
  - apply not_elem_of_empty.
  - apply not_elem_of_nil.
Defined.

Lemma filter_keys_fmap (tbl : list (string * option Z)) (key : string) :
  fst <$> filter (fun p => fst p <> key) tbl = filter (fun k => k <> key) (fst <$> tbl).
Proof.
  induction tbl as [|p tbl IH]; [reflexivity|].
  rewrite fmap_cons, !filter_cons.
  destruct (decide (fst p <> key)); [rewrite fmap_cons|]; rewrite IH; reflexivity.
Qed.

Lemma upsert_hidden_keys tbl key now :
  fst <$> upsert_hidden tbl key now
  = if bool_decide (key ∈ fst <$> tbl) then fst <$> tbl else (fst <$> tbl) ++ [key].
Proof.
  unfold upsert_hidden. case_bool_decide as Hk.
  - rewrite <- list_fmap_compose. apply list_fmap_ext. intros i p _. simpl.
    case_bool_decide as Hd; [symmetry; exact Hd|reflexivity].
  - rewrite fmap_app. reflexivity.
Qed.

(** X10: [merchant_key] stays a key of the plugin's table: if no key
    occurs twice before, none does after the upsert of [hideSubscription]
    or the delete of [unhideSubscription]; after hiding, the key has one
    row, stamped with the time of hiding; after restoring, it has none. *)
Theorem merchant_key_stays_primary
    (st : State) (db : Db) (now : Z) (sub : Subscription) :
  NoDup (fst <$> sys_plugin_subscriptions db) ->
  NoDup (fst <$> sys_plugin_subscriptions (snd (hideSubscription st db (Ok now) sub)))
  /\ (forall o,
         (merchant_key sub, o)
           ∈ sys_plugin_subscriptions (snd (hideSubscription st db (Ok now) sub))
         <-> o = Some now)
  /\ NoDup (fst <$> sys_plugin_subscriptions (snd (unhideSubscription st db (Ok tt) sub)))
  /\ merchant_key sub
       ∉ fst <$> sys_plugin_subscriptions (snd (unhideSubscription st db (Ok tt) sub)).
Proof.
  intros Hnd. simpl. split; [|split; [|split]].
  - rewrite upsert_hidden_keys. case_bool_decide as Hk; [exact Hnd|].
    apply NoDup_app. split; [exact Hnd|]. split.
    + intros k Hin Hk'. apply list_elem_of_singleton in Hk'. subst. contradiction.
    + apply NoDup_singleton.
  - intros o. rewrite elem_of_upsert_hidden. split.
    + intros [[Hne _]|[_ Ho]]; [contradiction|exact Ho].
    + auto.
  - rewrite (filter_keys_fmap (sys_plugin_subscriptions db) (merchant_key sub)).
    apply NoDup_filter. exact Hnd.
  - rewrite (filter_keys_fmap (sys_plugin_subscriptions db) (merchant_key sub)).
    intros Hin. apply list_elem_of_filter in Hin as [Hne _]. contradiction.
Qed.

Lemma merchant_key_stays_primary_witness :
  NoDup (fst <$> sys_plugin_subscriptions
                   (snd (hideSubscription after_first_run streaming_db (Ok 151)
                           netflix_on_day_150)))
  /\ (forall o,
         (merchant_key netflix_on_day_150, o)
           ∈ sys_plugin_subscriptions
               (snd (hideSubscription after_first_run streaming_db (Ok 151)
                       netflix_on_day_150))
         <-> o = Some 151)
  /\ NoDup (fst <$> sys_plugin_subscriptions
                      (snd (unhideSubscription after_first_run streaming_db (Ok tt)
                              netflix_on_day_150)))
  /\ merchant_key netflix_on_day_150
       ∉ fst <$> sys_plugin_subscriptions
                   (snd (unhideSubscription after_first_run streaming_db (Ok tt)
                           netflix_on_day_150)).
Proof.
  apply (merchant_key_stays_primary after_first_run streaming_db 151 netflix_on_day_150).
  apply NoDup_nil_2.
Defined.

Section Hiding.

Context {unicode : Js.Unicode} {collation : Sql.Collation}.

(** X11: with hidden entries not shown, a successful [hideSubscription]
    takes out of the visible list, and out of the active ones, every entry
    that carries the key of the hidden subscription (all of them, when a
    merchant was detected at several amounts) and nothing else; with hidden
    entries shown the visible list does not change. *)
Theorem hiding_removes_the_key
    (st : State) (db : Db) (now : Z) (sub : Subscription) :
  (showHidden st = false ->
   visibleSubscriptions (fst (hideSubscription st db (Ok now) sub))
   = filter (fun s => merchant_key s <> merchant_key sub) (visibleSubscriptions st))
  /\ activeSubscriptions (fst (hideSubscription st db (Ok now) sub))
     = filter (fun s => merchant_key s <> merchant_key sub) (activeSubscriptions st)
  /\ (showHidden st = true ->
      visibleSubscriptions (fst (hideSubscription st db (Ok now) sub))
      = visibleSubscriptions st).
Proof.
  assert (Hmem : forall s,
             bool_decide (merchant_key s ∈ hiddenMerchantKeys st ∪ {[merchant_key sub]})
             = bool_decide (merchant_key s ∈ hiddenMerchantKeys st)
               || bool_decide (merchant_key s = merchant_key sub)).
  { intros s. apply eq_true_iff_eq.
    rewrite orb_true_iff, !bool_decide_eq_true, elem_of_union, elem_of_singleton.
    reflexivity. }
  split; [|split].
  - intros Hshow. unfold visibleSubscriptions. simpl.
    rewrite list_filter_filter. apply list_filter_iff. intros s.
    rewrite Hmem, Hshow. simpl.
    destruct (decide (merchant_key s = merchant_key sub)) as [He|He].
    + rewrite (bool_decide_eq_true_2 _ He), orb_true_r. split; [discriminate|tauto].
    + rewrite (bool_decide_eq_false_2 _ He), orb_false_r. tauto.
  - unfold activeSubscriptions. simpl.
    rewrite list_filter_filter. apply list_filter_iff. intros s.
    rewrite Hmem.
    destruct (decide (merchant_key s = merchant_key sub)) as [He|He].
    + rewrite (bool_decide_eq_true_2 _ He), orb_true_r. simpl. split; [discriminate|tauto].
    + rewrite (bool_decide_eq_false_2 _ He), orb_false_r. tauto.
  - intros Hshow. unfold visibleSubscriptions. simpl.
    apply list_filter_iff. intros s. rewrite Hshow. reflexivity.
Qed.

End Hiding.

(** ** Settings *)

Section BlankTag.

Context {unicode : Js.Unicode} {collation : Sql.Collation}.

Lemma isAlsoManual_nil (d : Subscription) : isAlsoManual [] d = false.
Proof.
  unfold isAlsoManual. simpl.
  rewrite !bool_decide_eq_false_2 by apply not_elem_of_empty. reflexivity.
Qed.

Lemma merge_without_manual (a : list Subscription) :
  (forall d, d ∈ a -> is_manual d = false) -> merge a [] = a.
Proof.
  intros Ha. unfold merge, markedAutoDetected, uniqueManual.
  rewrite filter_nil, app_nil_r.
  induction a as [|d a IH]; [reflexivity|].
  rewrite fmap_cons, isAlsoManual_nil, IH.
  - f_equal. destruct d. simpl. f_equal. symmetry. apply (Ha _ (list_elem_of_here _ _)).
  - intros x Hx. apply Ha. right. exact Hx.
Qed.

End BlankTag.

Section SettingsFacts.

Context {unicode : Js.Unicode} {collation : Sql.Collation}.

Variable jaro_winkler_similarity : string -> string -> Q.

Lemma detect_try_blank_tag st sdk final :
  Js.truthy (Js.trim (subscriptionTag st)) = false ->
  detect_try jaro_winkler_similarity st sdk = Ok final ->
  exists db,
    sdk_auto_query sdk = Ok db
    /\ final = autoDetected_of_row
                 <$> SUBSCRIPTION_SQL jaro_winkler_similarity (sdk_clock sdk)
                       (transactions db).
Proof.
  intros Hblank Hrun.
  apply detect_try_Ok in Hrun as (a & m & Hrun & ->).
  destruct Hrun as [db1 db2 _ Ht _|db1 E1 _]; [congruence|].
  exists db1. split; [exact E1|].
  apply merge_without_manual. intros d Hd.
  apply list_elem_of_fmap in Hd as [row [-> _]]. reflexivity.
Qed.

Lemma saveSettings_Ok v stored u sdk :
  saveSettings jaro_winkler_similarity v stored (Ok u) sdk
  = (set_component (set_showSettings v false)
       (detectSubscriptions jaro_winkler_similarity
          (push_toast (component v) "Settings saved") sdk),
     Text (subscriptionTag (component v))).
Proof. reflexivity. Qed.

(** X12: a non-empty tag saved in the settings dialog is the tag the
    component starts with the next time it is mounted, and when the
    queries succeed the mounted component publishes the list that the save
    itself published; a save that throws changes neither the stored
    setting, nor the tag, nor the published list, and leaves the dialog
    open. *)
Theorem saved_tag_survives_remount
    (v : View) (stored : SettingValue) (sdk : Sdk) (hidden : Try Db)
    (final : list Subscription) :
  Js.truthy (subscriptionTag (component v)) = true ->
  detect_try jaro_winkler_similarity (component v) sdk = Ok final ->
  snd (saveSettings jaro_winkler_similarity v stored (Ok tt) sdk)
  = Text (subscriptionTag (component v))
  /\ subscriptionTag
       (loadSettings initial
          (Ok (snd (saveSettings jaro_winkler_similarity v stored (Ok tt) sdk))))
     = subscriptionTag (component v)
  /\ subscriptions
       (component (fst (saveSettings jaro_winkler_similarity v stored (Ok tt) sdk)))
     = final
  /\ subscriptions
       (onMount jaro_winkler_similarity
          (Ok (snd (saveSettings jaro_winkler_similarity v stored (Ok tt) sdk)))
          hidden sdk)
     = final
  /\ (forall e,
         snd (saveSettings jaro_winkler_similarity v stored (Threw e) sdk) = stored
         /\ subscriptionTag
              (component (fst (saveSettings jaro_winkler_similarity v stored (Threw e) sdk)))
            = subscriptionTag (component v)
         /\ subscriptions
              (component (fst (saveSettings jaro_winkler_similarity v stored (Threw e) sdk)))
            = subscriptions (component v)
         /\ showSettings (fst (saveSettings jaro_winkler_similarity v stored (Threw e) sdk))
            = showSettings v).
Proof.
  intros Htag Hrun. rewrite saveSettings_Ok. cbn [fst snd component set_component].
  split; [reflexivity|].
  split; [unfold loadSettings; rewrite Htag; reflexivity|]. split; [|split].
  - rewrite detectSubscriptions_subscriptions.
    rewrite (detect_try_reads_tag _ (push_toast (component v) "Settings saved")
               (component v) sdk eq_refl), Hrun.
    reflexivity.
  - unfold onMount. rewrite detectSubscriptions_subscriptions.
    rewrite (detect_try_reads_tag _
               (loadHiddenMerchants
                  (loadSettings initial (Ok (Text (subscriptionTag (component v)))))
                  hidden)
               (component v) sdk), Hrun; [reflexivity|].
    unfold loadSettings. rewrite Htag. destruct hidden; reflexivity.
  - intros e. repeat split; reflexivity.
Qed.

(** X13: an empty tag switches the manual path off for the run that
    follows the save (the published list is the auto-detected list, as the
    query returned it, with no entry marked manual), but it is not read
    back: the next mount starts from the default tag "subscriptions". *)
Theorem empty_tag_is_not_restored
    (v : View) (stored : SettingValue) (sdk : Sdk) (final : list Subscription) :
  subscriptionTag (component v) = EmptyString ->
  detect_try jaro_winkler_similarity (component v) sdk = Ok final ->
  snd (saveSettings jaro_winkler_similarity v stored (Ok tt) sdk) = Text EmptyString
  /\ subscriptions
       (component (fst (saveSettings jaro_winkler_similarity v stored (Ok tt) sdk)))
     = final
  /\ (exists db,
         sdk_auto_query sdk = Ok db
         /\ final = autoDetected_of_row
                      <$> SUBSCRIPTION_SQL jaro_winkler_similarity (sdk_clock sdk)
                            (transactions db))
  /\ (forall s, s ∈ final -> is_manual s = false)
  /\ subscriptionTag
       (loadSettings initial
          (Ok (snd (saveSettings jaro_winkler_similarity v stored (Ok tt) sdk))))
     = "subscriptions".
Proof.
  intros Htag Hrun.
  assert (Hblank : Js.truthy (Js.trim (subscriptionTag (component v))) = false)
    by (rewrite Htag, Js.trim_empty; reflexivity).
  destruct (detect_try_blank_tag _ _ _ Hblank Hrun) as (db & Hdb & Hfinal).
  rewrite saveSettings_Ok. cbn [fst snd component set_component]. rewrite Htag.
  split; [reflexivity|]. split; [|split; [|split]].
  - rewrite detectSubscriptions_subscriptions.
    rewrite (detect_try_reads_tag _ (push_toast (component v) "Settings saved")
               (component v) sdk eq_refl), Hrun.
    reflexivity.
  - eauto.
  - intros s Hs. rewrite Hfinal in Hs.
    apply list_elem_of_fmap in Hs as [row [-> _]]. reflexivity.
  - reflexivity.
Qed.

End SettingsFacts.

Lemma saved_tag_survives_remount_witness :
  subscriptions
    (onMount prefix_similarity
       (Ok (snd (saveSettings prefix_similarity (editing "subscriptions") Unset (Ok tt)
                   (sdk_on 150 60 streaming))))
       (Ok streaming_db) (sdk_on 150 60 streaming))
  = [netflix_on_day_150].
Proof.
  refine (proj1 (proj2 (proj2 (proj2
            (saved_tag_survives_remount prefix_similarity (editing "subscriptions") Unset
               (sdk_on 150 60 streaming) (Ok streaming_db) [netflix_on_day_150] _ _))))).
  - reflexivity.
  - vm_compute. reflexivity.
Defined.

Lemma empty_tag_is_not_restored_witness :
  subscriptionTag
    (loadSettings initial
       (Ok (snd (saveSettings prefix_similarity (editing "") Unset (Ok tt)
                   (sdk_on 150 60 streaming)))))
  = "subscriptions".
Proof.
  refine (proj2 (proj2 (proj2 (proj2
            (empty_tag_is_not_restored prefix_similarity (editing "") Unset
               (sdk_on 150 60 streaming)
               [with_is_manual netflix_on_day_150 false] _ _))))).
  - reflexivity.
  - vm_compute. reflexivity.
Defined.

(** ** Quoting *)

Lemma append_cons (c : ascii) (a b : string) : String c a +:+ b = String c (a +:+ b).
Proof. reflexivity. Qed.

Lemma read_literal_doubled (r : string) :
  read_literal (String "'" (String "'" r))
  = (fun p : string * string => (String "'" (fst p), snd p)) <$> read_literal r.
Proof. reflexivity. Qed.

Lemma read_literal_other (c : ascii) (r : string) :
  Ascii.eqb c "'" = false ->
  read_literal (String c r)
  = (fun p : string * string => (String c (fst p), snd p)) <$> read_literal r.
Proof. intros E. simpl. rewrite E. reflexivity. Qed.

(** X14: a key, merchant name or tag spliced into a statement between
    quotes after [replace(/'/g, "''")] is read back by SQL as the same
    string, whatever quotes it contains, and the literal ends where the
    statement closes it: the text after the closing quote is left as it
    is. *)
Theorem quoted_literal_round_trip (s rest : string) :
  starts_with_quote rest = false ->
  read_literal (sql_escape s +:+ "'" +:+ rest) = Some (s, rest).
Proof.
  intros Hrest. induction s as [|c s IH].
  - change (read_literal (String "'" rest) = Some (EmptyString, rest)).
    destruct rest as [|c' r']; [reflexivity|].
    simpl in Hrest. simpl. rewrite Hrest. reflexivity.
  - simpl sql_escape. destruct (Ascii.eqb c "'") eqn:E.
    + apply Ascii.eqb_eq in E. subst c.
      change (read_literal (String "'" (String "'" (sql_escape s +:+ "'" +:+ rest)))
              = Some (String "'" s, rest)).
      rewrite read_literal_doubled, IH. reflexivity.
    + change (read_literal (String c (sql_escape s +:+ "'" +:+ rest))
              = Some (String c s, rest)).
      rewrite (read_literal_other _ _ E), IH. reflexivity.
Qed.

Lemma quoted_literal_round_trip_witness :
  read_literal (sql_escape "TRADER JOE'S #552" +:+ "'" +:+ ", NOW())")
  = Some ("TRADER JOE'S #552", ", NOW())").
Proof.
  apply (quoted_literal_round_trip "TRADER JOE'S #552" ", NOW())"). reflexivity.
Defined.

(** ** Recent charges *)

Lemma elem_of_take_lookup {A} (n : nat) (l : list A) (x : A) :
  x ∈ take n l -> exists i, (i < n)%nat /\ l !! i = Some x.
Proof.
  intros Hx. apply list_elem_of_lookup_1 in Hx as [i Hi].
  apply lookup_take_Some in Hi as [Hi Hlt]. eauto.
Qed.

Lemma elem_of_drop_lookup {A} (n : nat) (l : list A) (x : A) :
  x ∈ drop n l -> exists j, l !! (n + j)%nat = Some x.
Proof.
  intros Hx. apply list_elem_of_lookup_1 in Hx as [j Hj].
  rewrite lookup_drop in Hj. eauto.
Qed.

(** X15: the recent-charges panel shows at most 15 transactions, all
    with exactly the description of the selected subscription (debits or
    not), the latest first; none that is left out is more recent than one
    that is shown, and none is left out when there are at most 15; when the
    query throws the panel is empty. *)
Theorem recent_charges_are_the_latest (v : View) (merchant : string) (db : Db) :
  (length (recentTransactions (loadRecentTransactions v merchant (Ok db))) <= 15)%nat
  /\ (exists kept dropped,
         kept ++ dropped
         ≡ₚ filter (fun t => t_description t = Some merchant) (transactions db)
         /\ recentTransactions (loadRecentTransactions v merchant (Ok db))
            = (fun t => {| rt_date := t_date t; rt_amount := t_amount t |}) <$> kept
         /\ (forall a b, a ∈ kept -> b ∈ dropped -> t_date b <= t_date a)
         /\ ((length (filter (fun t => t_description t = Some merchant)
                             (transactions db)) <= 15)%nat -> dropped = []))
  /\ (forall i j a b,
         (i < j)%nat ->
         recentTransactions (loadRecentTransactions v merchant (Ok db)) !! i = Some a ->
         recentTransactions (loadRecentTransactions v merchant (Ok db)) !! j = Some b ->
         rt_date b <= rt_date a)
  /\ (forall e, recentTransactions (loadRecentTransactions v merchant (Threw e)) = []).
Proof.
  set (found := filter (fun t => t_description t = Some merchant) (transactions db)).
  set (sorted := Sql.order_by (fun x y => t_date y <=? t_date x) found).
  assert (Hsorted : StronglySorted (fun x y => (t_date y <=? t_date x) = true) sorted).
  { apply order_by_sorted.
    - intros x y. rewrite !Z.leb_le. lia.
    - intros x y z. rewrite !Z.leb_le. lia. }
  assert (Hshown : recentTransactions (loadRecentTransactions v merchant (Ok db))
                   = (fun t => {| rt_date := t_date t; rt_amount := t_amount t |})
                     <$> take 15 sorted) by reflexivity.
  rewrite Hshown. split; [|split; [|split]].
  - rewrite length_fmap, length_take. lia.
  - exists (take 15 sorted), (drop 15 sorted). split; [|split; [|split]].
    + rewrite take_drop. apply order_by_Permutation.
    + reflexivity.
    + intros a b Ha Hb.
      apply elem_of_take_lookup in Ha as (i & Hi & Ha).
      apply elem_of_drop_lookup in Hb as (j & Hb).
      apply Z.leb_le.
      apply (StronglySorted_lookup _ sorted i (15 + j) a b Hsorted); [lia|exact Ha|exact Hb].
    + intros Hlen. apply drop_ge. unfold sorted. rewrite length_order_by. exact Hlen.
  - intros i j a b Hij Hi Hj.
    rewrite list_lookup_fmap in Hi, Hj.
    destruct (take 15 sorted !! i) as [ta|] eqn:Ea; [|discriminate].
    destruct (take 15 sorted !! j) as [tb|] eqn:Eb; [|discriminate].
    injection Hi as <-. injection Hj as <-. simpl.
    apply lookup_take_Some in Ea as [Ea _]. apply lookup_take_Some in Eb as [Eb _].
    apply Z.leb_le. apply (StronglySorted_lookup _ sorted i j ta tb Hsorted Hij Ea Eb).
  - reflexivity.
Qed.

(** ** What the queries read *)

Lemma omap_filter_None {A B} (f : A -> option B) (P : A -> Prop)
    `{forall x, Decision (P x)} (l : list A) :
  (forall x, ~ P x -> f x = None) -> omap f (filter P l) = omap f l.
Proof.
  intros Hf. induction l as [|x l IH]; [reflexivity|].
  rewrite filter_cons. destruct (decide (P x)) as [Hp|Hp].
  - csimpl. rewrite IH. reflexivity.
  - csimpl. rewrite (Hf x Hp). exact IH.
Qed.

Lemma omap_ext_eq {A B} (f g : A -> option B) (l : list A) :
  (forall x, f x = g x) -> omap f l = omap g l.
Proof.
  intros Hfg. induction l as [|x l IH]; [reflexivity|].
  csimpl. rewrite (Hfg x), IH. reflexivity.
Qed.

Section Debits.

Context {unicode : Js.Unicode} {collation : Sql.Collation}.

Variable jaro_winkler_similarity : string -> string -> Q.

Lemma base_transactions_debits (txs : list Transaction) :
  base_transactions (filter (fun t => Sql.Qltb (t_amount t) 0 = true) txs)
  = base_transactions txs.
Proof.
  unfold base_transactions. apply omap_filter_None. intros t Ht.
  destruct (t_description t); [|reflexivity].
  destruct (Sql.Qltb (t_amount t) 0); [contradiction|reflexivity].
Qed.

Lemma tagged_transactions_debits (tag : string) (txs : list Transaction) :
  tagged_transactions tag (filter (fun t => Sql.Qltb (t_amount t) 0 = true) txs)
  = tagged_transactions tag txs.
Proof.
  unfold tagged_transactions. f_equal. apply list_filter_filter_l.
  intros t Ht. unfold tagged_debit in Ht.
  destruct (Sql.Qltb (t_amount t) 0); [reflexivity|contradiction].
Qed.

Lemma ytd_debits (clock : Clock) (tag : string) (txs : list Transaction)
    (k : option string) :
  ytd clock tag (filter (fun t => Sql.Qltb (t_amount t) 0 = true) txs) k
  = ytd clock tag txs k.
Proof.
  unfold ytd. destruct k as [key|]; [|reflexivity].
  rewrite list_filter_filter_l; [reflexivity|].
  intros t [Ht _]. unfold tagged_debit in Ht.
  destruct (Sql.Qltb (t_amount t) 0); [reflexivity|contradiction].
Qed.

(** Two evaluations on the same date differ, on the same groups, in
    nothing but the row that [FIRST] reads. *)
Lemma stats_of_group_without_merchant (clock clock' : Clock) grouped k rows :
  current_date clock' = current_date clock ->
  year_start clock' = year_start clock ->
  without_merchant <$> stats_of_group clock' grouped k rows
  = without_merchant <$> stats_of_group clock grouped k rows.
Proof.
  intros Hd Hy. unfold stats_of_group, ytd_spending. rewrite Hd, Hy.
  destruct (Sql.avg ((fun i => Qabs (i_amount i)) <$> rows)); [|reflexivity].
  destruct (Sql.avg ((fun i => inject_Z (i_interval_days i)) <$> rows)); [|reflexivity].
  destruct (Sql.max_list (i_date <$> rows)); [|reflexivity].
  destruct (Sql.min_list (i_date <$> rows)); reflexivity.
Qed.

Lemma manual_row_of_group_without_merchant (clock clock' : Clock) tag txs k rows :
  current_date clock' = current_date clock ->
  year_start clock' = year_start clock ->
  without_merchant <$> manual_row_of_group clock' tag txs k rows
  = without_merchant <$> manual_row_of_group clock tag txs k rows.
Proof.
  intros Hd Hy. unfold manual_row_of_group, ytd. rewrite Hd, Hy.
  destruct (Sql.avg (ti_amount <$> rows)); [|reflexivity].
  destruct (Sql.max_list (ti_date <$> rows)); [|reflexivity].
  destruct (Sql.min_list (ti_date <$> rows)); reflexivity.
Qed.

(** X16: neither query reads a credit.  With every transaction of a
    non-negative amount left out of the store, and whichever rows [FIRST]
    reads in the two evaluations, both queries return on the same date
    the same rows, up to their order and to the merchant name that
    [FIRST] fills. *)
Theorem credits_are_never_read
    (clock clock' : Clock) (tag : string) (txs : list Transaction) :
  current_date clock' = current_date clock ->
  year_start clock' = year_start clock ->
  without_merchant
    <$> SUBSCRIPTION_SQL jaro_winkler_similarity clock'
          (filter (fun t => Sql.Qltb (t_amount t) 0 = true) txs)
  ≡ₚ without_merchant <$> SUBSCRIPTION_SQL jaro_winkler_similarity clock txs
  /\ without_merchant
       <$> TAGGED_SQL clock' tag (filter (fun t => Sql.Qltb (t_amount t) 0 = true) txs)
     ≡ₚ without_merchant <$> TAGGED_SQL clock tag txs.
Proof.
  intros Hd Hy. split.
  - unfold SUBSCRIPTION_SQL, SUBSCRIPTION_SQL_with.
    rewrite base_transactions_debits.
    rewrite !(fmap_Permutation without_merchant _ _ (order_by_Permutation _ _)).
    unfold merchant_stats. rewrite !list_fmap_omap.
    erewrite omap_ext_eq; [reflexivity|].
    intros part. simpl.
    destruct (periodicity_filter _ _); [|reflexivity].
    apply stats_of_group_without_merchant; assumption.
  - unfold TAGGED_SQL. rewrite tagged_transactions_debits.
    rewrite !(fmap_Permutation without_merchant _ _ (order_by_Permutation _ _)).
    rewrite !list_fmap_omap.
    erewrite omap_ext_eq; [reflexivity|].
    intros part. simpl. unfold manual_row_of_group at 1.
    rewrite ytd_debits. fold (manual_row_of_group clock' tag txs (fst part) (snd part)).
    apply manual_row_of_group_without_merchant; assumption.
Qed.

End Debits.

Lemma credits_are_never_read_witness :
  without_merchant
    <$> SUBSCRIPTION_SQL prefix_similarity (clock_reading_later 150 60)
          (filter (fun t => Sql.Qltb (t_amount t) 0 = true) streaming_with_refund)
  ≡ₚ without_merchant
       <$> SUBSCRIPTION_SQL prefix_similarity (clock_on 150 60) streaming_with_refund
  /\ without_merchant
       <$> TAGGED_SQL (clock_reading_later 150 60) "subscriptions"
             (filter (fun t => Sql.Qltb (t_amount t) 0 = true) streaming_with_refund)
     ≡ₚ without_merchant
          <$> TAGGED_SQL (clock_on 150 60) "subscriptions" streaming_with_refund.
Proof.
  apply (credits_are_never_read prefix_similarity (clock_on 150 60)
           (clock_reading_later 150 60) "subscriptions" streaming_with_refund);
    reflexivity.
Defined.

(** The merchant name of a row is the engine's choice among the
    descriptions of its group: on [streaming], an evaluation in which
    [FIRST] reads the earliest row with a previous charge names the
    subscription after the second spelling, one in which it reads the
    next row after the first. *)
Example merchant_name_depends_on_the_evaluation :
  r_merchant <$> SUBSCRIPTION_SQL prefix_similarity (clock_on 150 60) streaming
  = [Some "NETFLIX.COM NETFLIX.COM CA"]
  /\ r_merchant
       <$> SUBSCRIPTION_SQL prefix_similarity (clock_reading_later 150 60) streaming
     = [Some "Netflix.com Los Gatos CA"].
Proof. vm_compute. split; reflexivity. Qed.

(** ** The dates and figures of a row *)

Lemma foldr_min_sorted (x : Z) (l : list Z) :
  Forall (fun y => (x <=? y) = true) l -> foldr Z.min x l = x.
Proof.
  induction 1 as [|y l Hy _ IH]; [reflexivity|].
  simpl. rewrite IH. apply Z.leb_le in Hy. lia.
Qed.

Lemma foldr_max_shift (x y : Z) (l : list Z) :
  x <= y -> Z.max y (foldr Z.max x l) = foldr Z.max y l.
Proof.
  intros Hxy. induction l as [|z l IH]; simpl; lia.
Qed.

Lemma min_list_sorted (l : list Z) :
  StronglySorted (fun a b => (a <=? b) = true) l -> Sql.min_list l = head l.
Proof.
  intros Hs. destruct l as [|x l]; [reflexivity|].
  inversion Hs as [|? ? _ Hall]; subst. simpl. rewrite foldr_min_sorted; auto.
Qed.

Lemma max_list_sorted (l : list Z) :
  StronglySorted (fun a b => (a <=? b) = true) l -> Sql.max_list l = last l.
Proof.
  induction 1 as [|x l Hs IH Hall]; [reflexivity|].
  destruct l as [|y l]; [reflexivity|].
  change (last (x :: y :: l)) with (last (y :: l)). rewrite <- IH.
  simpl. f_equal. rewrite <- (foldr_max_shift x y l); [reflexivity|].
  apply Forall_cons in Hall as [Hxy _]. apply Z.leb_le in Hxy. exact Hxy.
Qed.

Lemma order_by_leb_sorted (l : list Z) :
  StronglySorted (fun a b => (a <=? b) = true) (Sql.order_by Z.leb l).
Proof.
  apply order_by_sorted.
  - intros x y. rewrite !Z.leb_le. lia.
  - intros x y z. rewrite !Z.leb_le. lia.
Qed.

Lemma StronglySorted_tail {A} (R : A -> A -> Prop) (l : list A) :
  StronglySorted R l -> StronglySorted R (tail l).
Proof. intros Hs. destruct Hs; [constructor|assumption]. Qed.

Lemma head_tail_lookup {A} (l : list A) : head (tail l) = l !! 1%nat.
Proof. destruct l as [|x [|y l]]; reflexivity. Qed.

Lemma last_tail {A} (l : list A) : (2 <= length l)%nat -> last (tail l) = last l.
Proof. destruct l as [|x [|y l]]; simpl; intros; [lia|lia|reflexivity]. Qed.

Lemma elem_of_tail {A} (x : A) (l : list A) : x ∈ tail l -> x ∈ l.
Proof. destruct l; [auto|]. simpl. intros H. apply elem_of_cons. auto. Qed.

Lemma min_le_max_list (l : list Z) (a b : Z) :
  Sql.min_list l = Some a -> Sql.max_list l = Some b -> a <= b.
Proof.
  destruct l as [|x l]; [discriminate|]. simpl. intros [= <-] [= <-].
  assert (foldr Z.min x l <= x /\ x <= foldr Z.max x l) as [? ?]; [|lia].
  induction l as [|y l IH]; simpl; lia.
Qed.

Section WindowDates.

Context {A B : Type}.
Variables (date : A -> Z) (make : A -> Z -> B) (date' : B -> Z).
Hypothesis date_make : forall a z, date' (make a z) = date a.

(** The dates left by the window are those of the partition in
    ascending order, without the earliest. *)
Lemma window_intervals_dates (rows : list A) :
  date' <$> window_intervals date make rows
  = tail (Sql.order_by Z.leb (date <$> rows)).
Proof.
  unfold window_intervals.
  rewrite <- order_by_date_fmap, <- fmap_tail, <- (intervals_fst date).
  rewrite <- !list_fmap_compose. apply list_fmap_ext.
  intros i [a z] _. simpl. apply date_make.
Qed.

Lemma window_intervals_first_last (rows : list A) (first last_ : Z) :
  (2 <= length rows)%nat ->
  Sql.min_list (date' <$> window_intervals date make rows) = Some first ->
  Sql.max_list (date' <$> window_intervals date make rows) = Some last_ ->
  Sql.order_by Z.leb (date <$> rows) !! 1%nat = Some first
  /\ last (Sql.order_by Z.leb (date <$> rows)) = Some last_.
Proof.
  intros Hlen. rewrite window_intervals_dates.
  rewrite min_list_sorted, max_list_sorted
    by (apply StronglySorted_tail, order_by_leb_sorted).
  rewrite head_tail_lookup, last_tail; [auto|].
  rewrite length_order_by, length_fmap. exact Hlen.
Qed.

Lemma elem_of_window_intervals (rows : list A) (b : B) :
  b ∈ window_intervals date make rows -> exists a z, a ∈ rows /\ b = make a z.
Proof.
  unfold window_intervals. intros H.
  apply list_elem_of_fmap in H as [[a z] [-> Hp]]. exists a, z. split; [|reflexivity].
  apply (elem_of_order_by (by_date date)). apply elem_of_tail.
  rewrite <- (intervals_fst date). apply list_elem_of_fmap. exists (a, z). auto.
Qed.

End WindowDates.

Section RowFields.

Context {unicode : Js.Unicode} {collation : Sql.Collation}.

Lemma stats_of_group_fields clock grouped k rows row :
  stats_of_group clock grouped k rows = Some row ->
  Sql.avg ((fun i => Qabs (i_amount i)) <$> rows) = Some (r_avg_amount row)
  /\ Sql.min_list (i_date <$> rows) = Some (r_first_charge row)
  /\ Sql.max_list (i_date <$> rows) = Some (r_last_charge row)
  /\ r_ytd_cost row = Sql.coalesce (ytd_spending clock grouped k) 0%Q
  /\ r_days_since_last row = current_date clock - r_last_charge row.
Proof.
  unfold stats_of_group. intros H.
  destruct (Sql.avg ((fun i => Qabs (i_amount i)) <$> rows)) as [a|]; [|discriminate].
  simpl in H.
  destruct (Sql.avg ((fun i => inject_Z (i_interval_days i)) <$> rows))
    as [v|]; [|discriminate].
  simpl in H.
  destruct (Sql.max_list (i_date <$> rows)) as [mx|]; [|discriminate].
  destruct (Sql.min_list (i_date <$> rows)) as [mn|]; [|discriminate].
  simpl in H. injection H as <-. simpl. auto.
Qed.

Lemma manual_row_of_group_fields clock tag txs k rows row :
  manual_row_of_group clock tag txs k rows = Some row ->
  Sql.avg (ti_amount <$> rows) = Some (r_avg_amount row)
  /\ Sql.min_list (ti_date <$> rows) = Some (r_first_charge row)
  /\ Sql.max_list (ti_date <$> rows) = Some (r_last_charge row)
  /\ r_ytd_cost row = Sql.coalesce (ytd clock tag txs k) 0%Q
  /\ r_days_since_last row = current_date clock - r_last_charge row.
Proof.
  unfold manual_row_of_group. intros H.
  destruct (Sql.avg (ti_amount <$> rows)) as [a|]; [|discriminate].
  simpl in H.
  destruct (Sql.max_list (ti_date <$> rows)) as [mx|]; [|discriminate].
  destruct (Sql.min_list (ti_date <$> rows)) as [mn|]; [|discriminate].
  simpl in H. injection H as <-. simpl. auto.
Qed.

(** X17: the auto-detect query takes MIN and MAX of the charge dates over
    the rows that have a previous charge, so the [first_charge] of a row
    is the date of the second charge of its group, in date order, not of
    the earliest; [last_charge] is the date of the latest, and the
    occurrence count is the number of charges of the group. *)
Theorem first_charge_is_the_second_charge
    (jw : string -> string -> Q) (clock : Clock) (txs : list Transaction)
    (row : StatRow) :
  row ∈ SUBSCRIPTION_SQL jw clock txs ->
  exists k,
    r_merchant_key row = Some (fst k)
    /\ Sql.order_by Z.leb (g_date <$> group_members jw txs k) !! 1%nat
       = Some (r_first_charge row)
    /\ last (Sql.order_by Z.leb (g_date <$> group_members jw txs k))
       = Some (r_last_charge row)
    /\ r_occurrence_count row = Z.of_nat (length (group_members jw txs k)).
Proof.
  intros Hrow. unfold SUBSCRIPTION_SQL in Hrow.
  apply SUBSCRIPTION_SQL_with_groups in Hrow as (k & Hf & Hs).
  pose proof (stats_of_group_Some _ _ _ _ _ Hs) as (Hc & _ & Hk).
  apply stats_of_group_fields in Hs as (_ & Hmin & Hmax & _).
  apply periodicity_filter_range in Hf as [H2 _].
  rewrite auto_group_gaps in Hc. rewrite count_group_gaps in Hc, H2.
  assert (Hlen : (2 <= length (group_members jw txs k))%nat) by lia.
  destruct (window_intervals_first_last g_date interval_row i_date
              (fun _ _ => eq_refl) _ _ _ Hlen Hmin Hmax) as [H1 Hl].
  exists k. repeat split; [exact Hk|exact H1|exact Hl|lia].
Qed.

End RowFields.

Lemma first_charge_is_the_second_charge_witness :
  exists k,
    r_merchant_key streaming_row = Some (fst k)
    /\ Sql.order_by Z.leb (g_date <$> group_members prefix_similarity streaming k)
         !! 1%nat
       = Some (r_first_charge streaming_row)
    /\ last (Sql.order_by Z.leb (g_date <$> group_members prefix_similarity streaming k))
       = Some (r_last_charge streaming_row)
    /\ r_occurrence_count streaming_row
       = Z.of_nat (length (group_members prefix_similarity streaming k)).
Proof.
  apply (first_charge_is_the_second_charge prefix_similarity (clock_on 150 60)).
  vm_compute. left.
Defined.

Section TaggedDates.

Context {unicode : Js.Unicode} {collation : Sql.Collation}.

(** X18: the tagged query does the same: the [first_charge] of the row of
    a merchant key is the date of the second tagged charge under that
    key, in date order, and [last_charge] the date of the latest. *)
Theorem tagged_dates_skip_the_earliest_charge
    (clock : Clock) (tag : string) (txs : list Transaction) (row : StatRow) :
  row ∈ TAGGED_SQL clock tag txs ->
  Sql.order_by Z.leb (t_date <$> tagged_members tag txs (r_merchant_key row)) !! 1%nat
  = Some (r_first_charge row)
  /\ last (Sql.order_by Z.leb (t_date <$> tagged_members tag txs (r_merchant_key row)))
     = Some (r_last_charge row).
Proof.
  intros Hrow. apply elem_of_TAGGED_SQL in Hrow as (k & rows & Hp & Hrow).
  pose proof (manual_row_of_group_Some _ _ _ _ _ _ Hrow) as (Hk & _ & _).
  apply manual_row_of_group_fields in Hrow as (_ & Hmin & Hmax & _).
  apply elem_of_tagged_groups in Hp as [Hge ->]. rewrite Hk.
  rewrite <- tagged_partition_length in Hge.
  rewrite <- tagged_partition_dates.
  apply (window_intervals_first_last tg_date tagged_interval ti_date
           (fun _ _ => eq_refl) _ _ _ Hge Hmin Hmax).
Qed.

End TaggedDates.

Lemma tagged_dates_skip_the_earliest_charge_witness :
  Sql.order_by Z.leb
    (t_date <$> tagged_members "subscriptions" price_change
                  (r_merchant_key price_change_row)) !! 1%nat
  = Some (r_first_charge price_change_row)
  /\ last (Sql.order_by Z.leb
             (t_date <$> tagged_members "subscriptions" price_change
                           (r_merchant_key price_change_row)))
     = Some (r_last_charge price_change_row).
Proof.
  apply (tagged_dates_skip_the_earliest_charge (clock_on 160 0)).
  vm_compute. left.
Defined.

Section RowFigures.

Context {unicode : Js.Unicode} {collation : Sql.Collation}.

Lemma NoDup_omap_key {A B K} (f : A -> option B) (ka : A -> K) (kb : B -> K)
    (l : list A) :
  (forall a b, f a = Some b -> kb b = ka a) ->
  NoDup (ka <$> l) -> NoDup (kb <$> omap f l).
Proof.
  intros Hk. induction l as [|x l IH]; [constructor|].
  rewrite fmap_cons, NoDup_cons. intros [Hx Hl]. csimpl.
  destruct (f x) as [b|] eqn:Ex; [|auto].
  rewrite fmap_cons, NoDup_cons. split; [|auto].
  intros Hin. apply Hx.
  apply list_elem_of_fmap in Hin as [b' [Hb' Hin]].
  apply list_elem_of_omap in Hin as [a' [Ha' Ef]].
  apply list_elem_of_fmap. exists a'. split; [|exact Ha'].
  rewrite <- (Hk _ _ Ex), <- (Hk _ _ Ef). exact Hb'.
Qed.

Lemma group_by_keys {A K} `{EqDecision K} (key : A -> K) (rows : list A) :
  fst <$> Sql.group_by key rows = remove_dups (key <$> rows).
Proof.
  unfold Sql.group_by. rewrite <- list_fmap_compose.
  induction (remove_dups (key <$> rows)) as [|k l IH]; [reflexivity|].
  rewrite fmap_cons, IH. reflexivity.
Qed.

(** X19: the tagged query returns at most one row per merchant key: no
    two of its rows carry the same uppercased description. *)
Theorem tagged_rows_have_distinct_keys
    (clock : Clock) (tag : string) (txs : list Transaction) :
  NoDup (r_merchant_key <$> TAGGED_SQL clock tag txs).
Proof.
  unfold TAGGED_SQL.
  rewrite (fmap_Permutation r_merchant_key _ _ (order_by_Permutation _ _)).
  apply (NoDup_omap_key _ fst).
  - intros [k rows] row H. simpl in H.
    apply manual_row_of_group_Some in H as [Hk _]. exact Hk.
  - rewrite group_by_keys. apply NoDup_remove_dups.
Qed.

Lemma sum_nonneg (xs : list Q) : Forall (fun x => (0 <= x)%Q) xs -> (0 <= Sql.sum xs)%Q.
Proof.
  induction 1 as [|x xs Hx _ IH]; [apply Qle_refl|].
  change (Sql.sum (x :: xs)) with (x + Sql.sum xs)%Q. lra.
Qed.

Lemma Forall_fmap_Qabs {A} (f : A -> Q) (l : list A) :
  Forall (fun x => (0 <= x)%Q) ((fun a => Qabs (f a)) <$> l).
Proof.
  apply Forall_fmap, Forall_forall. intros a _. apply Qabs_nonneg.
Qed.

Lemma avg_nonneg (xs : list Q) (a : Q) :
  Sql.avg xs = Some a -> Forall (fun x => (0 <= x)%Q) xs -> (0 <= a)%Q.
Proof.
  destruct xs as [|x xs]; [discriminate|]. intros [= <-] Hall.
  apply Qmult_le_0_compat; [apply (sum_nonneg (x :: xs)); exact Hall|].
  apply Qinv_le_0_compat. unfold Sql.count, Qle. simpl. lia.
Qed.

Lemma round_cents_nonneg (x : Q) : (0 <= x)%Q -> (0 <= Js.round_cents x)%Q.
Proof.
  intros Hx. unfold Js.round_cents.
  assert (H0 : 0 <= Js.round (x * 100)).
  { apply round_lower. change (inject_Z 0) with 0%Q. lra. }
  apply Qmult_le_0_compat; [|apply Qinv_le_0_compat; lra].
  unfold Qle. simpl. lia.
Qed.

Lemma ytd_spending_nonneg clock grouped k :
  (0 <= Sql.coalesce (ytd_spending clock grouped k) 0)%Q.
Proof.
  unfold ytd_spending.
  destruct (filter _ grouped) as [|g gs]; [apply Qle_refl|].
  unfold Sql.coalesce. apply sum_nonneg, Forall_fmap_Qabs.
Qed.

Lemma ytd_nonneg clock tag txs k :
  (0 <= Sql.coalesce (ytd clock tag txs k) 0)%Q.
Proof.
  unfold ytd. destruct k as [key|]; [|apply Qle_refl].
  destruct (filter _ txs) as [|t ts]; [apply Qle_refl|].
  unfold Sql.coalesce. apply sum_nonneg, Forall_fmap_Qabs.
Qed.

Lemma auto_row_is_consistent jw clock txs row :
  row ∈ SUBSCRIPTION_SQL jw clock txs -> row_is_consistent clock row.
Proof.
  intros Hrow. unfold SUBSCRIPTION_SQL in Hrow.
  pose proof (SUBSCRIPTION_SQL_with_range _ _ _ _ _ Hrow) as (_ & _ & H3).
  apply SUBSCRIPTION_SQL_with_groups in Hrow as (k & _ & Hs).
  apply stats_of_group_fields in Hs as (Ha & Hmin & Hmax & Hy & Hd).
  unfold row_is_consistent. repeat split.
  - apply (avg_nonneg _ _ Ha), Forall_fmap_Qabs.
  - rewrite Hy. apply ytd_spending_nonneg.
  - lia.
  - apply (min_le_max_list _ _ _ Hmin Hmax).
  - exact Hd.
Qed.

Lemma tagged_row_is_consistent clock tag txs row :
  row ∈ TAGGED_SQL clock tag txs -> row_is_consistent clock row.
Proof.
  intros Hrow. apply elem_of_TAGGED_SQL in Hrow as (k & rows & Hp & Hrow).
  pose proof (manual_row_of_group_Some _ _ _ _ _ _ Hrow) as (_ & Hc & _).
  apply manual_row_of_group_fields in Hrow as (Ha & Hmin & Hmax & Hy & Hd).
  apply elem_of_tagged_groups in Hp as [_ ->].
  unfold row_is_consistent. repeat split.
  - apply (avg_nonneg _ _ Ha), Forall_fmap, Forall_forall. intros b Hb.
    apply elem_of_window_intervals in Hb as (a & z & Ha' & ->).
    apply list_elem_of_filter in Ha' as [_ Ha']. unfold tagged_transactions in Ha'.
    apply list_elem_of_fmap in Ha' as [t [-> _]]. simpl. apply Qabs_nonneg.
  - rewrite Hy. apply ytd_nonneg.
  - rewrite Hc. unfold Sql.count.
    destruct (window_intervals _ _ _); [discriminate|]. simpl length. lia.
  - apply (min_le_max_list _ _ _ Hmin Hmax).
  - exact Hd.
Qed.

(** X20: whatever a successful run publishes is consistent: the amount
    and the year-to-date cost of a subscription are not negative although
    they come from debits, it has at least two charges, its first charge
    is not after its last, and the days since the last charge are counted
    from that charge to the current date of the query. *)
Theorem published_figures_are_consistent
    (jw : string -> string -> Q) (st : State) (sdk : Sdk)
    (final : list Subscription) (s : Subscription) :
  detect_try jw st sdk = Ok final -> s ∈ final ->
  (0 <= amount s)%Q /\ (0 <= ytd_cost s)%Q
  /\ 2 <= occurrence_count s
  /\ first_charge s <= last_charge s
  /\ days_since_last s = current_date (sdk_clock sdk) - last_charge s.
Proof.
  intros Hrun Hs. apply detect_try_Ok in Hrun as (a & m & Hrun & ->).
  assert (Hrow : exists row,
             row_is_consistent (sdk_clock sdk) row
             /\ amount s = Js.round_cents (r_avg_amount row)
             /\ ytd_cost s = Js.round_cents (r_ytd_cost row)
             /\ occurrence_count s = r_occurrence_count row
             /\ first_charge s = r_first_charge row
             /\ last_charge s = r_last_charge row
             /\ days_since_last s = r_days_since_last row).
  { apply elem_of_merge in Hs as [[d [Hd ->]]|Hs].
    - destruct Hrun as [db1 db2 _ _ _|db1 _ _];
        apply list_elem_of_fmap in Hd as [row [-> Hrow]];
        exists row; (split; [eapply auto_row_is_consistent; exact Hrow|]);
        simpl; repeat split; reflexivity.
    - destruct Hrun as [db1 db2 _ _ _|db1 _ _].
      + apply list_elem_of_fmap in Hs as [row [-> Hrow]].
        exists row. split; [eapply tagged_row_is_consistent; exact Hrow|].
        simpl. repeat split; reflexivity.
      + apply elem_of_nil in Hs. contradiction. }
  destruct Hrow as (row & (Ha & Hy & Hc & Hfl & Hd) & -> & -> & -> & -> & -> & ->).
  repeat split; [apply round_cents_nonneg; exact Ha
                |apply round_cents_nonneg; exact Hy|exact Hc|exact Hfl|exact Hd].
Qed.

End RowFigures.

Lemma published_figures_are_consistent_witness :
  (0 <= amount netflix_on_day_150)%Q /\ (0 <= ytd_cost netflix_on_day_150)%Q
  /\ 2 <= occurrence_count netflix_on_day_150
  /\ first_charge netflix_on_day_150 <= last_charge netflix_on_day_150
  /\ days_since_last netflix_on_day_150
     = current_date (sdk_clock (sdk_on 150 60 streaming))
       - last_charge netflix_on_day_150.
Proof.
  apply (published_figures_are_consistent prefix_similarity idle
           (sdk_on 150 60 streaming) [netflix_on_day_150]).
  - vm_compute. reflexivity.
  - left.
Defined.

(** * The revision without merchant keys *)

Lemma v1_elem_of_SUBSCRIPTION_SQL clock txs row :
  row ∈ V1.SUBSCRIPTION_SQL clock txs <->
  exists part,
    part ∈ Sql.group_by (V1.stat_key clock txs) (V1.merchant_intervals txs)
    /\ periodicity_filter intervalConsistencyTolerance_v1
         (V1.mi_interval_days <$> snd part) = true
    /\ V1.stats_of_group clock (fst part) (snd part) = Some row.
Proof.
  unfold V1.SUBSCRIPTION_SQL, V1.merchant_stats.
  rewrite elem_of_order_by, list_elem_of_omap.
  split; intros [part [Hp H]]; exists part.
  - destruct (periodicity_filter _ (V1.mi_interval_days <$> snd part));
      [auto|discriminate].
  - split; [exact Hp|]. destruct H as [-> H]. exact H.
Qed.

Lemma v1_stats_of_group_Some clock k rows row :
  V1.stats_of_group clock k rows = Some row ->
  V1.r_merchant row = fst k
  /\ V1.r_avg_interval row = avg_interval_days (V1.mi_interval_days <$> rows).
Proof.
  unfold V1.stats_of_group. intros H.
  destruct (Sql.avg ((fun i => Qabs (V1.mi_amount i)) <$> rows)) as [a|]; [|discriminate].
  simpl in H.
  destruct (Sql.avg ((fun i => inject_Z (V1.mi_interval_days i)) <$> rows))
    as [v|] eqn:Ev; [|discriminate].
  simpl in H.
  destruct (Sql.max_list (V1.mi_date <$> rows)) as [mx|]; [|discriminate].
  destruct (Sql.min_list (V1.mi_date <$> rows)) as [mn|]; [|discriminate].
  simpl in H. injection H as <-. simpl. split; [reflexivity|].
  change (fun i => inject_Z (V1.mi_interval_days i))
    with (inject_Z ∘ V1.mi_interval_days) in Ev.
  rewrite list_fmap_compose in Ev.
  rewrite avg_of_gaps in Ev.
  - congruence.
  - unfold Sql.count. rewrite length_fmap. destruct rows; [discriminate|simpl; lia].
Qed.

Lemma v1_rows_have_distinct_merchants (clock : Clock) (txs : list Transaction) :
  NoDup (V1.r_merchant <$> V1.SUBSCRIPTION_SQL clock txs).
Proof.
  unfold V1.SUBSCRIPTION_SQL.
  rewrite (fmap_Permutation V1.r_merchant _ _ (order_by_Permutation _ _)).
  unfold V1.merchant_stats.
  apply (NoDup_omap_key _ (fst ∘ fst)).
  - intros [k rows] row H. simpl in H.
    destruct (periodicity_filter _ _); [|discriminate].
    apply v1_stats_of_group_Some in H as [Hm _]. exact Hm.
  - rewrite (list_fmap_compose fst fst), group_by_keys.
    apply NoDup_fmap_2_strong; [|apply NoDup_remove_dups].
    intros x y Hx Hy Hxy.
    apply elem_of_remove_dups, list_elem_of_fmap in Hx as [i [-> _]].
    apply elem_of_remove_dups, list_elem_of_fmap in Hy as [j [-> _]].
    unfold V1.stat_key in *. simpl in Hxy. rewrite Hxy. reflexivity.
Qed.

(** X21: in the revision without merchant keys, a successful run never
    publishes two subscriptions of the same merchant: the query groups by
    the description and by the year-to-date total joined to it, and that
    total is the same on every row of a description. *)
Theorem v1_merchants_are_distinct
    (st : V1.State) (clock : Clock) (db : Db) :
  NoDup (V1.merchant <$> V1.subscriptions (V1.detectSubscriptions st clock (Ok db))).
Proof.
  simpl. rewrite <- list_fmap_compose.
  change (V1.merchant ∘ V1.subscription_of_row) with V1.r_merchant.
  apply v1_rows_have_distinct_merchants.
Qed.

(** X22: in the revision without merchant keys every published
    subscription passed the range gate of the HAVING clause: its
    [interval_days] lies between 5 and 400 and its annual cost is a
    finite number. *)
Theorem v1_interval_is_in_range
    (st : V1.State) (clock : Clock) (db : Db) (s : V1.Subscription) :
  s ∈ V1.subscriptions (V1.detectSubscriptions st clock (Ok db)) ->
  5 <= V1.interval_days s <= 400 /\ exists c, V1.annual_cost s = Some c.
Proof.
  simpl. intros Hs. apply list_elem_of_fmap in Hs as [row [-> Hrow]].
  apply v1_elem_of_SUBSCRIPTION_SQL in Hrow as (part & _ & Hf & Hrow).
  apply v1_stats_of_group_Some in Hrow as [_ Ha].
  apply periodicity_filter_range in Hf as (_ & H5 & H400).
  rewrite <- Ha in H5, H400. simpl.
  pose proof (round_lower (V1.r_avg_interval row) 5 H5).
  pose proof (round_upper (V1.r_avg_interval row) 400 H400).
  split; [lia|]. apply annual_cost_of_nonzero. lia.
Qed.

Lemma v1_interval_is_in_range_witness :
  5 <= V1.interval_days netflix_v1 <= 400
  /\ exists c, V1.annual_cost netflix_v1 = Some c.
Proof.
  apply (v1_interval_is_in_range idle_v1 (clock_on 160 0) (mkDb price_change [])).
  vm_compute. left.
Defined.

Section V1Hiding.

Context {unicode : Js.Unicode} {collation : Sql.Collation}.

Lemma filter_other_length {A K} `{EqDecision K} (f : A -> K) (l : list A) (s : A) :
  NoDup (f <$> l) -> s ∈ l ->
  (length (filter (fun x => f x <> f s) l) + 1 = length l)%nat.
Proof.
  induction l as [|x l IH]; intros Hnd Hs; [apply elem_of_nil in Hs; contradiction|].
  rewrite fmap_cons, NoDup_cons in Hnd. destruct Hnd as [Hx Hnd].
  rewrite filter_cons. apply elem_of_cons in Hs as [<-|Hs].
  - destruct (decide (f s <> f s)) as [Hne|_]; [contradiction|].
    rewrite filter_all; [simpl; lia|].
    intros y Hy Heq. apply Hx. rewrite <- Heq. apply list_elem_of_fmap. eauto.
  - destruct (decide (f x <> f s)) as [_|Heq].
    + simpl. rewrite IH by assumption. reflexivity.
    + exfalso. apply Hx. apply dec_stable in Heq. rewrite Heq.
      apply list_elem_of_fmap. eauto.
Qed.

(** X23: in the revision without merchant keys, hiding a listed
    subscription after a run takes exactly one row off the list, the one
    hidden: merchants are distinct there, so no other row goes with it. *)
Theorem v1_hiding_removes_one_row
    (st : V1.State) (clock : Clock) (db : Db) (now : Z) (s : V1.Subscription) :
  V1.showHidden st = false ->
  s ∈ V1.visibleSubscriptions (V1.detectSubscriptions st clock (Ok db)) ->
  (s ∉ V1.visibleSubscriptions
         (V1.hideSubscription (V1.detectSubscriptions st clock (Ok db)) (Ok now)
            (V1.merchant s)))
  /\ (length (V1.visibleSubscriptions
                (V1.hideSubscription (V1.detectSubscriptions st clock (Ok db))
                   (Ok now) (V1.merchant s))) + 1
      = length (V1.visibleSubscriptions (V1.detectSubscriptions st clock (Ok db))))%nat.
Proof.
  intros Hshow Hs.
  assert (Hnd : NoDup (V1.merchant
                         <$> V1.subscriptions (V1.detectSubscriptions st clock (Ok db)))).
  { simpl. rewrite <- list_fmap_compose.
    change (V1.merchant ∘ V1.subscription_of_row) with V1.r_merchant.
    apply v1_rows_have_distinct_merchants. }
  set (st' := V1.detectSubscriptions st clock (Ok db)) in *.
  assert (Hshow' : V1.showHidden st' = false) by exact Hshow.
  assert (E : V1.visibleSubscriptions (V1.hideSubscription st' (Ok now) (V1.merchant s))
              = filter (fun x => V1.merchant x <> V1.merchant s)
                       (V1.visibleSubscriptions st')).
  { unfold V1.visibleSubscriptions. rewrite list_filter_filter.
    apply list_filter_iff. intros x. simpl. rewrite ?Hshow', ?Hshow. simpl.
    destruct (bool_decide (V1.merchant x ∈ V1.hiddenMerchants st ∪ {[V1.merchant s]}))
      eqn:E1;
      destruct (bool_decide (V1.merchant x ∈ V1.hiddenMerchants st)) eqn:E2;
      try apply bool_decide_eq_true in E1; try apply bool_decide_eq_false in E1;
      try apply bool_decide_eq_true in E2; try apply bool_decide_eq_false in E2;
      rewrite elem_of_union, elem_of_singleton in E1; simpl;
      intuition congruence. }
  rewrite E. split.
  - rewrite list_elem_of_filter. tauto.
  - apply filter_other_length; [|exact Hs].
    eapply sublist_NoDup; [exact Hnd|].
    apply fmap_sublist, sublist_filter.
Qed.

End V1Hiding.

Lemma v1_hiding_removes_one_row_witness :
  (netflix_v1 ∉ V1.visibleSubscriptions
      (V1.hideSubscription
         (V1.detectSubscriptions idle_v1 (clock_on 160 0) (Ok (mkDb price_change [])))
         (Ok 160%Z) (V1.merchant netflix_v1)))
  /\ (length (V1.visibleSubscriptions
                (V1.hideSubscription
                   (V1.detectSubscriptions idle_v1 (clock_on 160 0)
                      (Ok (mkDb price_change [])))
                   (Ok 160%Z) (V1.merchant netflix_v1))) + 1
      = length (V1.visibleSubscriptions
                  (V1.detectSubscriptions idle_v1 (clock_on 160 0)
                     (Ok (mkDb price_change [])))))%nat.
Proof.
  apply (v1_hiding_removes_one_row idle_v1 (clock_on 160 0) (mkDb price_change [])
           160%Z netflix_v1).
  - reflexivity.
  - vm_compute. left.
Defined.
